(** * Arcanite: the deterministic reading assembly (Layer 1)

    A shallow embedding of [arcanite.core.deck], [arcanite.core.models],
    [arcanite.core.spread] and [arcanite.reading.assembly], followed by the
    properties of the assembly engine.

    Conventions of the embedding:
    - a Python [str] is a Rocq [string] holding its UTF-8 bytes (equality,
      [<], [startswith] and [split] agree with the code-point versions);
    - a value produced by [json.load] is a [json] tree; a JSON object is an
      association list in insertion order, as a Python [dict] iterates;
    - a Python exception is the [Raise] outcome of the [result] monad;
    - [dict]s used only for lookup ([TarotDeck._card_by_id],
      [SpreadRegistry._spreads]) are [gmap]s, the [set] of drawn ids a
      [gset]. *)

From Stdlib Require Import ZArith Ascii.
From stdpp Require Import base option list gmap strings pretty sorting.

Local Open Scope Z_scope.

(** ** Python runtime *)

Module Py.

(** The exception classes that the assembly code can raise;
    [ValidationError] is pydantic's. *)
Inductive exn : Type :=
| KeyError
| IndexError
| ValueError
| AttributeError
| ValidationError.

Inductive result (A : Type) : Type :=
| Ok (a : A)
| Raise (e : exn).
Arguments Ok {A} a.
Arguments Raise {A} e.

Definition bind {A B : Type} (m : result A) (k : A -> result B) : result B :=
  match m with
  | Ok a => k a
  | Raise e => Raise e
  end.

(** What [json.load] returns.  The assembly never looks at a number
    beyond its truth value and its not being a string, list or dict, so
    numbers are carried as integers (a float behaves as an integer of
    the same truth value). *)
#[warnings="-register-all"]
Inductive json : Type :=
| JNull
| JBool (b : bool)
| JNum (n : Z)
| JStr (s : string)
| JList (l : list json)
| JDict (d : list (string * json)).

(** [d[k]] / [k in d] on a dict kept as an association list. *)
Fixpoint lookup_key {V : Type} (k : string) (d : list (string * V)) : option V :=
  match d with
  | [] => None
  | (k', v) :: d' => if String.eqb k k' then Some v else lookup_key k d'
  end.

(** [d.get(k, default)] on a value known to be a dict. *)
Definition dict_get (d : list (string * json)) (k : string) (default : json) : json :=
  match lookup_key k d with
  | Some v => v
  | None => default
  end.

(** [x.get(k, default)] on an arbitrary value: only dicts have [get]. *)
Definition get (x : json) (k : string) (default : json) : result json :=
  match x with
  | JDict d => Ok (dict_get d k default)
  | _ => Raise AttributeError
  end.

(** [x.items()]: only dicts have [items]. *)
Definition items (x : json) : result (list (string * json)) :=
  match x with
  | JDict d => Ok d
  | _ => Raise AttributeError
  end.

(** [bool(x)]. *)
Definition truthy (x : json) : bool :=
  match x with
  | JNull => false
  | JBool b => b
  | JNum n => negb (n =? 0)
  | JStr s => negb (String.eqb s "")
  | JList l => match l with [] => false | _ => true end
  | JDict d => match d with [] => false | _ => true end
  end.

(** [x.startswith(p)]: only strings have [startswith]. *)
Definition startswith (x : json) (p : string) : result bool :=
  match x with
  | JStr s => Ok (String.prefix p s)
  | _ => Raise AttributeError
  end.

(** [s.split(sep)] for a one-character separator. *)
Fixpoint split (sep : Ascii.ascii) (s : string) : list string :=
  match s with
  | EmptyString => [EmptyString]
  | String c s' =>
      if Ascii.eqb c sep then EmptyString :: split sep s'
      else match split sep s' with
           | [] => [String c EmptyString]
           | h :: t => String c h :: t
           end
  end.

(** [l[i]] with Python's negative indexing. *)
Definition index {A : Type} (l : list A) (i : Z) : result A :=
  let n := Z.of_nat (length l) in
  let j := if i <? 0 then i + n else i in
  if (0 <=? j) && (j <? n) then
    match l !! Z.to_nat j with
    | Some x => Ok x
    | None => Raise IndexError
    end
  else Raise IndexError.

(** [for x in xs: body], threading the loop's mutable state; an
    exception leaves the loop. *)
Fixpoint for_each {A S : Type} (xs : list A) (body : A -> S -> result S) (s : S)
  : result S :=
  match xs with
  | [] => Ok s
  | x :: xs' => bind (body x s) (for_each xs' body)
  end.

(** Pydantic field validation of values coming from [json.load]:
    a [str] field takes a string only, a [list[str]] field a list of
    strings, [str | None] a string or [None]. *)
Definition validate_str (x : json) : result string :=
  match x with
  | JStr s => Ok s
  | _ => Raise ValidationError
  end.

Fixpoint validate_strs (l : list json) : result (list string) :=
  match l with
  | [] => Ok []
  | x :: l' =>
      bind (validate_str x) (fun s =>
      bind (validate_strs l') (fun ss => Ok (s :: ss)))
  end.

Definition validate_str_list (x : json) : result (list string) :=
  match x with
  | JList l => validate_strs l
  | _ => Raise ValidationError
  end.

Definition validate_opt_str (x : json) : result (option string) :=
  match x with
  | JNull => Ok None
  | JStr s => Ok (Some s)
  | _ => Raise ValidationError
  end.

End Py.

Export Py.

Notation "'do' x <- m ; k" := (Py.bind m (fun x => k))
  (at level 10, x name, m at level 100, k at level 200).

(** ** [arcanite.core.models]

    Enumerations are inductive types with their [value] string; the
    pydantic models are records.  A field whose name an earlier record
    already uses takes the initials of its class as a prefix. *)

Module Models.

Inductive Orientation : Type :=
| UPRIGHT
| REVERSED.

Definition Orientation_value (o : Orientation) : string :=
  match o with
  | UPRIGHT => "upright"
  | REVERSED => "reversed"
  end.

Definition Orientation_eqb (a b : Orientation) : bool :=
  match a, b with
  | UPRIGHT, UPRIGHT | REVERSED, REVERSED => true
  | _, _ => false
  end.

Inductive QuestionType : Type :=
| LOVE
| CAREER
| SPIRITUAL
| FINANCIAL
| HEALTH
| GENERAL.

Definition QuestionType_value (q : QuestionType) : string :=
  match q with
  | LOVE => "love"
  | CAREER => "career"
  | SPIRITUAL => "spiritual"
  | FINANCIAL => "financial"
  | HEALTH => "health"
  | GENERAL => "general"
  end.

Definition QuestionType_members : list QuestionType :=
  [LOVE; CAREER; SPIRITUAL; FINANCIAL; HEALTH; GENERAL].

Definition QuestionType_eqb (a b : QuestionType) : bool :=
  String.eqb (QuestionType_value a) (QuestionType_value b).

Inductive RelationshipType : Type :=
| AMPLIFIES
| CHALLENGES
| CLARIFIES
| SIMILAR_ENERGY
| OPPOSITE_ENERGY
| LEARNING_SEQUENCE.

Definition RelationshipType_value (t : RelationshipType) : string :=
  match t with
  | AMPLIFIES => "amplifies"
  | CHALLENGES => "challenges"
  | CLARIFIES => "clarifies"
  | SIMILAR_ENERGY => "similar_energy"
  | OPPOSITE_ENERGY => "opposite_energy"
  | LEARNING_SEQUENCE => "learning_sequence"
  end.

Definition RelationshipType_members : list RelationshipType :=
  [AMPLIFIES; CHALLENGES; CLARIFIES; SIMILAR_ENERGY; OPPOSITE_ENERGY;
   LEARNING_SEQUENCE].

(** [EnumClass(value)]: the member with that value, else [ValueError]. *)
Definition enum_of_value {E : Type} (members : list E) (value : E -> string)
    (s : string) : result E :=
  match List.find (fun m => String.eqb (value m) s) members with
  | Some m => Ok m
  | None => Raise ValueError
  end.

Definition QuestionType_of (s : string) : result QuestionType :=
  enum_of_value QuestionType_members QuestionType_value s.

Definition RelationshipType_of (s : string) : result RelationshipType :=
  enum_of_value RelationshipType_members RelationshipType_value s.

(** The fields of [SpreadPosition]. *)
Record SpreadPosition : Type := {
  sp_name : string;
  short_description : string;
  detailed_description : string;
  sp_keywords : list string;
  rag_mapping : string;
  question_adaptations : list (string * string)
}.

(** [SpreadDefinition]; the layout and sizing fields, which the assembly
    never reads, are left out. *)
Record SpreadDefinition : Type := {
  sd_id : string;
  sd_name : string;
  sd_description : string;
  layout_id : string;
  category : string;
  difficulty : string;
  positions : list SpreadPosition
}.

(** [DrawnCard]; [image_path] holds [str(path)]. *)
Record DrawnCard : Type := {
  card_id : string;
  card_name : string;
  position_index : Z;
  position_name : string;
  orientation : Orientation;
  image_path : option string
}.

(** [Reading]; [created_at] is left out (the assembly never reads it). *)
Record Reading : Type := {
  id : string;
  spread_id : string;
  spread_name : string;
  question : option string;
  question_type : option QuestionType;
  drawn_cards : list DrawnCard;
  allow_reversals : bool;
  seed : option Z
}.

Record CardInterpretation : Type := {
  ci_card_id : string;
  ci_card_name : string;
  ci_position_index : Z;
  ci_position_name : string;
  ci_position_description : string;
  ci_orientation : Orientation;
  position_interpretation : string;
  position_keywords : list string;
  question_context : option string;
  question_keywords : list string;
  core_essence : string;
  core_keywords : list string;
  ci_image_path : option string
}.

Record CardRelationshipMatch : Type := {
  card1_id : string;
  card1_name : string;
  card2_id : string;
  card2_name : string;
  relationship_type : RelationshipType;
  interpretation : string;
  keywords : list string
}.

(** One entry of [raw_cards_data]: a dict with these fourteen keys. *)
Record RawCardData : Type := {
  raw_card_id : string;
  raw_card_name : string;
  raw_position_index : Z;
  raw_position_name : string;
  raw_position_description : string;
  raw_orientation : string;
  raw_position_interpretation : json;
  raw_position_keywords : json;
  raw_question_context : json;
  raw_question_keywords : json;
  raw_core_essence : json;
  raw_core_keywords : json;
  raw_image_path : option string;
  raw_card_data : list (string * json)
}.

Record AssembledContext : Type := {
  reading_id : string;
  ac_spread_name : string;
  ac_question : option string;
  ac_question_type : option QuestionType;
  card_interpretations : list CardInterpretation;
  relationships : list CardRelationshipMatch;
  raw_cards_data : list RawCardData
}.

(** [CardInterpretation(...)]: pydantic validates the data-derived
    arguments; the others come from already validated models. *)
Definition CardInterpretation_new
    (card_id card_name : string) (position_index : Z)
    (position_name position_description : string) (orientation : Orientation)
    (position_interpretation position_keywords : json)
    (question_context question_keywords : json)
    (core_essence core_keywords : json)
    (image_path : option string) : result CardInterpretation :=
  do pi <- validate_str position_interpretation;
  do pk <- validate_str_list position_keywords;
  do qc <- validate_opt_str question_context;
  do qk <- validate_str_list question_keywords;
  do ce <- validate_str core_essence;
  do ck <- validate_str_list core_keywords;
  Ok {| ci_card_id := card_id; ci_card_name := card_name;
        ci_position_index := position_index;
        ci_position_name := position_name;
        ci_position_description := position_description;
        ci_orientation := orientation;
        position_interpretation := pi; position_keywords := pk;
        question_context := qc; question_keywords := qk;
        core_essence := ce; core_keywords := ck;
        ci_image_path := image_path |}.

(** [CardRelationshipMatch(...)], validated the same way. *)
Definition CardRelationshipMatch_new
    (card1_id card1_name card2_id : string) (card2_name : json)
    (relationship_type : RelationshipType) (interpretation keywords : json)
    : result CardRelationshipMatch :=
  do n2 <- validate_str card2_name;
  do i <- validate_str interpretation;
  do ks <- validate_str_list keywords;
  Ok {| card1_id := card1_id; card1_name := card1_name;
        card2_id := card2_id; card2_name := n2;
        relationship_type := relationship_type;
        interpretation := i; keywords := ks |}.

End Models.

Export Models.

(** ** [arcanite.core.deck] *)

Module Deck.

(** [TarotCard]: the card's JSON object and its image file name. *)
Record TarotCard : Type := {
  _data : list (string * json);
  _image_filename : string
}.

(** The value of ["reversed" if reversed else "upright"]. *)
Definition orientation_key (reversed : bool) : string :=
  if reversed then "reversed" else "upright".

(** The result dict of [get_interpretation], [_get_core_meaning_fallback]
    and [get_question_context]: keys ["interpretation"], ["keywords"],
    ["raw"]. *)
Record InterpData : Type := {
  interp_interpretation : json;
  interp_keywords : json;
  interp_raw : json
}.

(** Property [TarotCard.card_name]: [self._data["card_name"]]. *)
Definition TarotCard_card_name (self : TarotCard) : result json :=
  match lookup_key "card_name" (_data self) with
  | Some v => Ok v
  | None => Raise KeyError
  end.

Definition _get_core_meaning_fallback (self : TarotCard) (reversed : bool)
    : result InterpData :=
  let core := dict_get (_data self) "core_meanings" (JDict []) in
  do meaning <- get core (orientation_key reversed) (JDict []);
  do essence <- get meaning "essence" (JStr "");
  do kws <- get meaning "keywords" (JList []);
  Ok {| interp_interpretation := essence;
        interp_keywords := kws;
        interp_raw := meaning |}.

(** The [for part in parts] loop of [get_interpretation]: [Some] node
    when every step descends, [None] when the [else] branch returns. *)
Fixpoint walk (current : json) (parts : list string) : option json :=
  match parts with
  | [] => Some current
  | part :: parts' =>
      match current with
      | JDict d =>
          match lookup_key part d with
          | Some child => walk child parts'
          | None => None
          end
      | _ => None
      end
  end.

Definition get_interpretation (self : TarotCard) (rag_mapping : string)
    (reversed : bool) : result InterpData :=
  let position_interps :=
    dict_get (_data self) "position_interpretations" (JDict []) in
  let parts := split "."%char rag_mapping in
  match walk position_interps parts with
  | None => _get_core_meaning_fallback self reversed
  | Some (JDict current) =>
      Ok {| interp_interpretation :=
              dict_get current (orientation_key reversed) (JStr "");
            interp_keywords := dict_get current "keywords" (JList []);
            interp_raw := JDict current |}
  | Some _ => _get_core_meaning_fallback self reversed
  end.

Definition get_question_context (self : TarotCard) (question_type : string)
    (reversed : bool) : result InterpData :=
  let contexts := dict_get (_data self) "question_contexts" (JDict []) in
  do context <- get contexts question_type (JDict []);
  do text <- get context (orientation_key reversed) (JStr "");
  do kws <- get context "keywords" (JList []);
  Ok {| interp_interpretation := text;
        interp_keywords := kws;
        interp_raw := context |}.

Definition get_core_meaning (self : TarotCard) (reversed : bool) : result json :=
  let core := dict_get (_data self) "core_meanings" (JDict []) in
  get core (orientation_key reversed) (JDict []).

Definition get_relationships (self : TarotCard) : json :=
  dict_get (_data self) "card_relationships" (JDict []).

(** [TarotDeck]: the [_card_by_id] index built by the constructor.  Its
    keys are compared with [str] card ids only, so it is keyed by
    strings. *)
Record TarotDeck : Type := {
  _card_by_id : gmap string TarotCard
}.

Definition get_card (self : TarotDeck) (card_id : string) : result TarotCard :=
  match _card_by_id self !! card_id with
  | None => Raise KeyError
  | Some card => Ok card
  end.

End Deck.

Export Deck.

(** ** [arcanite.core.spread] *)

Module Spread.

Record SpreadRegistry : Type := {
  _spreads : gmap string SpreadDefinition
}.

Definition load_spread (self : SpreadRegistry) (spread_id : string)
    : result SpreadDefinition :=
  match _spreads self !! spread_id with
  | None => Raise KeyError
  | Some spread => Ok spread
  end.

End Spread.

Export Spread.

(** ** [arcanite.reading.assembly] *)

Module Assembly.

Record DeterministicAssembler : Type := {
  _deck : TarotDeck;
  _spread_registry : SpreadRegistry
}.

(** The [question_type] argument: [QuestionType | str | None]. *)
Inductive question_type_arg : Type :=
| ArgNone
| ArgStr (s : string)
| ArgEnum (q : QuestionType).

(** "Normalize question_type".  A [QuestionType] member is a [str] too
    and [QuestionType(member)] is that member. *)
Definition normalize_question_type (reading : Reading) (arg : question_type_arg)
    : result (option QuestionType) :=
  match arg with
  | ArgStr s => do q <- QuestionType_of s; Ok (Some q)
  | ArgEnum q => Ok (Some q)
  | ArgNone => Ok (question_type reading)
  end.

(** [question_type and question_type != QuestionType.GENERAL]. *)
Definition question_active (question_type : option QuestionType) : bool :=
  match question_type with
  | Some q => negb (QuestionType_eqb q GENERAL)
  | None => false
  end.

(** [a or b] on strings. *)
Definition str_or (a b : string) : string :=
  if String.eqb a "" then b else a.

(** "Get question context if applicable": the pair [question_context],
    [question_keywords], preset to [None] and [[]]. *)
Definition question_fields (card : TarotCard)
    (question_type : option QuestionType) (is_reversed : bool)
    : result (json * json) :=
  if question_active question_type then
    match question_type with
    | Some q =>
        do qc_data <- get_question_context card (QuestionType_value q)
                        is_reversed;
        Ok (interp_interpretation qc_data, interp_keywords qc_data)
    | None => Ok (JNull, JList [])
    end
  else Ok (JNull, JList []).

(** The body of the loop over [reading.drawn_cards] in [assemble]; the
    loop state is the pair [card_interpretations], [raw_cards_data]. *)
Definition assemble_card (self : DeterministicAssembler)
    (spread : SpreadDefinition) (question_type : option QuestionType)
    (drawn_card : DrawnCard)
    (acc : list CardInterpretation * list RawCardData)
    : result (list CardInterpretation * list RawCardData) :=
  do card <- get_card (_deck self) (card_id drawn_card);
  do position <- index (positions spread) (position_index drawn_card);
  let is_reversed := Orientation_eqb (orientation drawn_card) REVERSED in
  do interp_data <- get_interpretation card (rag_mapping position) is_reversed;
  do qc <- question_fields card question_type is_reversed;
  let question_context := fst qc in
  let question_keywords := snd qc in
  do core_meaning <- get_core_meaning card is_reversed;
  let position_description :=
    str_or (detailed_description position) (short_description position) in
  do core_essence <- get core_meaning "essence" (JStr "");
  do core_keywords <- get core_meaning "keywords" (JList []);
  do ci <- CardInterpretation_new
             (card_id drawn_card) (card_name drawn_card)
             (position_index drawn_card) (sp_name position)
             position_description (orientation drawn_card)
             (interp_interpretation interp_data) (interp_keywords interp_data)
             question_context question_keywords
             core_essence core_keywords (image_path drawn_card);
  let raw :=
    {| raw_card_id := card_id drawn_card;
       raw_card_name := card_name drawn_card;
       raw_position_index := position_index drawn_card;
       raw_position_name := sp_name position;
       raw_position_description := position_description;
       raw_orientation := Orientation_value (orientation drawn_card);
       raw_position_interpretation := interp_interpretation interp_data;
       raw_position_keywords := interp_keywords interp_data;
       raw_question_context := question_context;
       raw_question_keywords := question_keywords;
       raw_core_essence := core_essence;
       raw_core_keywords := core_keywords;
       raw_image_path := image_path drawn_card;
       raw_card_data := _data card |} in
  Ok (fst acc ++ [ci], snd acc ++ [raw]).

(** [{dc.card_id for dc in reading.drawn_cards}]. *)
Definition drawn_ids_of (reading : Reading) : gset string :=
  list_to_set (card_id <$> drawn_cards reading).

(** [interpretation and not interpretation.startswith("[TO BE WRITTEN")]. *)
Definition authored (interpretation : json) : result bool :=
  if truthy interpretation then
    do placeholder <- startswith interpretation "[TO BE WRITTEN";
    Ok (negb placeholder)
  else Ok false.

(** Body of [for other_card_id, rel_data in related_cards.items()]. *)
Definition scan_target (self : DeterministicAssembler) (drawn_ids : gset string)
    (drawn_card : DrawnCard) (rel_type : RelationshipType)
    (item : string * json) (relationships : list CardRelationshipMatch)
    : result (list CardRelationshipMatch) :=
  let other_card_id := fst item in
  let rel_data := snd item in
  if bool_decide (other_card_id ∈ drawn_ids)
     && negb (String.eqb other_card_id (card_id drawn_card)) then
    do other_card <- get_card (_deck self) other_card_id;
    if String.ltb (card_id drawn_card) other_card_id then
      do interpretation <- get rel_data "interpretation" (JStr "");
      do keep <- authored interpretation;
      if keep then
        do other_name <- TarotCard_card_name other_card;
        do kws <- get rel_data "keywords" (JList []);
        do m <- CardRelationshipMatch_new
                  (card_id drawn_card) (card_name drawn_card)
                  other_card_id other_name rel_type interpretation kws;
        Ok (relationships ++ [m])
      else Ok relationships
    else Ok relationships
  else Ok relationships.

(** Body of [for rel_type_str, related_cards in card_relationships.items()];
    the [ValueError] of an unknown type is caught and the entry skipped. *)
Definition scan_type (self : DeterministicAssembler) (drawn_ids : gset string)
    (drawn_card : DrawnCard) (entry : string * json)
    (relationships : list CardRelationshipMatch)
    : result (list CardRelationshipMatch) :=
  let rel_type_str := fst entry in
  let related_cards := snd entry in
  match RelationshipType_of rel_type_str with
  | Raise _ => Ok relationships
  | Ok rel_type =>
      do targets <- items related_cards;
      for_each targets (scan_target self drawn_ids drawn_card rel_type)
        relationships
  end.

(** Body of [for drawn_card in reading.drawn_cards]. *)
Definition scan_card (self : DeterministicAssembler) (drawn_ids : gset string)
    (drawn_card : DrawnCard) (relationships : list CardRelationshipMatch)
    : result (list CardRelationshipMatch) :=
  do card <- get_card (_deck self) (card_id drawn_card);
  let card_relationships := get_relationships card in
  do entries <- items card_relationships;
  for_each entries (scan_type self drawn_ids drawn_card) relationships.

Definition _find_relationships (self : DeterministicAssembler) (reading : Reading)
    : result (list CardRelationshipMatch) :=
  let drawn_ids := drawn_ids_of reading in
  for_each (drawn_cards reading) (scan_card self drawn_ids) [].

Definition assemble (self : DeterministicAssembler) (reading : Reading)
    (question_type : question_type_arg) (include_relationships : bool)
    : result AssembledContext :=
  do spread <- load_spread (_spread_registry self) (spread_id reading);
  do question_type <- normalize_question_type reading question_type;
  do acc <- for_each (drawn_cards reading)
              (assemble_card self spread question_type) ([], []);
  do relationships <-
    (if include_relationships then _find_relationships self reading
     else Ok []);
  Ok {| reading_id := id reading;
        ac_spread_name := spread_name reading;
        ac_question := question reading;
        ac_question_type := question_type;
        card_interpretations := fst acc;
        relationships := relationships;
        raw_cards_data := snd acc |}.

End Assembly.

Export Assembly.

(** ** [arcanite.core.spread]: the other accessors of the registry *)

Module Registry.

(** [sorted(keys)] on strings: the keys in ascending order. *)
Definition sorted (keys : list string) : list string :=
  merge_sort String.le keys.

(** [SpreadRegistry.get], the protocol alias of [load_spread]. *)
Definition SpreadRegistry_get (self : SpreadRegistry) (spread_id : string)
    : result SpreadDefinition :=
  load_spread self spread_id.

(** [SpreadRegistry.list_spreads]. *)
Definition list_spreads (self : SpreadRegistry) : list string :=
  sorted (fst <$> map_to_list (_spreads self)).

(** [SpreadRegistry.__len__]. *)
Definition SpreadRegistry_len (self : SpreadRegistry) : nat :=
  size (_spreads self).

End Registry.

Export Registry.

(** ** [TarotDeck] as a whole and [arcanite.reading.engine] *)

Module Engine.

(** What the standard library hands to one call: the list that
    [rng.shuffle] leaves, whether the i-th [rng.random()] is below 0.5,
    the text of [directory / filename], and that of
    [datetime.now().strftime(...)]. *)
Record Library : Type := {
  shuffle : list TarotCard -> list TarotCard;
  below_half : nat -> bool;
  joinpath : string -> string -> string;
  now : string
}.

(** Property [TarotCard.card_id]: [self._data["card_id"]]. *)
Definition TarotCard_card_id (self : TarotCard) : result json :=
  match lookup_key "card_id" (_data self) with
  | Some v => Ok v
  | None => Raise KeyError
  end.

(** The attributes of a [TarotDeck]; [_index] is its [_card_by_id]. *)
Record DeckObject : Type := {
  _cards : list TarotCard;
  _image_path : string;
  _image_format : string;
  _index : TarotDeck
}.

(** How [TarotDeck.__init__] ends: with the deck, with the [KeyError] of
    a card without ["card_id"], or with the [TypeError] of an id that
    cannot be a dict key. *)
Inductive init_result (A : Type) : Type :=
| Init (a : A)
| InitKeyError
| InitTypeError.
Arguments Init {A} a.
Arguments InitKeyError {A}.
Arguments InitTypeError {A}.

(** Lists and dicts are not hashable. *)
Definition hashable (v : json) : bool :=
  match v with
  | JList _ | JDict _ => false
  | _ => true
  end.

(** [{card.card_id: card for card in cards}], entry by entry.  A key
    that is not a string is never equal to a looked-up card id and is
    not kept. *)
Fixpoint index_cards (cards : list TarotCard) (by_id : gmap string TarotCard)
    : init_result (gmap string TarotCard) :=
  match cards with
  | [] => Init by_id
  | card :: cards' =>
      match lookup_key "card_id" (_data card) with
      | None => InitKeyError
      | Some key =>
          if hashable key then
            index_cards cards'
              (match key with
               | JStr card_id => <[card_id := card]> by_id
               | _ => by_id
               end)
          else InitTypeError
      end
  end.

(** [TarotDeck.__init__]. *)
Definition TarotDeck_new (cards : list TarotCard) (image_path : string)
    (image_format : string) : init_result DeckObject :=
  match index_cards cards ∅ with
  | Init by_id =>
      Init {| _cards := cards; _image_path := image_path;
              _image_format := image_format;
              _index := {| _card_by_id := by_id |} |}
  | InitKeyError => InitKeyError
  | InitTypeError => InitTypeError
  end.

(** [TarotDeck.get_image_path], as [str(path)]. *)
Definition get_image_path (self : DeckObject) (lib : Library) (card : TarotCard)
    : string :=
  joinpath lib (_image_path self) (_image_filename card).

(** [TarotDeck.__len__]. *)
Definition TarotDeck_len (self : DeckObject) : nat := length (_cards self).

(** [l[:n]], with a negative [n] counted from the end. *)
Definition slice_to {A : Type} (l : list A) (n : Z) : list A :=
  if n <? 0 then take (length l - Z.to_nat (- n)) l
  else take (Z.to_nat n) l.

(** [enumerate(l)]. *)
Definition enumerate {A : Type} (l : list A) : list (nat * A) :=
  imap pair l.

(** [DrawnCard(...)] as [draw] calls it: the id and the name come from
    the card data and are validated as strings. *)
Definition DrawnCard_new (card_id card_name : json) (position_index : Z)
    (position_name : string) (orientation : Orientation) (image_path : string)
    : result DrawnCard :=
  do cid <- validate_str card_id;
  do cname <- validate_str card_name;
  Ok {| card_id := cid; card_name := cname;
        position_index := position_index; position_name := position_name;
        orientation := orientation; image_path := Some image_path |}.

(** Body of [for i, card in enumerate(shuffled[:count])]. *)
Definition draw_card (self : DeckObject) (lib : Library) (allow_reversals : bool)
    (item : nat * TarotCard) (drawn : list DrawnCard)
    : result (list DrawnCard) :=
  let i := fst item in
  let card := snd item in
  let orientation :=
    if allow_reversals then
      if below_half lib i then REVERSED else UPRIGHT
    else UPRIGHT in
  do cid <- TarotCard_card_id card;
  do cname <- TarotCard_card_name card;
  do dc <- DrawnCard_new cid cname (Z.of_nat i) "" orientation
             (get_image_path self lib card);
  Ok (drawn ++ [dc]).

(** [TarotDeck.draw]. *)
Definition draw (self : DeckObject) (lib : Library) (count : Z)
    (allow_reversals : bool) : result (list DrawnCard) :=
  if Z.of_nat (length (_cards self)) <? count then Raise ValueError
  else
    let shuffled := shuffle lib (_cards self) in
    for_each (enumerate (slice_to shuffled count))
      (draw_card self lib allow_reversals) [].

Record ReadingEngine : Type := {
  engine_deck : DeckObject;
  engine_spread_registry : SpreadRegistry
}.

(** "Normalize question_type" in [create_reading]: [None] stays. *)
Definition engine_question_type (arg : question_type_arg)
    : result (option QuestionType) :=
  match arg with
  | ArgStr s => do q <- QuestionType_of s; Ok (Some q)
  | ArgEnum q => Ok (Some q)
  | ArgNone => Ok None
  end.

(** "Assign position names from spread": the loop over
    [enumerate(zip(drawn_cards, spread.positions))] that sets
    [position_index] and [position_name] on each drawn card. *)
Fixpoint assign_positions (i : nat) (drawn_cards : list DrawnCard)
    (positions : list SpreadPosition) : list DrawnCard :=
  match drawn_cards, positions with
  | card :: drawn_cards', position :: positions' =>
      {| card_id := card_id card; card_name := card_name card;
         position_index := Z.of_nat i; position_name := sp_name position;
         orientation := orientation card; image_path := image_path card |}
      :: assign_positions (S i) drawn_cards' positions'
  | _, _ => drawn_cards
  end.

(** [ReadingEngine.create_reading]. *)
Definition create_reading (self : ReadingEngine) (lib : Library)
    (spread_id : string) (question : option string)
    (question_type : question_type_arg) (allow_reversals : bool)
    (seed : option Z) : result Reading :=
  do spread <- load_spread (engine_spread_registry self) spread_id;
  do question_type <- engine_question_type question_type;
  let num_positions := length (positions spread) in
  do drawn_cards <- draw (engine_deck self) lib (Z.of_nat num_positions)
                      allow_reversals;
  let drawn_cards := assign_positions 0 drawn_cards (positions spread) in
  Ok {| id := now lib; spread_id := spread_id; spread_name := sd_name spread;
        question := question; question_type := question_type;
        drawn_cards := drawn_cards; allow_reversals := allow_reversals;
        seed := seed |}.

End Engine.

Export Engine.

(** ** [arcanite.core.spread]: the module-level registry *)

Module RegistryCache.

Section Cache.

(** [SpreadRegistry.from_config] reads a file: its outcome for a
    [config_path] and a [system] is given, an exception of type [E] or a
    registry. *)
Variable E : Type.
Variable from_config : option string -> string -> E + SpreadRegistry.

(** [get_spread_registry], from the value of the global
    [_default_registry] before the call to the returned registry (or
    the exception) and the value of the global after the call. *)
Definition get_spread_registry (_default_registry : option SpreadRegistry)
    (config_path : option string) (reload : bool) (system : string)
    : (E + SpreadRegistry) * option SpreadRegistry :=
  let load :=
    match from_config config_path system with
    | inl e => (inl e, _default_registry)
    | inr registry => (inr registry, Some registry)
    end in
  match _default_registry with
  | None => load
  | Some registry => if reload then load else (inr registry, Some registry)
  end.

(** The module-level [load_spread]: through the default registry. *)
Definition default_load_spread (_default_registry : option SpreadRegistry)
    (spread_id : string)
    : (E + result SpreadDefinition) * option SpreadRegistry :=
  match get_spread_registry _default_registry None false "tarot" with
  | (inl e, global) => (inl e, global)
  | (inr registry, global) => (inr (load_spread registry spread_id), global)
  end.

End Cache.

End RegistryCache.

Export RegistryCache.

(** ** [arcanite.render.typst_renderer]: escaping *)

Module Render.

Definition backslash : Ascii.ascii := "092"%char.
Definition dquote : Ascii.ascii := "034"%char.
Definition newline : Ascii.ascii := "010"%char.
Definition carriage_return : Ascii.ascii := "013"%char.

(** [text.replace(old, new)] for a one-character [old]. *)
Fixpoint replace (text : string) (old : Ascii.ascii) (new : string) : string :=
  match text with
  | EmptyString => EmptyString
  | String c rest =>
      if Ascii.eqb c old then String.append new (replace rest old new)
      else String c (replace rest old new)
  end.

(** [TypstRenderer._escape]; [if not text] is the test for the empty
    string. *)
Definition _escape (text : string) : string :=
  if String.eqb text "" then ""
  else
    replace
      (replace
         (replace
            (replace text backslash (String backslash (String backslash "")))
            dquote (String backslash (String dquote "")))
         newline (String backslash "n"))
      carriage_return "".

(** [TypstRenderer._typst_string]. *)
Definition _typst_string (value : option string) : string :=
  match value with
  | None => "none"
  | Some v =>
      if String.eqb v "" then "none"
      else String dquote (String.append (_escape v) (String dquote ""))
  end.

End Render.

Export Render.

(** ** [AssembledContext.to_markdown] *)

Module Markdown.

(** [sep.join(parts)]. *)
Fixpoint join (sep : string) (parts : list string) : string :=
  match parts with
  | [] => ""
  | [part] => part
  | part :: parts' => String.append part (String.append sep (join sep parts'))
  end.

Definition is_lower (c : Ascii.ascii) : bool :=
  Ascii.leb "a" c && Ascii.leb c "z".

Definition is_upper (c : Ascii.ascii) : bool :=
  Ascii.leb "A" c && Ascii.leb c "Z".

Definition to_upper (c : Ascii.ascii) : Ascii.ascii :=
  if is_lower c then Ascii.ascii_of_N (Ascii.N_of_ascii c - 32) else c.

Definition to_lower (c : Ascii.ascii) : Ascii.ascii :=
  if is_upper c then Ascii.ascii_of_N (Ascii.N_of_ascii c + 32) else c.

(** [s.title()] on ASCII text, as the values of [QuestionType] are: a
    letter is upper-cased after a character without case and
    lower-cased after a letter. *)
Fixpoint title_from (previous_is_cased : bool) (s : string) : string :=
  match s with
  | EmptyString => EmptyString
  | String c rest =>
      if is_lower c || is_upper c then
        String (if previous_is_cased then to_lower c else to_upper c)
               (title_from true rest)
      else String c (title_from false rest)
  end.

Definition title (s : string) : string := title_from false s.

(** [str(n)] for an [int]. *)
Definition str_of_int (n : Z) : string := pretty n.

(** [bool(s)] for a string, and for [str | None]. *)
Definition nonempty (s : string) : bool := negb (String.eqb s "").

Definition given (o : option string) : bool :=
  match o with
  | Some s => nonempty s
  | None => false
  end.

(** The body of [for card in self.card_interpretations];
    [self.question_type.value] fails on [None]. *)
Definition card_section (self : AssembledContext) (card : CardInterpretation)
    (lines : list string) : result (list string) :=
  let lines :=
    lines ++
    [String.append "### Position "
       (String.append (str_of_int (ci_position_index card + 1))
          (String.append ": " (ci_position_name card)));
     String.append "**"
       (String.append (ci_card_name card)
          (String.append "** ("
             (String.append (Orientation_value (ci_orientation card)) ")")));
     "";
     String.append "*Position meaning:* " (ci_position_description card);
     "";
     String.append "**Interpretation:** " (position_interpretation card);
     ""] in
  let lines :=
    match position_keywords card with
    | [] => lines
    | _ => lines ++
           [String.append "*Keywords:* " (join ", " (position_keywords card));
            ""]
    end in
  do lines <-
    (if given (question_context card) then
       match ac_question_type self with
       | None => Raise AttributeError
       | Some q =>
           Ok (lines ++
               [String.append "**"
                  (String.append (title (QuestionType_value q))
                     (String.append " Context:** "
                        (default "" (question_context card))));
                ""])
       end
     else Ok lines);
  Ok (lines ++ ["---"; ""]).

(** One line of the relationships section. *)
Definition relationship_line (rel : CardRelationshipMatch) : string :=
  String.append "- **"
    (String.append (card1_name rel)
       (String.append "** "
          (String.append
             (replace (RelationshipType_value (relationship_type rel))
                "_" " ")
             (String.append " **"
                (String.append (card2_name rel)
                   (String.append "**: " (interpretation rel))))))).

(** The list [lines] at the end of [to_markdown]. *)
Definition markdown_lines (self : AssembledContext) : result (list string) :=
  let lines := [String.append "# Tarot Reading: " (ac_spread_name self); ""] in
  let lines :=
    if given (ac_question self) then
      lines ++ [String.append "**Question:** " (default "" (ac_question self));
                ""]
    else lines in
  let lines :=
    match ac_question_type self with
    | Some q =>
        lines ++ [String.append "**Question Type:** " (QuestionType_value q);
                  ""]
    | None => lines
    end in
  let lines := lines ++ ["## Cards Drawn"; ""] in
  do lines <- for_each (card_interpretations self) (card_section self) lines;
  let lines :=
    match relationships self with
    | [] => lines
    | rels =>
        (lines ++ ["## Card Relationships"; ""])
        ++ (relationship_line <$> rels) ++ [""]
    end in
  Ok lines.

Definition to_markdown (self : AssembledContext) : result string :=
  do lines <- markdown_lines self;
  Ok (join (String newline "") lines).

End Markdown.

Export Markdown.

(** ** Sample data: a three-card spread over a three-card deck *)

Module Sample.

Definition strs (l : list string) : json := JList (JStr <$> l).

Definition meaning (essence : string) (kws : list string) : json :=
  JDict [("essence", JStr essence); ("keywords", strs kws)].

Definition branch (up rev : string) (kws : list string) : json :=
  JDict [("upright", JStr up); ("reversed", JStr rev); ("keywords", strs kws)].

Definition rel (text : string) (kws : list string) : json :=
  JDict [("interpretation", JStr text); ("keywords", strs kws)].

(** "the_fool": [present] lacks both orientation entries, [future] is not
    a mapping, one relationship is a placeholder and one has a type
    outside [RelationshipType]. *)
Definition the_fool : TarotCard :=
  {| _data :=
       [("card_id", JStr "the_fool");
        ("card_name", JStr "The Fool");
        ("core_meanings",
          JDict [("upright", meaning "New beginnings" ["leap"; "trust"]);
                 ("reversed", meaning "Recklessness" ["folly"])]);
        ("position_interpretations",
          JDict [("temporal_positions",
            JDict [("past", branch "A leap once taken" "A leap once refused"
                              ["origin"]);
                   ("present", JDict [("keywords", strs ["now"])]);
                   ("future", JStr "soon")])]);
        ("question_contexts",
          JDict [("love", branch "Open heart" "Careless heart" ["romance"]);
                 ("general", branch "Go" "Wait" ["any"])]);
        ("card_relationships",
          JDict [("amplifies",
                   JDict [("the_magician", rel "Will meets wonder" ["spark"])]);
                 ("challenges",
                   JDict [("the_tower", rel "[TO BE WRITTEN: fool/tower]" [])]);
                 ("mirrors",
                   JDict [("the_magician", rel "Unknown type" [])])])];
     _image_filename := "m00.jpg" |}.

(** "the_magician" has no [position_interpretations] at all. *)
Definition the_magician : TarotCard :=
  {| _data :=
       [("card_id", JStr "the_magician");
        ("card_name", JStr "The Magician");
        ("core_meanings",
          JDict [("upright", meaning "Manifestation" ["skill"]);
                 ("reversed", meaning "Manipulation" ["trick"])]);
        ("card_relationships",
          JDict [("challenges",
                   JDict [("the_fool", rel "Craft tests innocence" ["test"])]);
                 ("clarifies",
                   JDict [("the_tower", rel "Focus after the fall" ["aim"])])])];
     _image_filename := "m01.jpg" |}.

Definition the_tower : TarotCard :=
  {| _data :=
       [("card_id", JStr "the_tower");
        ("card_name", JStr "The Tower");
        ("core_meanings",
          JDict [("upright", meaning "Upheaval" ["shock"]);
                 ("reversed", meaning "Averted disaster" ["delay"])]);
        ("position_interpretations",
          JDict [("temporal_positions",
            JDict [("future", branch "Walls will fall" "Walls will hold"
                                ["change"])])])];
     _image_filename := "m16.jpg" |}.

Definition deck : TarotDeck :=
  {| _card_by_id :=
       <["the_fool" := the_fool]>
         (<["the_magician" := the_magician]>
            (<["the_tower" := the_tower]> ∅)) |}.

Definition pos (name rag : string) : SpreadPosition :=
  {| sp_name := name; short_description := "short " +:+ name;
     detailed_description := ""; sp_keywords := [];
     rag_mapping := rag; question_adaptations := [] |}.

Definition three_card : SpreadDefinition :=
  {| sd_id := "three_card"; sd_name := "Past, Present, Future";
     sd_description := ""; layout_id := "line"; category := "general";
     difficulty := "beginner";
     positions := [pos "Past" "temporal_positions.past";
                   pos "Present" "temporal_positions.present";
                   pos "Future" "temporal_positions.future"] |}.

Definition registry : SpreadRegistry :=
  {| _spreads := <["three_card" := three_card]> ∅ |}.

Definition assembler : DeterministicAssembler :=
  {| _deck := deck; _spread_registry := registry |}.

Definition draw (cid name : string) (i : Z) (o : Orientation) : DrawnCard :=
  {| card_id := cid; card_name := name; position_index := i;
     position_name := ""; orientation := o; image_path := None |}.

Definition reading_of (sid : string) (q : option QuestionType)
    (cards : list DrawnCard) : Reading :=
  {| id := "20240101_000000"; spread_id := sid;
     spread_name := "Past, Present, Future"; question := None;
     question_type := q; drawn_cards := cards;
     allow_reversals := true; seed := Some 7 |}.

Definition reading : Reading :=
  reading_of "three_card" None
    [draw "the_fool" "The Fool" 0 UPRIGHT;
     draw "the_magician" "The Magician" 1 REVERSED;
     draw "the_tower" "The Tower" 2 UPRIGHT].

(** A larger deck and registry, the same on what [reading] uses. *)
Definition the_star : TarotCard :=
  {| _data :=
       [("card_id", JStr "the_star"); ("card_name", JStr "The Star");
        ("card_relationships",
          JDict [("amplifies",
                   JDict [("the_fool", rel "Hope feeds the leap" [])])])];
     _image_filename := "m17.jpg" |}.

Definition assembler_with_star : DeterministicAssembler :=
  {| _deck := {| _card_by_id := <["the_star" := the_star]> (_card_by_id deck) |};
     _spread_registry :=
       {| _spreads :=
            <["single" := {| sd_id := "single"; sd_name := "One Card";
                             sd_description := ""; layout_id := "dot";
                             category := "general"; difficulty := "beginner";
                             positions := [pos "Focus" "temporal_positions.present"] |}]>
              (_spreads registry) |} |}.

(** The two matches of [reading]. *)
Definition fool_magician : CardRelationshipMatch :=
  {| card1_id := "the_fool"; card1_name := "The Fool";
     card2_id := "the_magician"; card2_name := "The Magician";
     relationship_type := AMPLIFIES;
     interpretation := "Will meets wonder"; keywords := ["spark"] |}.

Definition magician_tower : CardRelationshipMatch :=
  {| card1_id := "the_magician"; card1_name := "The Magician";
     card2_id := "the_tower"; card2_name := "The Tower";
     relationship_type := CLARIFIES;
     interpretation := "Focus after the fall"; keywords := ["aim"] |}.

(** A reading against a spread that the registry does not hold, and
    one whose first card is unknown to the deck and out of the spread. *)
Definition reading_unknown_spread : Reading :=
  reading_of "celtic_cross" None [draw "the_fool" "The Fool" 0 UPRIGHT].

Definition reading_unknown_card : Reading :=
  reading_of "three_card" None
    [draw "the_moon" "The Moon" 7 UPRIGHT;
     draw "the_fool" "The Fool" 1 UPRIGHT].



(** The same card drawn in two positions. *)
Definition reading_twice : Reading :=
  reading_of "three_card" None
    [draw "the_fool" "The Fool" 0 UPRIGHT;
     draw "the_fool" "The Fool" 1 REVERSED;
     draw "the_magician" "The Magician" 2 UPRIGHT].

(** A context built by hand: a question context without a question
    type. *)
Definition context_without_type : AssembledContext :=
  {| reading_id := "r1"; ac_spread_name := "One Card"; ac_question := None;
     ac_question_type := None;
     card_interpretations :=
       [{| ci_card_id := "the_fool"; ci_card_name := "The Fool";
           ci_position_index := 0; ci_position_name := "Focus";
           ci_position_description := ""; ci_orientation := UPRIGHT;
           position_interpretation := "A leap"; position_keywords := [];
           question_context := Some "Open heart"; question_keywords := [];
           core_essence := ""; core_keywords := [];
           ci_image_path := None |}];
     relationships := []; raw_cards_data := [] |}.

(** The deck object of the three cards, an engine over it, and the
    outcomes of the library calls of one run: the shuffle reverses the
    deck and every second card is reversed. *)
Definition cards : list TarotCard := [the_fool; the_magician; the_tower].

Definition library : Library :=
  {| shuffle := reverse;
     below_half := Nat.even;
     joinpath := fun directory file =>
                   String.append directory (String.append "/" file);
     now := "20240101_000000" |}.

Definition deck_object : DeckObject :=
  {| _cards := cards; _image_path := "images"; _image_format := "jpg";
     _index := deck |}.

Definition engine : ReadingEngine :=
  {| engine_deck := deck_object; engine_spread_registry := registry |}.

(** [reading] with other orientations, positions, spread and question. *)
Definition reading_shuffled_positions : Reading :=
  {| id := "20240202_120000"; spread_id := "single";
     spread_name := "One Card"; question := Some "What now?";
     question_type := Some LOVE;
     drawn_cards := [draw "the_fool" "The Fool" 2 REVERSED;
                     draw "the_magician" "The Magician" 0 UPRIGHT;
                     draw "the_tower" "The Tower" 5 REVERSED];
     allow_reversals := false; seed := None |}.

(** "the_sun": the name and the upright essence are numbers, not texts. *)
Definition the_sun : TarotCard :=
  {| _data :=
       [("card_id", JStr "the_sun"); ("card_name", JNum 19);
        ("core_meanings",
          JDict [("upright", JDict [("essence", JNum 19)])])];
     _image_filename := "m19.jpg" |}.

Definition assembler_with_sun : DeterministicAssembler :=
  {| _deck := {| _card_by_id := <["the_sun" := the_sun]> (_card_by_id deck) |};
     _spread_registry := registry |}.


Definition deck_object_with_sun : DeckObject :=
  {| _cards := [the_sun; the_fool]; _image_path := "images";
     _image_format := "jpg"; _index := _deck assembler_with_sun |}.

End Sample.


(** ** Notions used to state the properties *)

(** What a loop that only appends to its list state adds, iteration by
    iteration. *)
Fixpoint collect {A B : Type} (f : A -> result (list B)) (xs : list A)
    : result (list B) :=
  match xs with
  | [] => Ok []
  | x :: xs' =>
      do r <- f x;
      do rs <- collect f xs';
      Ok (r ++ rs)
  end.

(** The dotted path [parts] resolves from [node] to [terminal]: every
    node on the way is a mapping that contains the next segment. *)
Inductive path_resolves : json -> list string -> json -> Prop :=
| resolves_end (node : json) : path_resolves node [] node
| resolves_step (d : list (string * json)) (part : string) (child : json)
    (parts : list string) (terminal : json) :
    lookup_key part d = Some child ->
    path_resolves child parts terminal ->
    path_resolves (JDict d) (part :: parts) terminal.

(** The position-interpretation tree of a card and the segments of a
    RAG mapping. *)
Definition position_tree (card : TarotCard) : json :=
  dict_get (_data card) "position_interpretations" (JDict []).

Definition segments (rag_mapping : string) : list string :=
  split "."%char rag_mapping.

(** The core-meaning tree of a card. *)
Definition core_tree (card : TarotCard) : json :=
  dict_get (_data card) "core_meanings" (JDict []).

(** A Python dict has one entry per key. *)
Definition unique_keys {V : Type} (d : list (string * V)) : Prop :=
  NoDup (fst <$> d).

(** The relationship tree of a card is made of dicts. *)
Definition relationships_wf (card : TarotCard) : Prop :=
  match get_relationships card with
  | JDict entries =>
      unique_keys entries /\
      Forall (fun e => match snd e with
                       | JDict targets => unique_keys targets
                       | _ => True
                       end) entries
  | _ => True
  end.


(** An interpretation text that is written: a non-empty string that is
    not a placeholder. *)
Definition written (text : string) : bool :=
  negb (String.eqb text "") && negb (String.prefix "[TO BE WRITTEN" text).

(** The identity of a match: its two cards and its type. *)
Definition match_key (m : CardRelationshipMatch)
    : string * string * RelationshipType :=
  (card1_id m, card2_id m, relationship_type m).

(** Two matches relate the same unordered pair of cards. *)
Definition same_pair (m1 m2 : CardRelationshipMatch) : Prop :=
  (card1_id m1 = card1_id m2 /\ card2_id m1 = card2_id m2) \/
  (card1_id m1 = card2_id m2 /\ card2_id m1 = card1_id m2).

(** Each unordered pair occurs at most once per relationship type. *)
Definition pairs_unique (out : list CardRelationshipMatch) : Prop :=
  forall (i j : nat) (m1 m2 : CardRelationshipMatch),
    out !! i = Some m1 -> out !! j = Some m2 ->
    relationship_type m1 = relationship_type m2 ->
    same_pair m1 m2 -> i = j.

(** The match that [drawn_card] yields for a written entry of type [t]
    targeting [other]. *)
Definition match_of (drawn_card : DrawnCard) (t : RelationshipType)
    (other other_name text : string) (kws : list string)
    : CardRelationshipMatch :=
  {| card1_id := card_id drawn_card; card1_name := card_name drawn_card;
     card2_id := other; card2_name := other_name;
     relationship_type := t; interpretation := text; keywords := kws |}.

(** [a < b] on Python strings. *)
Definition str_lt (a b : string) : Prop := String.ltb a b = true.




(** The question-context tree of a card. *)
Definition question_tree (card : TarotCard) : json :=
  dict_get (_data card) "question_contexts" (JDict []).

(** The tree has no bucket for the category. *)
Definition category_absent (card : TarotCard) (category : string) : Prop :=
  exists contexts,
    question_tree card = JDict contexts /\ lookup_key category contexts = None.

(** [drawn_card.orientation == Orientation.REVERSED]. *)
Definition reversed_of (dc : DrawnCard) : bool :=
  Orientation_eqb (orientation dc) REVERSED.

(** The fields that a [CardInterpretation] takes from its drawn card. *)
Definition built_from (dc : DrawnCard) (ci : CardInterpretation) : Prop :=
  ci_card_id ci = card_id dc /\
  ci_card_name ci = card_name dc /\
  ci_position_index ci = position_index dc /\
  ci_orientation ci = orientation dc.

(** What one iteration of the loop of [assemble] adds for [dc]. *)
Definition entry_of (self : DeterministicAssembler) (spread : SpreadDefinition)
    (question_type : option QuestionType) (dc : DrawnCard)
    (p : CardInterpretation * RawCardData) : Prop :=
  assemble_card self spread question_type dc ([], []) = Ok ([fst p], [snd p]).

(** [i] is a valid index, possibly negative, of a list of length [n]. *)
Definition index_in_range (i : Z) (n : nat) : Prop :=
  - Z.of_nat n <= i < Z.of_nat n.

(** ** The card schema

    What [models.py] declares for the trees of a card ([CoreMeaning],
    [PositionInterpretation], [QuestionContext], [CardRelationship]),
    as far as the assembly reads them; an entry may be absent. *)

(** A text, and a list of texts. *)
Definition is_str (x : json) : Prop := exists s, x = JStr s.

Definition is_str_list (x : json) : Prop := exists ss, x = JList (JStr <$> ss).

(** The entry of mapping [d] under [k], when there is one, satisfies [P]. *)
Definition entry_is (P : json -> Prop) (d : list (string * json))
    (k : string) : Prop :=
  forall v, lookup_key k d = Some v -> P v.

(** [PositionInterpretation] and [QuestionContext]: a text per
    orientation and a list of keywords. *)
Definition oriented (d : list (string * json)) : Prop :=
  entry_is is_str d "upright" /\
  entry_is is_str d "reversed" /\
  entry_is is_str_list d "keywords".

(** [CoreMeaning]: a mapping with a text under "essence" and a list of
    keywords. *)
Definition core_meaning_shape (x : json) : Prop :=
  exists d, x = JDict d /\
    entry_is is_str d "essence" /\ entry_is is_str_list d "keywords".

(** [CardRelationship]: a mapping with a text under "interpretation"
    and a list of keywords. *)
Definition relationship_shape (x : json) : Prop :=
  exists d, x = JDict d /\
    entry_is is_str d "interpretation" /\ entry_is is_str_list d "keywords".

(** The data of a card follows the schema: the name is a text; the
    core-meaning tree is a mapping of core meanings per orientation;
    every mapping that a dotted path reaches in the position tree is a
    position interpretation; the question tree is a mapping of question
    contexts; the relationship tree maps each known relationship type
    to a mapping of relationships. *)
Definition follows_schema (card : TarotCard) : Prop :=
  entry_is is_str (_data card) "card_name" /\
  (exists core,
     core_tree card = JDict core /\
     entry_is core_meaning_shape core "upright" /\
     entry_is core_meaning_shape core "reversed") /\
  (forall parts current,
     path_resolves (position_tree card) parts (JDict current) ->
     oriented current) /\
  (exists contexts,
     question_tree card = JDict contexts /\
     forall category,
       entry_is (fun v => exists d, v = JDict d /\ oriented d)
         contexts category) /\
  (exists entries,
     get_relationships card = JDict entries /\
     forall k v t,
       (k, v) ∈ entries ->
       RelationshipType_of k = Ok t ->
       exists targets,
         v = JDict targets /\
         forall other rel_data,
           (other, rel_data) ∈ targets -> relationship_shape rel_data).

(** [isinstance(e, cls)] on the five exception classes: pydantic's
    [ValidationError] derives from [ValueError]. *)
Definition is_instance (e cls : exn) : bool :=
  match e, cls with
  | KeyError, KeyError
  | IndexError, IndexError
  | ValueError, ValueError
  | AttributeError, AttributeError
  | ValidationError, ValidationError
  | ValidationError, ValueError => true
  | _, _ => false
  end.

(** Some drawn card that the deck knows has data outside the schema. *)
Definition off_schema (self : DeterministicAssembler) (reading : Reading)
    : Prop :=
  exists dc card,
    dc ∈ drawn_cards reading /\
    _card_by_id (_deck self) !! card_id dc = Some card /\
    ~ follows_schema card.

(** The exceptions raised on card data that is not of the expected
    shape. *)
Definition shape_error (e : exn) : Prop :=
  e = AttributeError \/ e = ValidationError.

(** Every exception that [m] can raise satisfies [P]. *)
Definition raises_in {A : Type} (P : exn -> Prop) (m : result A) : Prop :=
  forall e, m = Raise e -> P e.

(** The exceptions of the relationship scan: a drawn id without a card
    or whose card has no name, or a shape error. *)
Definition scan_failure (self : DeterministicAssembler)
    (drawn_ids : gset string) (e : exn) : Prop :=
  (e = KeyError /\
   exists other, other ∈ drawn_ids /\
     match _card_by_id (_deck self) !! other with
     | None => True
     | Some card => lookup_key "card_name" (_data card) = None
     end) \/
  shape_error e.

(** Why an assembly can fail with [e]: a spread or card that is not
    found, a position index outside the spread, a category string
    outside [QuestionType]; [AttributeError] and [ValidationError] come
    from the data of a drawn card that departs from the card schema. *)
Definition failure_cause (self : DeterministicAssembler) (reading : Reading)
    (arg : question_type_arg) (e : exn) : Prop :=
  match e with
  | KeyError =>
      _spreads (_spread_registry self) !! spread_id reading = None \/
      exists dc, dc ∈ drawn_cards reading /\
        match _card_by_id (_deck self) !! card_id dc with
        | None => True
        | Some card => lookup_key "card_name" (_data card) = None
        end
  | IndexError =>
      exists spread dc,
        _spreads (_spread_registry self) !! spread_id reading = Some spread /\
        dc ∈ drawn_cards reading /\
        ~ index_in_range (position_index dc) (length (positions spread))
  | ValueError =>
      exists s, arg = ArgStr s /\ forall q, QuestionType_value q <> s
  | AttributeError | ValidationError => off_schema self reading
  end.



(** Where a match comes from: a drawn card whose relationship tree
    holds, under a known type, a written entry for another drawn card of
    larger id. *)
Definition scan_source (self : DeterministicAssembler) (reading : Reading)
    (m : CardRelationshipMatch) : Prop :=
  exists dc card entries k targets rel_data,
    dc ∈ drawn_cards reading /\
    get_card (_deck self) (card_id dc) = Ok card /\
    get_relationships card = JDict entries /\
    (k, JDict targets) ∈ entries /\
    RelationshipType_of k = Ok (relationship_type m) /\
    (card2_id m, rel_data) ∈ targets /\
    card1_id m = card_id dc /\
    card1_name m = card_name dc /\
    card2_id m ∈ drawn_ids_of reading /\
    str_lt (card1_id m) (card2_id m) /\
    get rel_data "interpretation" (JStr "") = Ok (JStr (interpretation m)) /\
    written (interpretation m) = true.

(** The JSON value that pydantic validates into a list of strings, or
    into an optional string. *)
Definition json_of_strs (l : list string) : json := JList (JStr <$> l).

Definition json_of_opt_str (o : option string) : json :=
  match o with
  | Some s => JStr s
  | None => JNull
  end.

(** A raw entry carries the fields of an interpretation. *)
Definition echoes (raw : RawCardData) (ci : CardInterpretation) : Prop :=
  raw_card_id raw = ci_card_id ci /\
  raw_card_name raw = ci_card_name ci /\
  raw_position_index raw = ci_position_index ci /\
  raw_position_name raw = ci_position_name ci /\
  raw_position_description raw = ci_position_description ci /\
  raw_orientation raw = Orientation_value (ci_orientation ci) /\
  raw_position_interpretation raw = JStr (position_interpretation ci) /\
  raw_position_keywords raw = json_of_strs (position_keywords ci) /\
  raw_question_context raw = json_of_opt_str (question_context ci) /\
  raw_question_keywords raw = json_of_strs (question_keywords ci) /\
  raw_core_essence raw = JStr (core_essence ci) /\
  raw_core_keywords raw = json_of_strs (core_keywords ci) /\
  raw_image_path raw = ci_image_path ci.

(** What the relationship scan reads of a drawn card. *)
Definition scan_view (dc : DrawnCard) : string * string :=
  (card_id dc, card_name dc).

(** A context with its relationships list emptied. *)
Definition without_relationships (ctx : AssembledContext) : AssembledContext :=
  {| reading_id := reading_id ctx;
     ac_spread_name := ac_spread_name ctx;
     ac_question := ac_question ctx;
     ac_question_type := ac_question_type ctx;
     card_interpretations := card_interpretations ctx;
     relationships := [];
     raw_cards_data := raw_cards_data ctx |}.

(** Reads the body of an escaped string back: a backslash followed by
    a backslash, a quote or [n] stands for a backslash, a quote or a
    newline.  A quote, newline or carriage return that is not escaped,
    and any other use of the backslash, are refused. *)
Fixpoint unescape (s : string) : option string :=
  match s with
  | EmptyString => Some EmptyString
  | String c rest =>
      if Ascii.eqb c backslash then
        match rest with
        | EmptyString => None
        | String d rest' =>
            if Ascii.eqb d backslash then String backslash <$> unescape rest'
            else if Ascii.eqb d dquote then String dquote <$> unescape rest'
            else if Ascii.eqb d "n"%char then String newline <$> unescape rest'
            else None
        end
      else if Ascii.eqb c dquote || Ascii.eqb c newline
              || Ascii.eqb c carriage_return then None
      else String c <$> unescape rest
  end.

(** The text without its carriage returns. *)
Definition without_cr (text : string) : string :=
  replace text carriage_return "".

(** [rng.shuffle] rearranges the list it is given. *)
Definition rearranges (lib : Library) : Prop :=
  forall cards, shuffle lib cards ≡ₚ cards.

(** The ["card_id"] entry of a card, and a list of cards without two
    equal ids. *)
Definition id_entry (card : TarotCard) : option json :=
  lookup_key "card_id" (_data card).

Definition ids_distinct (cards : list TarotCard) : Prop :=
  NoDup (id_entry <$> cards).

(** A card that [draw] can turn into a [DrawnCard]: its id and its name
    are there and are texts. *)
Definition drawable (card : TarotCard) : Prop :=
  exists cid cname,
    id_entry card = Some (JStr cid) /\
    lookup_key "card_name" (_data card) = Some (JStr cname).

(** Why [draw] stops at a card with [e]: [KeyError] for a missing id or
    name, pydantic's [ValidationError] for an id or a name that is not a
    text. *)
Definition stops_draw (card : TarotCard) (e : exn) : Prop :=
  (e = KeyError /\
   (id_entry card = None \/ lookup_key "card_name" (_data card) = None)) \/
  (e = ValidationError /\
   exists cid cname,
     id_entry card = Some cid /\
     lookup_key "card_name" (_data card) = Some cname /\
     ~ (is_str cid /\ is_str cname)).

(** What [draw] makes of the card at place [i] of the shuffled deck. *)
Definition drawn_from (self : DeckObject) (lib : Library)
    (allow_reversals : bool) (item : nat * TarotCard) (dc : DrawnCard) : Prop :=
  TarotCard_card_id (snd item) = Ok (JStr (card_id dc)) /\
  TarotCard_card_name (snd item) = Ok (JStr (card_name dc)) /\
  position_index dc = Z.of_nat (fst item) /\
  position_name dc = "" /\
  orientation dc =
    (if allow_reversals && below_half lib (fst item) then REVERSED
     else UPRIGHT) /\
  image_path dc = Some (get_image_path self lib (snd item)).

(** The card's id is the string [card_id]. *)
Definition has_id (card_id : string) (card : TarotCard) : bool :=
  match id_entry card with
  | Some (JStr s) => String.eqb s card_id
  | _ => false
  end.

(** The card that a dict built from [cards] holds under [card_id]: the
    last one with that id. *)
Definition indexed (cards : list TarotCard) (card_id : string)
    : option TarotCard :=
  last (List.filter (has_id card_id) cards).

(** ** The error monad and the loops *)

Section Loops.

Context {A B : Type}.

Lemma bind_Ok {X Y : Type} (m : result X) (k : X -> result Y) (y : Y) :
  Py.bind m k = Ok y <-> exists x, m = Ok x /\ k x = Ok y.
Proof.
  destruct m as [x|e]; simpl; split.
  - intros H. exists x. split; [reflexivity | exact H].
  - intros (x' & Hx & Hk). congruence.
  - discriminate.
  - intros (x' & Hx & _). discriminate.
Qed.

Lemma bind_Raise {X Y : Type} (m : result X) (k : X -> result Y) (e : exn) :
  Py.bind m k = Raise e <->
  m = Raise e \/ exists x, m = Ok x /\ k x = Raise e.
Proof.
  destruct m as [x|e']; simpl; split.
  - intros H. right. exists x. split; [reflexivity | exact H].
  - intros [H | (x' & Hx & Hk)]; congruence.
  - intros [= ->]. by left.
  - intros [[= ->] | (x' & Hx & _)]; [done | discriminate].
Qed.

(** A loop whose body appends what [f] yields computes [collect f]. *)
Lemma for_each_collect (body : A -> list B -> result (list B))
    (f : A -> result (list B)) :
  (forall x s, body x s = do r <- f x; Ok (s ++ r)) ->
  forall xs s, for_each xs body s = do rs <- collect f xs; Ok (s ++ rs).
Proof.
  intros Hbody xs. induction xs as [|x xs IH]; intros s; simpl.
  - by rewrite app_nil_r.
  - rewrite Hbody. destruct (f x) as [r|e]; simpl; [|done].
    rewrite IH. destruct (collect f xs) as [rs|e]; simpl; [|done].
    by rewrite app_assoc.
Qed.

Lemma collect_ext (f g : A -> result (list B)) (xs : list A) :
  (forall x, x ∈ xs -> f x = g x) -> collect f xs = collect g xs.
Proof.
  induction xs as [|x xs IH]; intros Hfg; simpl; [done|].
  rewrite Hfg by apply list_elem_of_here.
  rewrite IH; [done|]. intros y Hy. apply Hfg. by apply list_elem_of_further.
Qed.


Lemma collect_elem (f : A -> result (list B)) (xs : list A) (out : list B) (b : B) :
  collect f xs = Ok out ->
  b ∈ out <-> exists x r, x ∈ xs /\ f x = Ok r /\ b ∈ r.
Proof.
  revert out. induction xs as [|x xs IH]; intros out; simpl.
  - intros [= <-]. split; [by intros ?%elem_of_nil|].
    by intros (x & r & ?%elem_of_nil & _).
  - intros H. apply bind_Ok in H as (r & Hr & H).
    apply bind_Ok in H as (rs & Hrs & [= <-]).
    rewrite elem_of_app, (IH rs Hrs). split.
    + intros [Hb | (y & r' & Hy & Hfy & Hb)].
      * exists x, r. by split; [apply list_elem_of_here|].
      * exists y, r'. by split; [apply list_elem_of_further|].
    + intros (y & r' & Hy & Hfy & Hb). apply elem_of_cons in Hy as [-> | Hy].
      * left. congruence.
      * right. by exists y, r'.
Qed.


(** Keys stay distinct when every iteration yields keys tagged by its
    own, distinct, tag. *)
Lemma collect_NoDup {K T : Type} (key : B -> K) (ktag : K -> T) (tag : A -> T)
    (f : A -> result (list B)) (xs : list A) (out : list B) :
  NoDup (tag <$> xs) ->
  (forall x r b, x ∈ xs -> f x = Ok r -> b ∈ r -> ktag (key b) = tag x) ->
  (forall x r, x ∈ xs -> f x = Ok r -> NoDup (key <$> r)) ->
  collect f xs = Ok out -> NoDup (key <$> out).
Proof.
  revert out. induction xs as [|x xs IH]; intros out Hnd Htag Hloc; simpl.
  - intros [= <-]. constructor.
  - intros H. apply bind_Ok in H as (r & Hr & H).
    apply bind_Ok in H as (rs & Hrs & [= <-]).
    rewrite fmap_cons in Hnd. apply NoDup_cons in Hnd as [Hx Hnd].
    rewrite fmap_app. apply NoDup_app. split_and!.
    + apply (Hloc x); [apply list_elem_of_here | done].
    + intros k (b & -> & Hb)%list_elem_of_fmap (b' & Hk & Hb')%list_elem_of_fmap.
      apply (collect_elem _ _ _ b' Hrs) in Hb' as (y & r' & Hy & Hfy & Hb').
      apply Hx. apply list_elem_of_fmap. exists y. split; [|done].
      trans (ktag (key b)).
      * symmetry. eapply Htag; eauto using list_elem_of_here.
      * rewrite Hk. eapply Htag; eauto using list_elem_of_further.
    + apply IH; [done| | |done]; intros; eauto using list_elem_of_further.
Qed.

End Loops.

(** ** String order and dict lookup *)

#[local] Arguments String.prefix : simpl never.
#[local] Arguments String.ltb : simpl never.
#[local] Arguments String.eqb : simpl never.

Lemma ltb_asym (a b : string) : String.ltb a b = true -> String.ltb b a = false.
Proof.
  unfold String.ltb. rewrite (String.compare_antisym a b).
  by destruct (String.compare b a).
Qed.

Lemma ltb_irrefl (a : string) : String.ltb a a = false.
Proof.
  destruct (String.ltb a a) eqn:H; [|done].
  by rewrite (ltb_asym a a H) in H.
Qed.

Lemma ltb_neq (a b : string) : String.ltb a b = true -> a <> b.
Proof. intros H ->. by rewrite ltb_irrefl in H. Qed.



Lemma lookup_key_None {V : Type} (k : string) (d : list (string * V)) :
  lookup_key k d = None -> forall v, (k, v) ∉ d.
Proof.
  induction d as [|[k' v'] d IH]; simpl; intros H v.
  - apply not_elem_of_nil.
  - destruct (String.eqb_spec k k') as [->|Hne]; [done|].
    intros [[= -> ->] | Hin]%elem_of_cons; [done|]. by apply (IH H v).
Qed.

(** ** Enumerations *)


Lemma RelationshipType_of_Ok (s : string) (t : RelationshipType) :
  RelationshipType_of s = Ok t -> RelationshipType_value t = s.
Proof.
  unfold RelationshipType_of, enum_of_value.
  destruct (find _ _) as [m|] eqn:Hfind; [|done].
  intros [= ->]. apply find_some in Hfind as [_ Heq].
  by apply String.eqb_eq in Heq.
Qed.

Lemma QuestionType_of_value (q : QuestionType) :
  QuestionType_of (QuestionType_value q) = Ok q.
Proof. by destruct q. Qed.

Lemma QuestionType_of_Ok (s : string) (q : QuestionType) :
  QuestionType_of s = Ok q -> QuestionType_value q = s.
Proof.
  unfold QuestionType_of, enum_of_value.
  destruct (find _ _) as [m|] eqn:Hfind; [|done].
  intros [= ->]. apply find_some in Hfind as [_ Heq].
  by apply String.eqb_eq in Heq.
Qed.

Lemma QuestionType_of_Raise (s : string) (e : exn) :
  QuestionType_of s = Raise e ->
  e = ValueError /\ forall q, QuestionType_value q <> s.
Proof.
  unfold QuestionType_of, enum_of_value.
  destruct (find _ _) as [m|] eqn:Hfind; [done|].
  intros [= <-]. split; [done|]. intros q <-.
  assert (In q QuestionType_members) as Hq by (destruct q; simpl; tauto).
  apply (find_none _ _ Hfind) in Hq. by rewrite String.eqb_refl in Hq.
Qed.

(** ** The relationship scan, loop by loop *)

Section Scan.

Variable self : DeterministicAssembler.
Variable drawn_ids : gset string.

Lemma authored_Ok (x : json) (b : bool) :
  authored x = Ok b ->
  if b then exists text, x = JStr text /\ written text = true
  else truthy x = false \/ exists text, x = JStr text /\ written text = false.
Proof.
  unfold authored, written. destruct (truthy x) eqn:Htruthy.
  - destruct x as [| | |s| |]; simpl; try done.
    intros [= Hb]. subst b. simpl in Htruthy.
    destruct (String.prefix _ s) eqn:Hp; simpl.
    + right. exists s. by rewrite Hp, andb_false_r.
    + exists s. by rewrite Hp, Htruthy.
  - intros [= <-]. by left.
Qed.


(** The innermost body appends at most one match. *)
Lemma scan_target_app (dc : DrawnCard) (t : RelationshipType)
    (item : string * json) (s : list CardRelationshipMatch) :
  scan_target self drawn_ids dc t item s =
  do r <- scan_target self drawn_ids dc t item []; Ok (s ++ r).
Proof.
  unfold scan_target.
  destruct (_ && _); simpl; [|by rewrite app_nil_r].
  destruct (get_card _ _); simpl; [|done].
  destruct (String.ltb _ _); simpl; [|by rewrite app_nil_r].
  destruct (get _ _ _) as [i|]; simpl; [|done].
  destruct (authored i) as [[]|]; simpl; [| by rewrite app_nil_r | done].
  destruct (TarotCard_card_name _); simpl; [|done].
  destruct (get _ _ _); simpl; [|done].
  by destruct (CardRelationshipMatch_new _ _ _ _ _ _ _).
Qed.

Lemma CardRelationshipMatch_new_Ok (dc : DrawnCard) (t : RelationshipType)
    (other : string) (other_name i kws : json) (m : CardRelationshipMatch) :
  CardRelationshipMatch_new (card_id dc) (card_name dc) other other_name t i kws
    = Ok m ->
  exists name text ks,
    other_name = JStr name /\ i = JStr text /\
    validate_str_list kws = Ok ks /\ m = match_of dc t other name text ks.
Proof.
  unfold CardRelationshipMatch_new.
  intros (name & Hname & H)%bind_Ok.
  apply bind_Ok in H as (text & Htext & H).
  apply bind_Ok in H as (ks & Hks & [= <-]).
  destruct other_name; try done. destruct i; try done.
  simpl in Hname, Htext. injection Hname as ->. injection Htext as ->.
  by exists name, text, ks.
Qed.

(** What the innermost body yields, and under which tests. *)
Lemma scan_target_Ok (dc : DrawnCard) (t : RelationshipType)
    (item : string * json) (r : list CardRelationshipMatch) :
  scan_target self drawn_ids dc t item [] = Ok r ->
  r = [] \/
  exists other_card name text ks,
    r = [match_of dc t (fst item) name text ks] /\
    fst item ∈ drawn_ids /\
    str_lt (card_id dc) (fst item) /\
    get_card (_deck self) (fst item) = Ok other_card /\
    TarotCard_card_name other_card = Ok (JStr name) /\
    get (snd item) "interpretation" (JStr "") = Ok (JStr text) /\
    written text = true /\
    (do k <- get (snd item) "keywords" (JList []); validate_str_list k) = Ok ks.
Proof.
  unfold scan_target.
  destruct (bool_decide _) eqn:Hin; simpl; [|by left; congruence].
  destruct (negb _); simpl; [|by left; congruence].
  destruct (get_card _ _) as [other_card|] eqn:Hcard; simpl; [|done].
  destruct (String.ltb _ _) eqn:Hlt; simpl; [|by left; congruence].
  destruct (get _ _ _) as [i|] eqn:Hi; simpl; [|done].
  destruct (authored i) as [[]|] eqn:Hauth; simpl; [| by left; congruence | done].
  destruct (TarotCard_card_name _) as [other_name|] eqn:Hname; simpl; [|done].
  destruct (get _ "keywords" _) as [kws|] eqn:Hkws; simpl; [|done].
  destruct (CardRelationshipMatch_new _ _ _ _ _ _ _) as [m|] eqn:Hm; simpl; [|done].
  intros [= <-]. right.
  apply CardRelationshipMatch_new_Ok in Hm as (name & text & ks & -> & -> & Hks & ->).
  apply authored_Ok in Hauth as (text' & [= <-] & Hw).
  apply bool_decide_eq_true in Hin.
  by exists other_card, name, text, ks.
Qed.


Lemma scan_type_app (dc : DrawnCard) (entry : string * json)
    (s : list CardRelationshipMatch) :
  scan_type self drawn_ids dc entry s =
  do r <- scan_type self drawn_ids dc entry []; Ok (s ++ r).
Proof.
  unfold scan_type.
  destruct (RelationshipType_of _) as [t|]; simpl; [|by rewrite app_nil_r].
  destruct (items _) as [targets|]; simpl; [|done].
  rewrite !(for_each_collect _ (fun it => scan_target self drawn_ids dc t it []))
    by apply scan_target_app.
  by destruct (collect _ _).
Qed.

Lemma scan_type_nil (dc : DrawnCard) (entry : string * json) :
  scan_type self drawn_ids dc entry [] =
  match RelationshipType_of (fst entry) with
  | Raise _ => Ok []
  | Ok t =>
      do targets <- items (snd entry);
      collect (fun it => scan_target self drawn_ids dc t it []) targets
  end.
Proof.
  unfold scan_type.
  destruct (RelationshipType_of _) as [t|]; [|done].
  destruct (items _) as [targets|]; simpl; [|done].
  rewrite (for_each_collect _ (fun it => scan_target self drawn_ids dc t it []))
    by apply scan_target_app.
  by destruct (collect _ _).
Qed.

Lemma scan_card_app (dc : DrawnCard) (s : list CardRelationshipMatch) :
  scan_card self drawn_ids dc s =
  do r <- scan_card self drawn_ids dc []; Ok (s ++ r).
Proof.
  unfold scan_card.
  destruct (get_card _ _) as [card|]; simpl; [|done].
  destruct (items _) as [entries|]; simpl; [|done].
  rewrite !(for_each_collect _ (fun e => scan_type self drawn_ids dc e []))
    by apply scan_type_app.
  by destruct (collect _ _).
Qed.

Lemma scan_card_nil (dc : DrawnCard) :
  scan_card self drawn_ids dc [] =
  do card <- get_card (_deck self) (card_id dc);
  do entries <- items (get_relationships card);
  collect (fun e => scan_type self drawn_ids dc e []) entries.
Proof.
  unfold scan_card.
  destruct (get_card _ _) as [card|]; simpl; [|done].
  destruct (items _) as [entries|]; simpl; [|done].
  rewrite (for_each_collect _ (fun e => scan_type self drawn_ids dc e []))
    by apply scan_type_app.
  by destruct (collect _ _).
Qed.

End Scan.

Lemma find_relationships_collect (self : DeterministicAssembler) (reading : Reading) :
  _find_relationships self reading =
  collect (fun dc => scan_card self (drawn_ids_of reading) dc [])
    (drawn_cards reading).
Proof.
  unfold _find_relationships.
  rewrite (for_each_collect _
             (fun dc => scan_card self (drawn_ids_of reading) dc []))
    by apply scan_card_app.
  by destruct (collect _ _).
Qed.

(** ** The relationship scan as a whole *)

Section ScanWhole.

Variable self : DeterministicAssembler.
Variable reading : Reading.

Lemma items_Ok (x : json) (d : list (string * json)) :
  items x = Ok d <-> x = JDict d.
Proof. destruct x; simpl; split; congruence. Qed.

(** Every match of the output has a source in the card data. *)
Lemma find_relationships_sound (out : list CardRelationshipMatch)
    (m : CardRelationshipMatch) :
  _find_relationships self reading = Ok out ->
  m ∈ out -> scan_source self reading m.
Proof.
  rewrite find_relationships_collect. intros Hout Hm.
  apply (collect_elem _ _ _ m Hout) in Hm as (dc & r1 & Hdc & Hr1 & Hm).
  rewrite scan_card_nil in Hr1.
  apply bind_Ok in Hr1 as (card & Hcard & Hr1).
  apply bind_Ok in Hr1 as (entries & Hentries%items_Ok & Hr1).
  apply (collect_elem _ _ _ m Hr1) in Hm as ([k v] & r2 & He & Hr2 & Hm).
  rewrite scan_type_nil in Hr2. simpl in Hr2.
  destruct (RelationshipType_of k) as [t|] eqn:Ht;
    [|injection Hr2 as <-; by apply elem_of_nil in Hm].
  apply bind_Ok in Hr2 as (targets & ->%items_Ok & Hr2).
  apply (collect_elem _ _ _ m Hr2) in Hm as ([other rel_data] & r3 & Hit & Hr3 & Hm).
  apply scan_target_Ok in Hr3
    as [-> | (oc & name & text & ks & -> & Hin & Hlt & _ & _ & Hget & Hw & _)];
    [by apply elem_of_nil in Hm|].
  apply list_elem_of_singleton in Hm as ->. simpl in *.
  by exists dc, card, entries, k, targets, rel_data.
Qed.


(** With distinct drawn ids and proper dicts, no two matches share
    their cards and type. *)
Lemma find_relationships_NoDup (out : list CardRelationshipMatch) :
  NoDup (card_id <$> drawn_cards reading) ->
  (forall dc card, dc ∈ drawn_cards reading ->
     get_card (_deck self) (card_id dc) = Ok card -> relationships_wf card) ->
  _find_relationships self reading = Ok out ->
  NoDup (match_key <$> out).
Proof.
  rewrite find_relationships_collect. intros Hids Hwf.
  apply (collect_NoDup match_key (fun k => fst (fst k)) card_id); [done|..].
  - intros dc r m Hdc Hr Hm.
    rewrite scan_card_nil in Hr.
    apply bind_Ok in Hr as (card & Hcard & Hr).
    apply bind_Ok in Hr as (entries & _ & Hr).
    apply (collect_elem _ _ _ m Hr) in Hm as ([k v] & r2 & _ & Hr2 & Hm).
    rewrite scan_type_nil in Hr2. simpl in Hr2.
    destruct (RelationshipType_of k) as [t|];
      [|injection Hr2 as <-; by apply elem_of_nil in Hm].
    apply bind_Ok in Hr2 as (targets & _ & Hr2).
    apply (collect_elem _ _ _ m Hr2) in Hm as (it & r3 & _ & Hr3 & Hm).
    apply scan_target_Ok in Hr3 as [-> | (? & ? & ? & ? & -> & _)];
      [by apply elem_of_nil in Hm|].
    by apply list_elem_of_singleton in Hm as ->.
  - intros dc r Hdc Hr. rewrite scan_card_nil in Hr.
    apply bind_Ok in Hr as (card & Hcard & Hr).
    apply bind_Ok in Hr as (entries & Hentries%items_Ok & Hr).
    specialize (Hwf dc card Hdc Hcard). unfold relationships_wf in Hwf.
    rewrite Hentries in Hwf. destruct Hwf as [Hkeys Htargets].
    revert Hr.
    apply (collect_NoDup match_key
             (fun k => RelationshipType_value (snd k)) fst); [done|..].
    + intros [k v] r2 m _ Hr2 Hm. rewrite scan_type_nil in Hr2. simpl in *.
      destruct (RelationshipType_of k) as [t|] eqn:Ht;
        [|injection Hr2 as <-; by apply elem_of_nil in Hm].
      apply bind_Ok in Hr2 as (targets & _ & Hr2).
      apply (collect_elem _ _ _ m Hr2) in Hm as (it & r3 & _ & Hr3 & Hm).
      apply scan_target_Ok in Hr3 as [-> | (? & ? & ? & ? & -> & _)];
        [by apply elem_of_nil in Hm|].
      apply list_elem_of_singleton in Hm as ->. simpl.
      by apply RelationshipType_of_Ok.
    + intros [k v] r2 He Hr2. rewrite scan_type_nil in Hr2. simpl in Hr2.
      destruct (RelationshipType_of k) as [t|] eqn:Ht;
        [|injection Hr2 as <-; constructor].
      apply bind_Ok in Hr2 as (targets & ->%items_Ok & Hr2).
      rewrite Forall_forall in Htargets. specialize (Htargets _ He).
      simpl in Htargets. revert Hr2.
      apply (collect_NoDup match_key (fun k => snd (fst k)) fst); [done|..].
      * intros it r3 m _ Hr3 Hm.
        apply scan_target_Ok in Hr3 as [-> | (? & ? & ? & ? & -> & _)];
          [by apply elem_of_nil in Hm|].
        by apply list_elem_of_singleton in Hm as ->.
      * intros it r3 _ Hr3.
        apply scan_target_Ok in Hr3 as [-> | (? & ? & ? & ? & -> & _)];
          [constructor | apply NoDup_singleton].
Qed.

End ScanWhole.

(** ** Counting matches *)




Lemma filter_key_none {B K : Type} (p : B -> bool) (key : B -> K) (k : K)
    (l : list B) :
  (forall y, y ∈ l -> p y = true -> key y = k) ->
  k ∉ key <$> l ->
  List.filter p l = [].
Proof.
  induction l as [|a l IH]; intros Hp Hk; simpl; [done|].
  rewrite fmap_cons in Hk. apply not_elem_of_cons in Hk as [Hka Hk].
  destruct (p a) eqn:Hpa.
  - destruct Hka. symmetry. apply Hp; [apply list_elem_of_here | done].
  - apply IH; [|done]. intros y Hy. apply Hp. by apply list_elem_of_further.
Qed.


(** ** Orientation and uniqueness of the emitted pairs *)

Section Pairs.

Variable self : DeterministicAssembler.
Variable reading : Reading.
Variable out : list CardRelationshipMatch.

Hypothesis scan_ok : _find_relationships self reading = Ok out.

Lemma find_relationships_ordered (m : CardRelationshipMatch) :
  m ∈ out -> str_lt (card1_id m) (card2_id m).
Proof.
  intros Hm. destruct (find_relationships_sound _ _ _ _ scan_ok Hm)
    as (? & ? & ? & ? & ? & ? & H). tauto.
Qed.

Lemma drawn_id_elem (dc : DrawnCard) :
  dc ∈ drawn_cards reading -> card_id dc ∈ drawn_ids_of reading.
Proof.
  intros Hdc. unfold drawn_ids_of. apply elem_of_list_to_set.
  apply list_elem_of_fmap. by exists dc.
Qed.

Hypothesis distinct_ids : NoDup (card_id <$> drawn_cards reading).
Hypothesis dicts_wf :
  forall dc card, dc ∈ drawn_cards reading ->
    get_card (_deck self) (card_id dc) = Ok card -> relationships_wf card.





Lemma NoDup_keys_pairs_unique :
  NoDup (match_key <$> out) -> pairs_unique out.
Proof.
  intros Hnd i j m1 m2 Hi Hj Ht Hpair.
  assert (match_key m1 = match_key m2) as Hkey.
  { unfold match_key. destruct Hpair as [[-> ->] | [H1 H2]]; [by rewrite Ht|].
    assert (m1 ∈ out) as Ho1 by by eapply list_elem_of_lookup_2.
    assert (m2 ∈ out) as Ho2 by by eapply list_elem_of_lookup_2.
    apply find_relationships_ordered in Ho1, Ho2.
    unfold str_lt in *. rewrite H1, H2 in Ho1.
    by rewrite (ltb_asym _ _ Ho1) in Ho2. }
  apply (NoDup_lookup _ i j (match_key m1) Hnd); rewrite list_lookup_fmap.
  - by rewrite Hi.
  - by rewrite Hj, Hkey.
Qed.

End Pairs.

(** ** The orchestrator, step by step *)

Lemma assemble_Ok (self : DeterministicAssembler) (reading : Reading)
    (arg : question_type_arg) (include_relationships : bool)
    (ctx : AssembledContext) :
  assemble self reading arg include_relationships = Ok ctx <->
  exists spread qt acc rels,
    load_spread (_spread_registry self) (spread_id reading) = Ok spread /\
    normalize_question_type reading arg = Ok qt /\
    for_each (drawn_cards reading) (assemble_card self spread qt) ([], [])
      = Ok acc /\
    (if include_relationships then _find_relationships self reading else Ok [])
      = Ok rels /\
    ctx = {| reading_id := id reading;
             ac_spread_name := spread_name reading;
             ac_question := question reading;
             ac_question_type := qt;
             card_interpretations := fst acc;
             relationships := rels;
             raw_cards_data := snd acc |}.
Proof.
  unfold assemble. split.
  - intros (spread & Hspread & H)%bind_Ok.
    apply bind_Ok in H as (qt & Hqt & H).
    apply bind_Ok in H as (acc & Hacc & H).
    apply bind_Ok in H as (rels & Hrels & [= <-]).
    by exists spread, qt, acc, rels.
  - intros (spread & qt & acc & rels & -> & -> & Hacc & -> & ->). simpl.
    by rewrite Hacc.
Qed.

(** ** Relationship scan: the claims *)

(** C9. No match of an assembled context carries an interpretation that
    begins with "[TO BE WRITTEN": such entries of the card data are
    skipped by the scan and never reach the relationships list. *)
Theorem placeholder_never_assembled (self : DeterministicAssembler)
    (reading : Reading) (arg : question_type_arg)
    (include_relationships : bool) (ctx : AssembledContext)
    (m : CardRelationshipMatch) :
  assemble self reading arg include_relationships = Ok ctx ->
  m ∈ relationships ctx ->
  String.prefix "[TO BE WRITTEN" (interpretation m) = false.
Proof.
  intros (spread & qt & acc & rels & _ & _ & _ & Hrels & ->)%assemble_Ok Hm.
  simpl in Hm. destruct include_relationships.
  - destruct (find_relationships_sound _ _ _ _ Hrels Hm)
      as (? & ? & ? & ? & ? & ? & H).
    destruct H as (_ & _ & _ & _ & _ & _ & _ & _ & _ & _ & _ & Hw).
    unfold written in Hw. apply andb_true_iff in Hw as [_ Hw].
    by apply negb_true_iff in Hw.
  - injection Hrels as <-. by apply elem_of_nil in Hm.
Qed.

(** C4 as stated fails: with "the_fool" drawn in two positions the scan
    yields its match with "the_magician" twice. *)
Lemma duplicate_draw_repeats_pair :
  exists out,
    _find_relationships Sample.assembler Sample.reading_twice = Ok out /\
    ~ pairs_unique out.
Proof.
  eexists. split; [vm_compute; reflexivity|].
  intros H.
  specialize (H 0%nat 1%nat _ _ eq_refl eq_refl eq_refl
                (or_introl (conj eq_refl eq_refl))).
  discriminate H.
Qed.

(** C4 (amended). For every reading whose drawn cards have pairwise
    distinct ids, the output of the relationship scan holds each
    unordered pair of card ids at most once per relationship type. *)
Theorem distinct_draw_pairs_unique (self : DeterministicAssembler)
    (reading : Reading) (out : list CardRelationshipMatch) :
  NoDup (card_id <$> drawn_cards reading) ->
  (forall dc card, dc ∈ drawn_cards reading ->
     get_card (_deck self) (card_id dc) = Ok card -> relationships_wf card) ->
  _find_relationships self reading = Ok out ->
  pairs_unique out.
Proof.
  intros Hids Hwf Hout.
  apply (NoDup_keys_pairs_unique self reading out Hout).
  by apply (find_relationships_NoDup self reading).
Qed.

(** Discharges, on the sample deck, the side conditions on the data. *)
Ltac by_evaluation := apply (bool_decide_unpack _); vm_compute; exact I.

Ltac sample_dicts :=
  let dc := fresh "dc" in
  let card := fresh "card" in
  let Hdc := fresh "Hdc" in
  let Hcard := fresh "Hcard" in
  intros dc card Hdc Hcard;
  repeat (apply elem_of_cons in Hdc as [-> | Hdc]);
  [..| by apply elem_of_nil in Hdc];
  vm_compute in Hcard; injection Hcard as <-;
  unfold relationships_wf, unique_keys; simpl;
  repeat split; repeat constructor; try by_evaluation.

Lemma placeholder_never_assembled_witness :
  String.prefix "[TO BE WRITTEN" (interpretation Sample.fool_magician) = false.
Proof.
  eapply (placeholder_never_assembled Sample.assembler Sample.reading
            ArgNone true).
  - vm_compute. reflexivity.
  - apply list_elem_of_here.
Defined.

Lemma distinct_draw_pairs_unique_witness :
  pairs_unique [Sample.fool_magician; Sample.magician_tower].
Proof.
  apply (distinct_draw_pairs_unique Sample.assembler Sample.reading).
  - by_evaluation.
  - sample_dicts.
  - vm_compute. reflexivity.
Defined.




(** ** Position interpretation resolver *)

Lemma walk_resolves (node : json) (parts : list string) (terminal : json) :
  walk node parts = Some terminal <-> path_resolves node parts terminal.
Proof.
  split.
  - revert node. induction parts as [|part parts IH]; intros node; simpl.
    + intros [= ->]. constructor.
    + destruct node as [| | | | |d]; try done.
      destruct (lookup_key part d) as [child|] eqn:Hchild; [|done].
      intros Hwalk. econstructor; [done|]. by apply IH.
  - induction 1 as [|d part child parts terminal Hchild _ IH]; simpl; [done|].
    by rewrite Hchild.
Qed.

Lemma walk_unresolved (node : json) (parts : list string) :
  walk node parts = None <-> forall terminal, ~ path_resolves node parts terminal.
Proof.
  split.
  - intros Hwalk terminal Hres%walk_resolves. congruence.
  - intros Hnone. destruct (walk node parts) as [terminal|] eqn:Hwalk; [|done].
    destruct (Hnone terminal). by apply walk_resolves.
Qed.

Lemma get_interpretation_walk (self : TarotCard) (rag_mapping : string)
    (reversed : bool) :
  get_interpretation self rag_mapping reversed =
  match walk (position_tree self) (segments rag_mapping) with
  | Some (JDict current) =>
      Ok {| interp_interpretation :=
              dict_get current (orientation_key reversed) (JStr "");
            interp_keywords := dict_get current "keywords" (JList []);
            interp_raw := JDict current |}
  | _ => _get_core_meaning_fallback self reversed
  end.
Proof.
  unfold get_interpretation, position_tree, segments.
  by destruct (walk _ _) as [[]|].
Qed.

Lemma fallback_core_meaning (self : TarotCard) (reversed : bool)
    (meaning : list (string * json)) :
  get_core_meaning self reversed = Ok (JDict meaning) ->
  _get_core_meaning_fallback self reversed =
  Ok {| interp_interpretation := dict_get meaning "essence" (JStr "");
        interp_keywords := dict_get meaning "keywords" (JList []);
        interp_raw := JDict meaning |}.
Proof.
  unfold get_core_meaning, _get_core_meaning_fallback. by intros ->.
Qed.

(** C2 as stated fails: every segment of "temporal_positions.future"
    resolves in the position tree of "the_fool" (each intermediate node
    is a mapping that contains the next segment), but the terminal node
    is the text "soon", not a mapping, and the resolver answers with
    the core meaning. *)
Lemma resolved_path_to_text_gives_core :
  path_resolves (position_tree Sample.the_fool)
    (segments "temporal_positions.future") (JStr "soon") /\
  get_interpretation Sample.the_fool "temporal_positions.future" false =
    Ok {| interp_interpretation := JStr "New beginnings";
          interp_keywords := Sample.strs ["leap"; "trust"];
          interp_raw := Sample.meaning "New beginnings" ["leap"; "trust"] |}.
Proof.
  split.
  - apply walk_resolves. vm_compute. reflexivity.
  - vm_compute. reflexivity.
Qed.

(** C2 (amended). When every segment of the dotted path resolves and
    the terminal node is a mapping, the text and keywords returned are
    that mapping's orientation entry (the empty text when absent) and
    its "keywords" entry (the empty list when absent), whatever the
    core meanings are.  When some segment does not resolve, or the
    terminal node is not a mapping, the result is the core-meaning
    fallback: if the core-meaning tree is a mapping whose entry for the
    orientation (an empty mapping when absent) is a mapping, the text is
    its "essence" (the empty text when absent) and the keywords its
    "keywords" (the empty list when absent); otherwise the call raises
    [AttributeError]. *)
Theorem interpretation_from_path_or_core (self : TarotCard)
    (rag_mapping : string) (reversed : bool) :
  (forall terminal,
     path_resolves (position_tree self) (segments rag_mapping) (JDict terminal) ->
     get_interpretation self rag_mapping reversed =
     Ok {| interp_interpretation :=
             dict_get terminal (orientation_key reversed) (JStr "");
           interp_keywords := dict_get terminal "keywords" (JList []);
           interp_raw := JDict terminal |}) /\
  ((forall terminal,
      ~ path_resolves (position_tree self) (segments rag_mapping) terminal) \/
   (exists terminal,
      path_resolves (position_tree self) (segments rag_mapping) terminal /\
      forall current, terminal <> JDict current) ->
   get_interpretation self rag_mapping reversed =
     _get_core_meaning_fallback self reversed /\
   match core_tree self with
   | JDict core =>
       match dict_get core (orientation_key reversed) (JDict []) with
       | JDict meaning =>
           get_interpretation self rag_mapping reversed =
           Ok {| interp_interpretation := dict_get meaning "essence" (JStr "");
                 interp_keywords := dict_get meaning "keywords" (JList []);
                 interp_raw := JDict meaning |}
       | _ => get_interpretation self rag_mapping reversed = Raise AttributeError
       end
   | _ => get_interpretation self rag_mapping reversed = Raise AttributeError
   end).
Proof.
  rewrite get_interpretation_walk. split.
  - intros terminal Hres%walk_resolves. by rewrite Hres.
  - intros Hnone.
    assert (match walk (position_tree self) (segments rag_mapping) with
            | Some (JDict current) => False
            | _ => True
            end) as Hwalk.
    { destruct Hnone as [Hnone | (terminal & Hres%walk_resolves & Hterminal)].
      - apply walk_unresolved in Hnone. by rewrite Hnone.
      - rewrite Hres. destruct terminal as [| | | | |current]; try done.
        by destruct (Hterminal current). }
    assert (match walk (position_tree self) (segments rag_mapping) with
            | Some (JDict current) =>
                Ok {| interp_interpretation :=
                        dict_get current (orientation_key reversed) (JStr "");
                      interp_keywords := dict_get current "keywords" (JList []);
                      interp_raw := JDict current |}
            | _ => _get_core_meaning_fallback self reversed
            end = _get_core_meaning_fallback self reversed) as ->.
    { by destruct (walk _ _) as [[]|]. }
    split; [done|].
    unfold _get_core_meaning_fallback, core_tree.
    destruct (dict_get (_data self) "core_meanings" (JDict [])) as [| | | | |core];
      try done.
    simpl. by destruct (dict_get core (orientation_key reversed) (JDict [])).
Qed.

Lemma interpretation_from_path_or_core_witness :
  get_interpretation Sample.the_fool "temporal_positions.past" true =
    Ok {| interp_interpretation := JStr "A leap once refused";
          interp_keywords := Sample.strs ["origin"];
          interp_raw :=
            Sample.branch "A leap once taken" "A leap once refused" ["origin"] |}
  /\
  get_interpretation Sample.the_magician "temporal_positions.present" true =
    Ok {| interp_interpretation := JStr "Manipulation";
          interp_keywords := Sample.strs ["trick"];
          interp_raw := Sample.meaning "Manipulation" ["trick"] |}
  /\
  get_interpretation Sample.the_fool "temporal_positions.future" false =
    Ok {| interp_interpretation := JStr "New beginnings";
          interp_keywords := Sample.strs ["leap"; "trust"];
          interp_raw := Sample.meaning "New beginnings" ["leap"; "trust"] |}
  /\
  get_interpretation
    {| _data := [("core_meanings", JDict [("upright", JStr "Illusion")])];
       _image_filename := "m18.jpg" |} "temporal_positions.past" false =
    Raise AttributeError.
Proof.
  split_and!.
  - apply (proj1 (interpretation_from_path_or_core Sample.the_fool
                    "temporal_positions.past" true)
             [("upright", JStr "A leap once taken");
              ("reversed", JStr "A leap once refused");
              ("keywords", Sample.strs ["origin"])]).
    apply walk_resolves. vm_compute. reflexivity.
  - destruct (proj2 (interpretation_from_path_or_core Sample.the_magician
                       "temporal_positions.present" true)) as [_ Hcore].
    + left. intros terminal Hres. apply walk_resolves in Hres.
      vm_compute in Hres. discriminate Hres.
    + exact Hcore.
  - destruct (proj2 (interpretation_from_path_or_core Sample.the_fool
                       "temporal_positions.future" false)) as [_ Hcore].
    + right. exists (JStr "soon"). split; [|done].
      apply walk_resolves. vm_compute. reflexivity.
    + exact Hcore.
  - destruct (proj2 (interpretation_from_path_or_core
                       {| _data := [("core_meanings",
                                     JDict [("upright", JStr "Illusion")])];
                          _image_filename := "m18.jpg" |}
                       "temporal_positions.past" false)) as [_ Hcore].
    + left. intros terminal Hres. apply walk_resolves in Hres.
      vm_compute in Hres. discriminate Hres.
    + exact Hcore.
Defined.

(** C3 as stated fails: the walk for "temporal_positions.present" ends
    on a mapping of "the_fool" that has no "upright" entry, and the
    resolver answers the empty text with that mapping's keywords, not
    the core-meaning fallback. *)
Lemma missing_orientation_is_not_fallback :
  path_resolves (position_tree Sample.the_fool)
    (segments "temporal_positions.present")
    (JDict [("keywords", Sample.strs ["now"])]) /\
  get_interpretation Sample.the_fool "temporal_positions.present" false =
    Ok {| interp_interpretation := JStr "";
          interp_keywords := Sample.strs ["now"];
          interp_raw := JDict [("keywords", Sample.strs ["now"])] |} /\
  _get_core_meaning_fallback Sample.the_fool false =
    Ok {| interp_interpretation := JStr "New beginnings";
          interp_keywords := Sample.strs ["leap"; "trust"];
          interp_raw := Sample.meaning "New beginnings" ["leap"; "trust"] |} /\
  get_interpretation Sample.the_fool "temporal_positions.present" false <>
    _get_core_meaning_fallback Sample.the_fool false.
Proof.
  split_and!.
  - apply walk_resolves. vm_compute. reflexivity.
  - vm_compute. reflexivity.
  - vm_compute. reflexivity.
  - vm_compute. discriminate.
Qed.

(** C3 (amended). When the walk of the dotted path completes on a node
    that is not a mapping, the resolver returns the core-meaning
    fallback, as for a missing segment; when it completes on a mapping
    without the requested orientation entry, it returns the empty text
    and that mapping's "keywords" entry (the empty list when absent). *)
Theorem terminal_node_resolution (self : TarotCard) (rag_mapping : string)
    (reversed : bool) (terminal : json) :
  path_resolves (position_tree self) (segments rag_mapping) terminal ->
  match terminal with
  | JDict current =>
      lookup_key (orientation_key reversed) current = None ->
      get_interpretation self rag_mapping reversed =
      Ok {| interp_interpretation := JStr "";
            interp_keywords := dict_get current "keywords" (JList []);
            interp_raw := JDict current |}
  | _ =>
      get_interpretation self rag_mapping reversed =
      _get_core_meaning_fallback self reversed
  end.
Proof.
  intros Hres%walk_resolves. rewrite get_interpretation_walk, Hres.
  destruct terminal; try done.
  intros Hnone. unfold dict_get at 1. by rewrite Hnone.
Qed.

Lemma terminal_node_resolution_witness :
  get_interpretation Sample.the_fool "temporal_positions.future" false =
    _get_core_meaning_fallback Sample.the_fool false /\
  get_interpretation Sample.the_fool "temporal_positions.present" true =
    Ok {| interp_interpretation := JStr "";
          interp_keywords := Sample.strs ["now"];
          interp_raw := JDict [("keywords", Sample.strs ["now"])] |}.
Proof.
  split.
  - apply (terminal_node_resolution Sample.the_fool "temporal_positions.future"
             false (JStr "soon")).
    apply walk_resolves. vm_compute. reflexivity.
  - apply (terminal_node_resolution Sample.the_fool "temporal_positions.present"
             true (JDict [("keywords", Sample.strs ["now"])])).
    + apply walk_resolves. vm_compute. reflexivity.
    + vm_compute. reflexivity.
Defined.

(** ** The loop over the drawn cards *)

Section Loop.

Variable self : DeterministicAssembler.
Variable spread : SpreadDefinition.
Variable qt : option QuestionType.

(** The loop-invariant rule for [for_each]. *)
Lemma for_each_invariant {A S : Type} (I : list A -> S -> Prop)
    (body : A -> S -> result S) (xs : list A) :
  (forall seen x s s', I seen s -> body x s = Ok s' -> I (seen ++ [x]) s') ->
  forall seen s s',
    I seen s -> for_each xs body s = Ok s' -> I (seen ++ xs) s'.
Proof.
  intros Hstep. induction xs as [|x xs IH]; intros seen s s' HI; simpl.
  - intros [= <-]. by rewrite app_nil_r.
  - intros (s1 & Hs1 & Hrest)%bind_Ok.
    rewrite (cons_middle x seen xs), app_assoc. eapply IH; [|done].
    by eapply Hstep.
Qed.

Lemma assemble_card_app (dc : DrawnCard)
    (acc acc' : list CardInterpretation * list RawCardData) :
  assemble_card self spread qt dc acc = Ok acc' ->
  exists p, entry_of self spread qt dc p /\
            acc' = (fst acc ++ [fst p], snd acc ++ [snd p]).
Proof.
  unfold entry_of, assemble_card.
  destruct (get_card _ _) as [card|]; simpl; [|done].
  destruct (index _ _) as [position|]; simpl; [|done].
  destruct (get_interpretation _ _ _) as [interp_data|]; simpl; [|done].
  destruct (question_fields _ _ _) as [qc|]; simpl; [|done].
  destruct (get_core_meaning _ _) as [core_meaning|]; simpl; [|done].
  destruct (get core_meaning "essence" _) as [ce|]; simpl; [|done].
  destruct (get core_meaning "keywords" _) as [ck|]; simpl; [|done].
  destruct (CardInterpretation_new _ _ _ _ _ _ _ _ _ _ _ _ _) as [ci|];
    simpl; [|done].
  intros [= <-]. by eexists (_, _).
Qed.

(** The loop adds one entry per drawn card, in order. *)
Lemma assemble_loop (dcs : list DrawnCard)
    (acc : list CardInterpretation * list RawCardData) :
  for_each dcs (assemble_card self spread qt) ([], []) = Ok acc ->
  exists ps, Forall2 (entry_of self spread qt) dcs ps /\
             acc = (fst <$> ps, snd <$> ps).
Proof.
  intros Hloop.
  apply (for_each_invariant
           (fun seen acc => exists ps, Forall2 (entry_of self spread qt) seen ps /\
                                       acc = (fst <$> ps, snd <$> ps))
           _ dcs) with (seen := []) (s := ([], [])) in Hloop; [done| |].
  - intros seen dc s s' (ps & Hps & ->) (p & Hp & ->)%assemble_card_app.
    exists (ps ++ [p]). split.
    + apply Forall2_app; [done|]. by constructor.
    + by rewrite !fmap_app.
  - exists []. by split; [constructor|].
Qed.

End Loop.

(** ** One assembled card *)

Lemma CardInterpretation_new_Ok (cid cname : string) (pidx : Z)
    (pname pdesc : string) (o : Orientation)
    (pi pk qc qk ce ck : json) (img : option string) (ci : CardInterpretation) :
  CardInterpretation_new cid cname pidx pname pdesc o pi pk qc qk ce ck img
    = Ok ci ->
  ci_card_id ci = cid /\ ci_card_name ci = cname /\
  ci_position_index ci = pidx /\ ci_orientation ci = o /\
  ci_position_name ci = pname /\ ci_position_description ci = pdesc /\
  ci_image_path ci = img /\
  validate_str pi = Ok (position_interpretation ci) /\
  validate_str_list pk = Ok (position_keywords ci) /\
  validate_opt_str qc = Ok (question_context ci) /\
  validate_str_list qk = Ok (question_keywords ci) /\
  validate_str ce = Ok (core_essence ci) /\
  validate_str_list ck = Ok (core_keywords ci).
Proof.
  unfold CardInterpretation_new.
  intros (pi' & Hpi & H)%bind_Ok.
  apply bind_Ok in H as (pk' & Hpk & H).
  apply bind_Ok in H as (qc' & Hqc & H).
  apply bind_Ok in H as (qk' & Hqk & H).
  apply bind_Ok in H as (ce' & Hce & H).
  apply bind_Ok in H as (ck' & Hck & [= <-]).
  simpl. by split_and!.
Qed.

Section Entry.

Variable self : DeterministicAssembler.
Variable spread : SpreadDefinition.
Variable qt : option QuestionType.

Lemma entry_of_steps (dc : DrawnCard) (p : CardInterpretation * RawCardData) :
  entry_of self spread qt dc p ->
  exists card position interp_data qc core_meaning ce ck,
    get_card (_deck self) (card_id dc) = Ok card /\
    index (positions spread) (position_index dc) = Ok position /\
    get_interpretation card (rag_mapping position) (reversed_of dc)
      = Ok interp_data /\
    question_fields card qt (reversed_of dc) = Ok qc /\
    get_core_meaning card (reversed_of dc) = Ok core_meaning /\
    get core_meaning "essence" (JStr "") = Ok ce /\
    get core_meaning "keywords" (JList []) = Ok ck /\
    CardInterpretation_new (card_id dc) (card_name dc) (position_index dc)
      (sp_name position)
      (str_or (detailed_description position) (short_description position))
      (orientation dc)
      (interp_interpretation interp_data) (interp_keywords interp_data)
      (fst qc) (snd qc) ce ck (image_path dc) = Ok (fst p).
Proof.
  unfold entry_of, assemble_card, reversed_of. intros H.
  apply bind_Ok in H as (card & Hcard & H).
  apply bind_Ok in H as (position & Hposition & H).
  apply bind_Ok in H as (interp_data & Hinterp & H).
  apply bind_Ok in H as (qc & Hqc & H).
  apply bind_Ok in H as (core_meaning & Hcore & H).
  apply bind_Ok in H as (ce & Hce & H).
  apply bind_Ok in H as (ck & Hck & H).
  apply bind_Ok in H as (ci & Hci & [= <- _]).
  by exists card, position, interp_data, qc, core_meaning, ce, ck.
Qed.

Lemma entry_of_built_from (dc : DrawnCard) (p : CardInterpretation * RawCardData) :
  entry_of self spread qt dc p -> built_from dc (fst p).
Proof.
  intros (? & ? & ? & ? & ? & ? & ? & _ & _ & _ & _ & _ & _ & _ & Hci)%entry_of_steps.
  apply CardInterpretation_new_Ok in Hci. unfold built_from. tauto.
Qed.

End Entry.


Lemma index_Raise {A : Type} (l : list A) (i : Z) (e : exn) :
  index l i = Raise e -> e = IndexError /\ ~ index_in_range i (length l).
Proof.
  unfold index, index_in_range.
  destruct (_ && _) eqn:Hj.
  - apply andb_true_iff in Hj as [H0%Z.leb_le Hn%Z.ltb_lt].
    destruct (_ !! _) eqn:Hl; [done|]. apply lookup_ge_None in Hl.
    destruct (Z.ltb_spec i 0); lia.
  - intros [= <-]. split; [done|]. intros Hin.
    apply andb_false_iff in Hj as [H%Z.leb_gt | H%Z.ltb_ge];
      destruct (Z.ltb_spec i 0); lia.
Qed.

(** ** The orchestrator: the claims *)

Lemma assemble_entries (self : DeterministicAssembler) (reading : Reading)
    (arg : question_type_arg) (include_relationships : bool)
    (ctx : AssembledContext) :
  assemble self reading arg include_relationships = Ok ctx ->
  exists spread ps,
    load_spread (_spread_registry self) (spread_id reading) = Ok spread /\
    normalize_question_type reading arg = Ok (ac_question_type ctx) /\
    Forall2 (entry_of self spread (ac_question_type ctx))
      (drawn_cards reading) ps /\
    card_interpretations ctx = fst <$> ps /\
    raw_cards_data ctx = snd <$> ps.
Proof.
  intros (spread & qt & acc & rels & Hspread & Hqt & Hloop & _ & ->)%assemble_Ok.
  apply assemble_loop in Hloop as (ps & Hps & ->).
  by exists spread, ps.
Qed.

(** C5. When [assemble] succeeds, [card_interpretations] has as many
    entries as there are drawn cards, and its i-th entry is built from
    the i-th drawn card: same card id, card name, position index and
    orientation. *)
Theorem interpretations_follow_draw (self : DeterministicAssembler)
    (reading : Reading) (arg : question_type_arg)
    (include_relationships : bool) (ctx : AssembledContext) :
  assemble self reading arg include_relationships = Ok ctx ->
  length (card_interpretations ctx) = length (drawn_cards reading) /\
  forall (i : nat) (dc : DrawnCard),
    drawn_cards reading !! i = Some dc ->
    exists ci, card_interpretations ctx !! i = Some ci /\ built_from dc ci.
Proof.
  intros (spread & ps & _ & _ & Hps & -> & _)%assemble_entries. split.
  - rewrite length_fmap. symmetry. by eapply Forall2_length.
  - intros i dc Hi.
    destruct (Forall2_lookup_l _ _ _ _ _ Hps Hi) as (p & Hp & Hentry).
    exists (fst p). split.
    + by rewrite list_lookup_fmap, Hp.
    + by eapply entry_of_built_from.
Qed.

Lemma interpretations_follow_draw_witness :
  exists ctx,
    assemble Sample.assembler Sample.reading ArgNone true = Ok ctx /\
    length (card_interpretations ctx) = 3%nat /\
    exists ci,
      card_interpretations ctx !! 1%nat = Some ci /\
      built_from (Sample.draw "the_magician" "The Magician" 1 REVERSED) ci.
Proof.
  eexists. split; [vm_compute; reflexivity|].
  destruct (interpretations_follow_draw Sample.assembler Sample.reading
              ArgNone true _ ltac:(vm_compute; reflexivity)) as [Hlen Hith].
  split; [exact Hlen|]. apply (Hith 1%nat). reflexivity.
Defined.

Lemma question_fields_inactive (card : TarotCard) (qt : option QuestionType)
    (is_reversed : bool) :
  qt = None \/ qt = Some GENERAL ->
  question_fields card qt is_reversed = Ok (JNull, JList []).
Proof. by intros [-> | ->]. Qed.

Lemma get_question_context_absent (card : TarotCard) (category : string)
    (is_reversed : bool) :
  category_absent card category ->
  get_question_context card category is_reversed =
  Ok {| interp_interpretation := JStr "";
        interp_keywords := JList [];
        interp_raw := JDict [] |}.
Proof.
  intros (contexts & Htree & Hnone). unfold get_question_context.
  unfold question_tree in Htree. rewrite Htree.
  unfold Py.get at 1, dict_get at 1. by rewrite Hnone.
Qed.

Lemma question_fields_absent (card : TarotCard) (q : QuestionType)
    (is_reversed : bool) :
  q <> GENERAL ->
  category_absent card (QuestionType_value q) ->
  question_fields card (Some q) is_reversed = Ok (JStr "", JList []).
Proof.
  intros Hq Habsent. unfold question_fields.
  rewrite get_question_context_absent by done. by destruct q.
Qed.

(** C7. When the effective question category of an assembly is unset or
    [general], every output [CardInterpretation] has no
    [question_context] and no [question_keywords], whatever buckets the
    card data holds; and for an effective category other than [general]
    that a card's question-context tree lacks, that card's
    [question_context] is the empty text and its [question_keywords] the
    empty list, not the core meaning. *)
Theorem question_context_omission (self : DeterministicAssembler)
    (reading : Reading) (arg : question_type_arg)
    (include_relationships : bool) (ctx : AssembledContext) :
  assemble self reading arg include_relationships = Ok ctx ->
  normalize_question_type reading arg = Ok (ac_question_type ctx) /\
  (ac_question_type ctx = None \/ ac_question_type ctx = Some GENERAL ->
   forall ci, ci ∈ card_interpretations ctx ->
     question_context ci = None /\ question_keywords ci = []) /\
  (forall (q : QuestionType) (i : nat) (dc : DrawnCard)
          (ci : CardInterpretation) (card : TarotCard),
     ac_question_type ctx = Some q -> q <> GENERAL ->
     drawn_cards reading !! i = Some dc ->
     card_interpretations ctx !! i = Some ci ->
     get_card (_deck self) (card_id dc) = Ok card ->
     category_absent card (QuestionType_value q) ->
     question_context ci = Some "" /\ question_keywords ci = []).
Proof.
  intros (spread & ps & _ & Hqt & Hps & Hcis & _)%assemble_entries.
  split; [done|]. split.
  - intros Hinactive ci Hci. rewrite Hcis in Hci.
    apply list_elem_of_fmap in Hci as (p & -> & Hp).
    apply list_elem_of_lookup in Hp as (i & Hi).
    destruct (Forall2_lookup_r _ _ _ _ _ Hps Hi) as (dc & _ & Hentry).
    apply entry_of_steps in Hentry
      as (card & ? & ? & qc & ? & ? & ? & _ & _ & _ & Hqc & _ & _ & _ & Hci).
    rewrite question_fields_inactive in Hqc by done. injection Hqc as <-.
    apply CardInterpretation_new_Ok in Hci
      as (_ & _ & _ & _ & _ & _ & _ & _ & _ & Hc & Hk & _).
    simpl in Hc, Hk. split; congruence.
  - intros q i dc ci card Hq Hgen Hdc Hci Hcard Habsent.
    rewrite Hcis, list_lookup_fmap in Hci.
    destruct (Forall2_lookup_l _ _ _ _ _ Hps Hdc) as (p & Hp & Hentry).
    rewrite Hp in Hci. injection Hci as <-.
    apply entry_of_steps in Hentry
      as (card' & ? & ? & qc & ? & ? & ? & Hcard' & _ & _ & Hqc & _ & _ & _ & Hci).
    rewrite Hcard in Hcard'. injection Hcard' as <-.
    rewrite Hq, question_fields_absent in Hqc by done. injection Hqc as <-.
    apply CardInterpretation_new_Ok in Hci
      as (_ & _ & _ & _ & _ & _ & _ & _ & _ & Hc & Hk & _).
    simpl in Hc, Hk. split; congruence.
Qed.

Lemma question_context_omission_witness :
  (exists ctx ci,
     assemble Sample.assembler Sample.reading (ArgStr "general") true = Ok ctx /\
     card_interpretations ctx !! 0%nat = Some ci /\
     question_context ci = None /\ question_keywords ci = []) /\
  (exists ctx ci,
     assemble Sample.assembler Sample.reading (ArgStr "career") true = Ok ctx /\
     card_interpretations ctx !! 0%nat = Some ci /\
     question_context ci = Some "" /\ question_keywords ci = []).
Proof.
  split; eexists; eexists; (split; [vm_compute; reflexivity|]);
    (split; [reflexivity|]).
  - destruct (question_context_omission Sample.assembler Sample.reading
                (ArgStr "general") true _ ltac:(vm_compute; reflexivity))
      as (_ & Hnone & _).
    apply Hnone; [right; reflexivity | apply list_elem_of_here].
  - destruct (question_context_omission Sample.assembler Sample.reading
                (ArgStr "career") true _ ltac:(vm_compute; reflexivity))
      as (_ & _ & Habsent).
    apply (Habsent CAREER 0%nat
             (Sample.draw "the_fool" "The Fool" 0 UPRIGHT) _ Sample.the_fool);
      [reflexivity | discriminate | reflexivity | reflexivity
      | vm_compute; reflexivity |].
    eexists. split; vm_compute; reflexivity.
Defined.

(** ** Determinism *)

Lemma for_each_ext {A S : Type} (body1 body2 : A -> S -> result S)
    (xs : list A) (s : S) :
  (forall x s', x ∈ xs -> body1 x s' = body2 x s') ->
  for_each xs body1 s = for_each xs body2 s.
Proof.
  revert s. induction xs as [|x xs IH]; intros s Hbody; simpl; [done|].
  rewrite Hbody by apply list_elem_of_here.
  destruct (body2 x s) as [s1|]; simpl; [|done].
  apply IH. intros y s' Hy. apply Hbody. by apply list_elem_of_further.
Qed.

Section Determinism.

Variables self1 self2 : DeterministicAssembler.
Variable reading : Reading.

Hypothesis same_cards :
  forall dc, dc ∈ drawn_cards reading ->
    _card_by_id (_deck self1) !! card_id dc =
    _card_by_id (_deck self2) !! card_id dc.

Hypothesis same_spread :
  _spreads (_spread_registry self1) !! spread_id reading =
  _spreads (_spread_registry self2) !! spread_id reading.

Lemma get_card_drawn (cid : string) :
  cid ∈ drawn_ids_of reading ->
  get_card (_deck self1) cid = get_card (_deck self2) cid.
Proof.
  unfold drawn_ids_of. rewrite elem_of_list_to_set.
  intros (dc & -> & Hdc)%list_elem_of_fmap.
  unfold get_card. by rewrite same_cards.
Qed.

Lemma scan_target_same (dc : DrawnCard) (t : RelationshipType)
    (item : string * json) (s : list CardRelationshipMatch) :
  scan_target self1 (drawn_ids_of reading) dc t item s =
  scan_target self2 (drawn_ids_of reading) dc t item s.
Proof.
  unfold scan_target. case_bool_decide as Hin; simpl; [|done].
  by rewrite (get_card_drawn _ Hin).
Qed.

Lemma find_relationships_same :
  _find_relationships self1 reading = _find_relationships self2 reading.
Proof.
  unfold _find_relationships. apply for_each_ext. intros dc s Hdc.
  unfold scan_card. rewrite (get_card_drawn (card_id dc));
    [|by apply drawn_id_elem].
  destruct (get_card _ _) as [card|]; simpl; [|done].
  destruct (items _) as [entries|]; simpl; [|done].
  apply for_each_ext. intros entry s' _. unfold scan_type.
  destruct (RelationshipType_of _) as [t|]; [|done].
  destruct (items _) as [targets|]; simpl; [|done].
  apply for_each_ext. intros item s'' _. apply scan_target_same.
Qed.

Lemma assemble_same (arg : question_type_arg) (include_relationships : bool) :
  assemble self1 reading arg include_relationships =
  assemble self2 reading arg include_relationships.
Proof.
  unfold assemble, load_spread. rewrite same_spread.
  destruct (_spreads (_spread_registry self2) !! _) as [spread|]; simpl; [|done].
  destruct (normalize_question_type _ _) as [qt|]; simpl; [|done].
  rewrite (for_each_ext (assemble_card self1 spread qt)
             (assemble_card self2 spread qt)).
  - by rewrite find_relationships_same.
  - intros dc acc Hdc. unfold assemble_card.
    by rewrite (get_card_drawn (card_id dc)) by by apply drawn_id_elem.
Qed.

End Determinism.

(** C8. Assembly is deterministic: two calls with the same reading,
    category argument and flag, over decks that hold the same cards for
    the drawn ids and registries that hold the same spread for the
    reading's spread id, return the same outcome, hence identical
    contexts: same interpretations, same relationships in the same
    order, same metadata. *)
Theorem assemble_deterministic (self1 self2 : DeterministicAssembler)
    (reading : Reading) (arg : question_type_arg)
    (include_relationships : bool) :
  (forall dc, dc ∈ drawn_cards reading ->
     _card_by_id (_deck self1) !! card_id dc =
     _card_by_id (_deck self2) !! card_id dc) ->
  _spreads (_spread_registry self1) !! spread_id reading =
  _spreads (_spread_registry self2) !! spread_id reading ->
  assemble self1 reading arg include_relationships =
  assemble self2 reading arg include_relationships.
Proof. intros Hcards Hspread. by apply assemble_same. Qed.

Lemma assemble_deterministic_witness :
  assemble Sample.assembler Sample.reading (ArgStr "love") true =
  assemble Sample.assembler_with_star Sample.reading (ArgStr "love") true.
Proof.
  apply (assemble_deterministic Sample.assembler Sample.assembler_with_star).
  - intros dc Hdc.
    repeat (apply elem_of_cons in Hdc as [-> | Hdc]);
      [..| by apply elem_of_nil in Hdc]; vm_compute; reflexivity.
  - vm_compute. reflexivity.
Defined.

(** ** Category normalization *)

Lemma normalize_unrecognized (reading : Reading) (s : string) :
  (forall q, QuestionType_value q <> s) ->
  normalize_question_type reading (ArgStr s) = Raise ValueError.
Proof.
  intros Hs. unfold normalize_question_type.
  destruct (QuestionType_of s) as [q|e] eqn:Hq; simpl.
  - apply QuestionType_of_Ok in Hq. by destruct (Hs q).
  - by apply QuestionType_of_Raise in Hq as [-> _].
Qed.

Lemma normalize_Raise (reading : Reading) (arg : question_type_arg) (e : exn) :
  normalize_question_type reading arg = Raise e ->
  e = ValueError /\ exists s, arg = ArgStr s /\ forall q, QuestionType_value q <> s.
Proof.
  destruct arg as [|s|q]; simpl; [done| |done].
  destruct (QuestionType_of s) as [q|e'] eqn:Hq; simpl; [done|].
  intros [= <-]. apply QuestionType_of_Raise in Hq as [-> Hq]. eauto.
Qed.

(** C10 as stated fails: when the reading's spread is not in the
    registry, the lookup of the spread raises [KeyError] before the
    category string "money" is looked at. *)
Lemma unknown_spread_precedes_category :
  (forall q, QuestionType_value q <> "money") /\
  assemble Sample.assembler Sample.reading_unknown_spread (ArgStr "money") true
    = Raise KeyError.
Proof. split; [by intros []|]. vm_compute. reflexivity. Qed.

(** C10 (amended). For every [assemble] call on a reading whose spread
    id is known to the registry and whose category argument is a string
    outside the six values of [QuestionType], the call raises
    [ValueError] at normalization, whatever the drawn cards are; when
    the spread id is unknown, the [KeyError] of the spread lookup comes
    first.  The string is never taken as absent or as [general]. *)
Theorem unrecognized_category_rejected (self : DeterministicAssembler)
    (reading : Reading) (s : string) (include_relationships : bool) :
  (forall q, QuestionType_value q <> s) ->
  (is_Some (_spreads (_spread_registry self) !! spread_id reading) ->
   assemble self reading (ArgStr s) include_relationships = Raise ValueError) /\
  (_spreads (_spread_registry self) !! spread_id reading = None ->
   assemble self reading (ArgStr s) include_relationships = Raise KeyError).
Proof.
  intros Hs. unfold assemble, load_spread. split.
  - intros [spread ->]. cbn [Py.bind]. by rewrite normalize_unrecognized.
  - by intros ->.
Qed.

Lemma unrecognized_category_rejected_witness :
  assemble Sample.assembler Sample.reading_unknown_card (ArgStr "money") true
    = Raise ValueError /\
  assemble Sample.assembler Sample.reading_unknown_spread (ArgStr "Love") false
    = Raise KeyError.
Proof.
  split.
  - apply (unrecognized_category_rejected Sample.assembler
             Sample.reading_unknown_card "money" true); [by intros []|].
    vm_compute. eexists. reflexivity.
  - apply (unrecognized_category_rejected Sample.assembler
             Sample.reading_unknown_spread "Love" false); [by intros []|].
    vm_compute. reflexivity.
Defined.

(** ** What validation accepts *)

Lemma validate_str_Ok (x : json) (s : string) :
  validate_str x = Ok s <-> x = JStr s.
Proof. destruct x; simpl; split; congruence. Qed.

Lemma validate_opt_str_Ok (x : json) (o : option string) :
  validate_opt_str x = Ok o <-> x = json_of_opt_str o.
Proof. destruct x, o; simpl; split; congruence. Qed.

Lemma validate_strs_Ok (l : list json) (ss : list string) :
  validate_strs l = Ok ss <-> l = JStr <$> ss.
Proof.
  revert ss. induction l as [|x l IH]; intros ss; simpl.
  - split; [intros [= <-] | intros Hss]; [done|].
    symmetry in Hss. by apply fmap_nil_inv in Hss as ->.
  - rewrite bind_Ok. split.
    + intros (s & ->%validate_str_Ok & H).
      apply bind_Ok in H as (ss' & ->%IH & [= <-]). done.
    + destruct ss as [|s ss]; [done|]. intros [= -> ->].
      exists s. split; [done|]. apply bind_Ok. exists ss. by rewrite (proj2 (IH ss)).
Qed.

Lemma validate_str_list_Ok (x : json) (ss : list string) :
  validate_str_list x = Ok ss <-> x = json_of_strs ss.
Proof.
  unfold json_of_strs. destruct x as [| | | |l|]; simpl; try (split; congruence).
  rewrite validate_strs_Ok. split; congruence.
Qed.

(** ** Which exceptions can leave which step *)

Lemma raises_Ok {A : Type} (P : exn -> Prop) (a : A) : raises_in P (Ok a).
Proof. by intros e. Qed.

Lemma raises_Raise {A : Type} (P : exn -> Prop) (e : exn) :
  P e -> raises_in P (Raise e : result A).
Proof. by intros He e' [= <-]. Qed.

Lemma raises_bind {A B : Type} (P : exn -> Prop) (m : result A)
    (k : A -> result B) :
  raises_in P m ->
  (forall a, m = Ok a -> raises_in P (k a)) ->
  raises_in P (Py.bind m k).
Proof.
  intros Hm Hk e [He | (a & Ha & He)]%bind_Raise.
  - by apply Hm.
  - by apply (Hk a).
Qed.

Lemma raises_weaken {A : Type} (P Q : exn -> Prop) (m : result A) :
  raises_in P m -> (forall e, P e -> Q e) -> raises_in Q m.
Proof. intros Hm HPQ e He. by apply HPQ, Hm. Qed.

Lemma raises_for_each {A S : Type} (P : exn -> Prop)
    (body : A -> S -> result S) (xs : list A) (s : S) :
  (forall x s', x ∈ xs -> raises_in P (body x s')) ->
  raises_in P (for_each xs body s).
Proof.
  revert s. induction xs as [|x xs IH]; intros s Hbody; simpl.
  - apply raises_Ok.
  - apply raises_bind; [apply Hbody, list_elem_of_here|].
    intros s' _. apply IH. intros y s'' Hy. by apply Hbody, list_elem_of_further.
Qed.

Lemma raises_get (x : json) (k : string) (default : json) :
  raises_in shape_error (get x k default).
Proof. destruct x; intros e [= <-]; by left. Qed.

Lemma raises_items (x : json) : raises_in shape_error (items x).
Proof. destruct x; intros e [= <-]; by left. Qed.

Lemma raises_validate_str (x : json) : raises_in shape_error (validate_str x).
Proof. destruct x; intros e [= <-]; by right. Qed.

Lemma raises_validate_opt_str (x : json) :
  raises_in shape_error (validate_opt_str x).
Proof. destruct x; intros e [= <-]; by right. Qed.

Lemma raises_validate_str_list (x : json) :
  raises_in shape_error (validate_str_list x).
Proof.
  destruct x as [| | | |l|]; try (intros e [= <-]; by right).
  simpl. induction l as [|x l IH]; simpl; [apply raises_Ok|].
  apply raises_bind; [apply raises_validate_str|]. intros s _.
  apply raises_bind; [apply IH|]. intros ss _. apply raises_Ok.
Qed.

(** Solves the goals on straight-line code whose steps raise shape
    errors only. *)
Ltac raises_shape :=
  repeat first
    [ apply raises_Ok
    | apply raises_get
    | apply raises_items
    | apply raises_validate_str
    | apply raises_validate_opt_str
    | apply raises_validate_str_list
    | apply raises_bind; [|intros ? _] ].

Lemma raises_fallback (card : TarotCard) (reversed : bool) :
  raises_in shape_error (_get_core_meaning_fallback card reversed).
Proof. unfold _get_core_meaning_fallback. raises_shape. Qed.

Lemma raises_get_interpretation (card : TarotCard) (rag : string)
    (reversed : bool) :
  raises_in shape_error (get_interpretation card rag reversed).
Proof.
  rewrite get_interpretation_walk.
  destruct (walk _ _) as [[]|]; try apply raises_fallback. apply raises_Ok.
Qed.

Lemma raises_question_fields (card : TarotCard) (qt : option QuestionType)
    (reversed : bool) :
  raises_in shape_error (question_fields card qt reversed).
Proof.
  unfold question_fields, get_question_context.
  destruct (question_active qt); [|apply raises_Ok].
  destruct qt; raises_shape.
Qed.

Lemma raises_CardInterpretation_new (cid cname : string) (pidx : Z)
    (pname pdesc : string) (o : Orientation)
    (pi pk qc qk ce ck : json) (img : option string) :
  raises_in shape_error
    (CardInterpretation_new cid cname pidx pname pdesc o pi pk qc qk ce ck img).
Proof. unfold CardInterpretation_new. raises_shape. Qed.

Lemma raises_CardRelationshipMatch_new (c1 n1 c2 : string) (n2 : json)
    (t : RelationshipType) (i ks : json) :
  raises_in shape_error (CardRelationshipMatch_new c1 n1 c2 n2 t i ks).
Proof. unfold CardRelationshipMatch_new. raises_shape. Qed.

Lemma raises_authored (x : json) : raises_in shape_error (authored x).
Proof.
  unfold authored. destruct (truthy x); [|apply raises_Ok].
  apply raises_bind; [|intros ? _; apply raises_Ok].
  destruct x; intros e [= <-]; by left.
Qed.

Ltac raises_steps :=
  repeat first
    [ apply raises_Ok
    | apply raises_get
    | apply raises_items
    | apply raises_validate_str
    | apply raises_validate_opt_str
    | apply raises_validate_str_list
    | apply raises_get_interpretation
    | apply raises_question_fields
    | apply raises_CardInterpretation_new
    | apply raises_CardRelationshipMatch_new
    | apply raises_authored
    | apply raises_bind; [|intros ? _] ].

(** ** Cards that follow the schema raise no shape error *)

Lemma entry_get (P : json -> Prop) (d : list (string * json)) (k : string)
    (default : json) :
  entry_is P d k -> P default -> P (dict_get d k default).
Proof.
  unfold entry_is, dict_get. intros Hentry Hdefault.
  destruct (lookup_key k d) as [v|]; [by apply Hentry | done].
Qed.

Lemma entry_get_str (d : list (string * json)) (k : string) :
  entry_is is_str d k -> is_str (dict_get d k (JStr "")).
Proof. intros Hentry. apply entry_get; [done|]. by exists "". Qed.

Lemma entry_get_str_list (d : list (string * json)) (k : string) :
  entry_is is_str_list d k -> is_str_list (dict_get d k (JList [])).
Proof. intros Hentry. apply entry_get; [done|]. by exists []. Qed.

Lemma oriented_text (d : list (string * json)) (reversed : bool) :
  oriented d -> is_str (dict_get d (orientation_key reversed) (JStr "")).
Proof.
  intros (Hup & Hrev & _). apply entry_get_str. by destruct reversed.
Qed.

Lemma validate_str_list_strs (ss : list string) :
  validate_str_list (JList (JStr <$> ss)) = Ok ss.
Proof. by apply validate_str_list_Ok. Qed.

Lemma schema_core_meaning (card : TarotCard) (reversed : bool) :
  follows_schema card ->
  exists meaning,
    get_core_meaning card reversed = Ok (JDict meaning) /\
    is_str (dict_get meaning "essence" (JStr "")) /\
    is_str_list (dict_get meaning "keywords" (JList [])).
Proof.
  intros (_ & (core & Hcore & Hup & Hrev) & _).
  unfold get_core_meaning. unfold core_tree in Hcore. rewrite Hcore. simpl.
  assert (core_meaning_shape
            (dict_get core (orientation_key reversed) (JDict [])))
    as (meaning & -> & Hessence & Hkeywords).
  { apply entry_get; [by destruct reversed|]. by exists []. }
  exists meaning. split_and!; [done| |].
  - by apply entry_get_str.
  - by apply entry_get_str_list.
Qed.

Lemma schema_fallback (card : TarotCard) (reversed : bool) :
  follows_schema card ->
  exists d,
    _get_core_meaning_fallback card reversed = Ok d /\
    is_str (interp_interpretation d) /\ is_str_list (interp_keywords d).
Proof.
  intros (meaning & Hmeaning & Hessence & Hkeywords)%(schema_core_meaning _ reversed).
  unfold _get_core_meaning_fallback. unfold get_core_meaning in Hmeaning.
  rewrite Hmeaning. simpl. eexists. by split_and!.
Qed.

Lemma schema_interpretation (card : TarotCard) (rag_mapping : string)
    (reversed : bool) :
  follows_schema card ->
  exists d,
    get_interpretation card rag_mapping reversed = Ok d /\
    is_str (interp_interpretation d) /\ is_str_list (interp_keywords d).
Proof.
  intros Hschema. rewrite get_interpretation_walk.
  destruct (walk _ _) as [[| | | | |current]|] eqn:Hwalk;
    try by apply schema_fallback.
  apply walk_resolves in Hwalk.
  destruct Hschema as (_ & _ & Hpositions & _).
  specialize (Hpositions _ _ Hwalk).
  eexists. split; [done|]. simpl. split.
  - by apply oriented_text.
  - apply entry_get_str_list. by destruct Hpositions as (_ & _ & ?).
Qed.

Lemma schema_question_fields (card : TarotCard) (qt : option QuestionType)
    (reversed : bool) :
  follows_schema card ->
  exists qc,
    question_fields card qt reversed = Ok qc /\
    (fst qc = JNull \/ is_str (fst qc)) /\ is_str_list (snd qc).
Proof.
  intros (_ & _ & _ & (contexts & Hcontexts & Hall) & _).
  unfold question_fields.
  destruct (question_active qt);
    [|eexists; split; [done|]; split; [by left | by exists []]].
  destruct qt as [q|];
    [|eexists; split; [done|]; split; [by left | by exists []]].
  unfold get_question_context. unfold question_tree in Hcontexts.
  rewrite Hcontexts. simpl.
  assert (exists d, dict_get contexts (QuestionType_value q) (JDict []) = JDict d
                    /\ oriented d) as (d & -> & Hd).
  { apply (entry_get (fun v => exists d, v = JDict d /\ oriented d));
      [apply Hall|].
    exists []. split; [done|]. by split_and!. }
  simpl. eexists. split; [done|]. simpl. split.
  - right. by apply oriented_text.
  - apply entry_get_str_list. by destruct Hd as (_ & _ & ?).
Qed.

Ltac text_or_texts :=
  first [by eexists | by eexists [] | by eexists [_] | by eexists [_; _]].

(** The schema is met by cards with missing trees: "the_magician" has
    no position interpretations and no question contexts. *)
Lemma magician_follows_schema : follows_schema Sample.the_magician.
Proof.
  unfold follows_schema. split_and!.
  - intros v [= <-]. text_or_texts.
  - eexists. split; [reflexivity|].
    split; intros v [= <-]; eexists; (split; [reflexivity|]);
      split; intros w [= <-]; text_or_texts.
  - intros parts current Hres. apply walk_resolves in Hres.
    destruct parts as [|part parts]; [|done].
    injection Hres as <-. by split_and!.
  - exists []. split; [reflexivity|]. by intros category v.
  - eexists. split; [reflexivity|]. intros k v t Hin _.
    repeat (apply elem_of_cons in Hin as [[= -> ->] | Hin]);
      [..| by apply elem_of_nil in Hin];
      eexists; (split; [reflexivity|]); intros other rel_data Hin';
      repeat (apply elem_of_cons in Hin' as [[= -> ->] | Hin']);
      [| by apply elem_of_nil in Hin' | | by apply elem_of_nil in Hin'];
      eexists; (split; [reflexivity|]);
      split; intros w [= <-]; text_or_texts.
Qed.

(** For a card of the schema, found in the deck and placed on a
    position of the spread, the loop body of [assemble] returns. *)
Lemma schema_assemble_card (self : DeterministicAssembler)
    (spread : SpreadDefinition) (qt : option QuestionType) (dc : DrawnCard)
    (acc : list CardInterpretation * list RawCardData)
    (card : TarotCard) (position : SpreadPosition) :
  get_card (_deck self) (card_id dc) = Ok card ->
  index (positions spread) (position_index dc) = Ok position ->
  follows_schema card ->
  exists acc', assemble_card self spread qt dc acc = Ok acc'.
Proof.
  intros Hcard Hposition Hschema. unfold assemble_card.
  rewrite Hcard, Hposition. cbn [Py.bind].
  destruct (schema_interpretation card (rag_mapping position)
              (Orientation_eqb (orientation dc) REVERSED) Hschema)
    as (d & -> & [pi Hpi] & [pk Hpk]).
  destruct (schema_question_fields card qt
              (Orientation_eqb (orientation dc) REVERSED) Hschema)
    as (qc & -> & Hqc & [qk Hqk]).
  destruct (schema_core_meaning card
              (Orientation_eqb (orientation dc) REVERSED) Hschema)
    as (meaning & -> & [ce Hce] & [ck Hck]).
  cbn [Py.bind get]. unfold CardInterpretation_new.
  rewrite Hpi, Hpk, Hqk, Hce, Hck, !validate_str_list_strs. cbn [Py.bind validate_str].
  destruct Hqc as [-> | [s ->]]; simpl; by eexists.
Qed.

(** A shape error of the loop body is the fault of the drawn card's
    data. *)
Lemma assemble_card_off_schema (self : DeterministicAssembler)
    (spread : SpreadDefinition) (qt : option QuestionType) (dc : DrawnCard)
    (acc : list CardInterpretation * list RawCardData) (e : exn) :
  assemble_card self spread qt dc acc = Raise e ->
  shape_error e ->
  exists card,
    _card_by_id (_deck self) !! card_id dc = Some card /\
    ~ follows_schema card.
Proof.
  intros Hrun Hshape.
  destruct (get_card (_deck self) (card_id dc)) as [card|e1] eqn:Hcard.
  2: { unfold assemble_card in Hrun. rewrite Hcard in Hrun.
       unfold get_card in Hcard. destruct (_ !! _); [done|].
       injection Hcard as <-. injection Hrun as <-.
       by destruct Hshape. }
  destruct (index (positions spread) (position_index dc)) as [position|e2]
    eqn:Hposition.
  2: { unfold assemble_card in Hrun. rewrite Hcard, Hposition in Hrun.
       apply index_Raise in Hposition as [-> _] || idtac.
       simpl in Hrun. injection Hrun as <-. by destruct Hshape. }
  exists card. split.
  - unfold get_card in Hcard. destruct (_ !! _); [|done]. by injection Hcard as ->.
  - intros Hschema.
    destruct (schema_assemble_card self spread qt dc acc card position
                Hcard Hposition Hschema) as [acc' Hacc].
    congruence.
Qed.

(** The same for one target of the relationship scan: the fault is in
    the scanned card's relationship entry or in the other card's name. *)
Lemma scan_target_off_schema (self : DeterministicAssembler) (reading : Reading)
    (dc : DrawnCard) (card : TarotCard) (entries : list (string * json))
    (k : string) (t : RelationshipType) (targets : list (string * json))
    (item : string * json) (s : list CardRelationshipMatch) (e : exn) :
  dc ∈ drawn_cards reading ->
  _card_by_id (_deck self) !! card_id dc = Some card ->
  get_relationships card = JDict entries ->
  (k, JDict targets) ∈ entries ->
  RelationshipType_of k = Ok t ->
  item ∈ targets ->
  scan_target self (drawn_ids_of reading) dc t item s = Raise e ->
  shape_error e ->
  off_schema self reading.
Proof.
  intros Hdc Hcard Hentries Hk Ht Hitem Hrun Hshape.
  unfold scan_target in Hrun.
  case_bool_decide as Hin; simpl in Hrun; [|done].
  destruct (negb _); [|done].
  unfold get_card in Hrun.
  destruct (_card_by_id (_deck self) !! item.1) as [other_card|] eqn:Hother;
    simpl in Hrun; [|injection Hrun as <-; by destruct Hshape].
  destruct (String.ltb _ _); [|done].
  assert (follows_schema card ->
          exists v, lookup_key "card_name" (_data other_card) = Some v /\
                    ~ is_str v) as Hname.
  { intros (_ & _ & _ & _ & (entries' & Hentries' & Hall)).
    rewrite Hentries in Hentries'. injection Hentries' as <-.
    destruct (Hall _ _ _ Hk Ht) as (targets' & [= <-] & Hrels).
    destruct item as [other rel_data].
    destruct (Hrels _ _ Hitem) as (d & Hd & Htext & Hkws). simpl in Hd, Hrun.
    subst rel_data. simpl in Hrun.
    destruct (entry_get_str _ _ Htext) as [text Htext'].
    destruct (entry_get_str_list _ _ Hkws) as [kws Hkws'].
    rewrite Htext', Hkws' in Hrun. unfold authored in Hrun. simpl in Hrun.
    destruct (negb (String.eqb text "")); simpl in Hrun; [|done].
    destruct (negb (String.prefix "[TO BE WRITTEN" text)); simpl in Hrun; [|done].
    unfold TarotCard_card_name in Hrun.
    destruct (lookup_key "card_name" (_data other_card)) as [name|];
      simpl in Hrun; [|injection Hrun as <-; by destruct Hshape].
    exists name. split; [done|]. intros [n ->].
    unfold CardRelationshipMatch_new in Hrun. simpl in Hrun.
    by rewrite (proj2 (validate_strs_Ok _ kws) eq_refl) in Hrun. }
  destruct (lookup_key "card_name" (_data other_card)) as [name|] eqn:Hlookup.
  - destruct name as [| | |n| |];
      try (unfold drawn_ids_of in Hin;
           apply elem_of_list_to_set, list_elem_of_fmap in Hin
             as (dc' & Hid & Hdc');
           exists dc', other_card; split; [done|]; split; [by rewrite <- Hid|];
           intros (Hn & _); destruct (Hn _ Hlookup) as [? ?]; discriminate).
    exists dc, card. split_and!; [done..|]. intros Hschema.
    destruct (Hname Hschema) as (v & [= <-] & Hv). apply Hv. by exists n.
  - exists dc, card. split_and!; [done..|]. intros Hschema.
    by destruct (Hname Hschema) as (v & ? & _).
Qed.

Lemma find_relationships_off_schema (self : DeterministicAssembler)
    (reading : Reading) :
  raises_in (fun e => shape_error e -> off_schema self reading)
    (_find_relationships self reading).
Proof.
  unfold _find_relationships. apply raises_for_each. intros dc s Hdc.
  unfold scan_card, get_card.
  destruct (_card_by_id (_deck self) !! card_id dc) as [card|] eqn:Hcard;
    [|intros e [= <-] Hshape; by destruct Hshape].
  cbn [Py.bind].
  destruct (get_relationships card) as [| | | | |entries] eqn:Hentries;
    try (intros e [= <-] _; exists dc, card; split_and!; [done..|];
         intros (_ & _ & _ & _ & (entries' & ? & _)); congruence).
  cbn [Py.bind items]. apply raises_for_each. intros [k related] s' Hentry.
  unfold scan_type. simpl.
  destruct (RelationshipType_of k) as [t|] eqn:Ht; [|apply raises_Ok].
  destruct related as [| | | | |targets];
    try (intros e [= <-] _; exists dc, card; split_and!; [done..|];
         intros (_ & _ & _ & _ & (entries' & Hentries' & Hall));
         rewrite Hentries in Hentries'; injection Hentries' as <-;
         by destruct (Hall _ _ _ Hentry Ht) as (? & ? & _)).
  cbn [Py.bind items]. apply raises_for_each. intros item s'' Hitem e Hrun Hshape.
  by eapply scan_target_off_schema.
Qed.

Section RaisesAssembly.

Variable self : DeterministicAssembler.

(** One iteration of the loop of [assemble]. *)
Lemma raises_assemble_card (spread : SpreadDefinition)
    (qt : option QuestionType) (dc : DrawnCard)
    (acc : list CardInterpretation * list RawCardData) :
  raises_in
    (fun e =>
       (e = KeyError /\ _card_by_id (_deck self) !! card_id dc = None) \/
       (e = IndexError /\
        ~ index_in_range (position_index dc) (length (positions spread))) \/
       shape_error e)
    (assemble_card self spread qt dc acc).
Proof.
  unfold assemble_card. apply raises_bind.
  { intros e He. unfold get_card in He.
    destruct (_ !! _) eqn:Hcard; [done|]. injection He as <-. by left. }
  intros card _. apply raises_bind.
  { intros e He%index_Raise. by right; left. }
  intros position _.
  apply (raises_weaken shape_error); [|by right; right].
  unfold get_core_meaning. raises_steps.
Qed.

Lemma raises_scan_target (drawn_ids : gset string) (dc : DrawnCard)
    (t : RelationshipType) (item : string * json)
    (s : list CardRelationshipMatch) :
  raises_in (scan_failure self drawn_ids)
    (scan_target self drawn_ids dc t item s).
Proof.
  unfold scan_target. case_bool_decide as Hin; simpl; [|apply raises_Ok].
  destruct (negb _); [|apply raises_Ok].
  apply raises_bind.
  { intros e He. unfold get_card in He.
    destruct (_ !! _) eqn:Hcard; [done|]. injection He as <-.
    left. split; [done|]. exists (fst item). by rewrite Hcard. }
  intros other_card Hcard. destruct (String.ltb _ _); [|apply raises_Ok].
  apply raises_bind;
    [apply (raises_weaken shape_error _ _ (raises_get _ _ _)); by right|].
  intros interpretation _.
  apply raises_bind;
    [apply (raises_weaken shape_error _ _ (raises_authored _)); by right|].
  intros [] _; [|apply raises_Ok].
  apply raises_bind.
  { intros e He. unfold TarotCard_card_name in He.
    destruct (lookup_key _ _) eqn:Hname; [done|]. injection He as <-.
    left. split; [done|]. exists (fst item). split; [done|].
    unfold get_card in Hcard. destruct (_ !! _); [|done].
    by injection Hcard as ->. }
  intros other_name _.
  apply (raises_weaken shape_error); [|by right]. raises_steps.
Qed.

Lemma raises_find_relationships (reading : Reading) :
  raises_in (scan_failure self (drawn_ids_of reading))
    (_find_relationships self reading).
Proof.
  unfold _find_relationships. apply raises_for_each. intros dc s Hdc.
  unfold scan_card. apply raises_bind.
  { intros e He. unfold get_card in He.
    destruct (_ !! _) eqn:Hcard; [done|]. injection He as <-.
    left. split; [done|]. exists (card_id dc).
    split; [by apply drawn_id_elem|]. by rewrite Hcard. }
  intros card _.
  apply raises_bind;
    [apply (raises_weaken shape_error _ _ (raises_items _)); by right|].
  intros entries _. apply raises_for_each. intros entry s' _.
  unfold scan_type. destruct (RelationshipType_of _) as [t|]; [|apply raises_Ok].
  apply raises_bind;
    [apply (raises_weaken shape_error _ _ (raises_items _)); by right|].
  intros targets _. apply raises_for_each. intros item s'' _.
  apply raises_scan_target.
Qed.

(** Every exception of [assemble] is a shape error or has one of the
    listed causes. *)
Lemma raises_assemble_found (reading : Reading) (arg : question_type_arg)
    (include_relationships : bool) :
  raises_in (fun e => shape_error e \/ failure_cause self reading arg e)
    (assemble self reading arg include_relationships).
Proof.
  unfold assemble. apply raises_bind.
  { intros e He. unfold load_spread in He.
    destruct (_ !! _) eqn:Hspread; [done|]. injection He as <-.
    right. by left. }
  intros spread Hspread. unfold load_spread in Hspread.
  destruct (_spreads _ !! _) as [spread'|] eqn:Hlookup; [|done].
  injection Hspread as ->.
  apply raises_bind.
  { intros e (-> & s & -> & Hs)%normalize_Raise. right. by exists s. }
  intros qt _. apply raises_bind.
  { apply raises_for_each. intros dc acc Hdc.
    apply (raises_weaken _ _ _ (raises_assemble_card spread qt dc acc)).
    intros e [[-> Hnone] | [[-> Hrange] | Hshape]]; [right|right|by left].
    - right. exists dc. by rewrite Hnone.
    - by exists spread, dc. }
  intros acc _. apply raises_bind; [|intros; apply raises_Ok].
  destruct include_relationships; [|apply raises_Ok].
  apply (raises_weaken _ _ _ (raises_find_relationships reading)).
  intros e [[-> (other & Hother & Hcause)] | Hshape]; [right|by left].
  right. unfold drawn_ids_of in Hother.
  apply elem_of_list_to_set, list_elem_of_fmap in Hother as (dc & -> & Hdc).
  by exists dc.
Qed.

(** A shape error of [assemble] is the fault of a drawn card's data. *)
Lemma raises_assemble_shape (reading : Reading) (arg : question_type_arg)
    (include_relationships : bool) :
  raises_in (fun e => shape_error e -> off_schema self reading)
    (assemble self reading arg include_relationships).
Proof.
  unfold assemble. apply raises_bind.
  { intros e He Hshape. unfold load_spread in He.
    destruct (_ !! _); [done|]. injection He as <-. by destruct Hshape. }
  intros spread _. apply raises_bind.
  { intros e (-> & _)%normalize_Raise Hshape. by destruct Hshape. }
  intros qt _. apply raises_bind.
  { apply raises_for_each. intros dc acc Hdc e He Hshape.
    destruct (assemble_card_off_schema _ _ _ _ _ _ He Hshape)
      as (card & Hcard & Hoff).
    by exists dc, card. }
  intros acc _. apply raises_bind; [|intros; apply raises_Ok].
  destruct include_relationships; [|apply raises_Ok].
  apply find_relationships_off_schema.
Qed.

(** Every exception of [assemble] has one of the listed causes. *)
Lemma raises_assemble (reading : Reading) (arg : question_type_arg)
    (include_relationships : bool) :
  raises_in (failure_cause self reading arg)
    (assemble self reading arg include_relationships).
Proof.
  intros e He.
  destruct (raises_assemble_found _ _ _ e He) as [Hshape | Hcause]; [|done].
  pose proof (raises_assemble_shape _ _ _ e He Hshape) as Hoff.
  by destruct Hshape as [-> | ->].
Qed.

End RaisesAssembly.




(** * Further properties of the code *)

(** ** The raw echo of an assembled card *)

Lemma entry_of_echoes (self : DeterministicAssembler) (spread : SpreadDefinition)
    (qt : option QuestionType) (dc : DrawnCard)
    (p : CardInterpretation * RawCardData) :
  entry_of self spread qt dc p ->
  echoes (snd p) (fst p) /\
  exists card,
    get_card (_deck self) (card_id dc) = Ok card /\
    raw_card_data (snd p) = _data card.
Proof.
  unfold entry_of, assemble_card. intros H.
  apply bind_Ok in H as (card & Hcard & H).
  apply bind_Ok in H as (position & Hposition & H).
  apply bind_Ok in H as (interp_data & Hinterp & H).
  apply bind_Ok in H as (qc & Hqc & H).
  apply bind_Ok in H as (core_meaning & Hcore & H).
  apply bind_Ok in H as (ce & Hce & H).
  apply bind_Ok in H as (ck & Hck & H).
  apply bind_Ok in H as (ci & Hci & [= Hfst Hsnd]).
  rewrite <- Hfst, <- Hsnd.
  apply CardInterpretation_new_Ok in Hci
    as (H1 & H2 & H3 & H4 & H5 & H6 & H7 & Hpi%validate_str_Ok
        & Hpk%validate_str_list_Ok & Hqcx%validate_opt_str_Ok
        & Hqk%validate_str_list_Ok & Hce'%validate_str_Ok
        & Hck'%validate_str_list_Ok).
  split; [|by exists card].
  unfold echoes. simpl. split_and!; congruence.
Qed.

(** X1. In every assembled context the raw entries run parallel to the
    interpretations: the i-th entry of [raw_cards_data] holds the same
    card, position, orientation, texts, keyword lists and image path as
    the i-th [CardInterpretation], and the JSON object of its card. *)
Theorem raw_data_echoes_interpretations (self : DeterministicAssembler)
    (reading : Reading) (arg : question_type_arg)
    (include_relationships : bool) (ctx : AssembledContext) :
  assemble self reading arg include_relationships = Ok ctx ->
  length (raw_cards_data ctx) = length (card_interpretations ctx) /\
  forall (i : nat) (ci : CardInterpretation) (raw : RawCardData),
    card_interpretations ctx !! i = Some ci ->
    raw_cards_data ctx !! i = Some raw ->
    echoes raw ci /\
    exists card,
      get_card (_deck self) (ci_card_id ci) = Ok card /\
      raw_card_data raw = _data card.
Proof.
  intros (spread & ps & _ & _ & Hps & Hcis & Hraws)%assemble_entries.
  rewrite Hcis, Hraws. split; [by rewrite !length_fmap|].
  intros i ci raw Hci Hraw.
  rewrite list_lookup_fmap in Hci. rewrite list_lookup_fmap in Hraw.
  destruct (ps !! i) as [p|] eqn:Hp; [|done].
  injection Hci as <-. injection Hraw as <-.
  destruct (Forall2_lookup_r _ _ _ _ _ Hps Hp) as (dc & _ & Hentry).
  pose proof (entry_of_built_from _ _ _ _ _ Hentry) as (Hid & _).
  apply entry_of_echoes in Hentry as (Hechoes & card & Hcard & Hdata).
  split; [done|]. exists card. by rewrite Hid.
Qed.

Lemma raw_data_echoes_interpretations_witness :
  exists ctx ci raw,
    assemble Sample.assembler Sample.reading (ArgStr "love") true = Ok ctx /\
    card_interpretations ctx !! 0%nat = Some ci /\
    raw_cards_data ctx !! 0%nat = Some raw /\
    echoes raw ci.
Proof.
  eexists. eexists. eexists.
  split; [vm_compute; reflexivity|]. split; [reflexivity|].
  split; [reflexivity|].
  destruct (raw_data_echoes_interpretations Sample.assembler Sample.reading
              (ArgStr "love") true _ ltac:(vm_compute; reflexivity))
    as [_ Hecho].
  apply (Hecho 0%nat); reflexivity.
Defined.

(** ** Fallback to the core meaning inside an assembly *)

Lemma fallback_Ok (card : TarotCard) (reversed : bool) (d : InterpData) :
  _get_core_meaning_fallback card reversed = Ok d ->
  get_core_meaning card reversed = Ok (interp_raw d) /\
  get (interp_raw d) "essence" (JStr "") = Ok (interp_interpretation d) /\
  get (interp_raw d) "keywords" (JList []) = Ok (interp_keywords d).
Proof.
  unfold _get_core_meaning_fallback, get_core_meaning.
  intros (meaning & Hmeaning & H)%bind_Ok.
  apply bind_Ok in H as (essence & Hessence & H).
  apply bind_Ok in H as (kws & Hkws & [= <-]). by simpl.
Qed.

Lemma get_interpretation_unresolved (card : TarotCard) (rag_mapping : string)
    (reversed : bool) :
  (forall current,
     ~ path_resolves (position_tree card) (segments rag_mapping) (JDict current)) ->
  get_interpretation card rag_mapping reversed =
  _get_core_meaning_fallback card reversed.
Proof.
  intros Hnone. rewrite get_interpretation_walk.
  destruct (walk _ _) as [[| | | | |current]|] eqn:Hwalk; try done.
  destruct (Hnone current). by apply walk_resolves.
Qed.

(** X2. When the RAG mapping of a drawn card's position does not lead
    to a mapping in the card's position interpretations, the assembled
    [position_interpretation] and [position_keywords] of that card are
    its [core_essence] and [core_keywords]. *)
Theorem unresolved_position_shows_core (self : DeterministicAssembler)
    (reading : Reading) (arg : question_type_arg)
    (include_relationships : bool) (ctx : AssembledContext)
    (i : nat) (dc : DrawnCard) (ci : CardInterpretation)
    (card : TarotCard) (spread : SpreadDefinition) (position : SpreadPosition) :
  assemble self reading arg include_relationships = Ok ctx ->
  drawn_cards reading !! i = Some dc ->
  card_interpretations ctx !! i = Some ci ->
  get_card (_deck self) (card_id dc) = Ok card ->
  load_spread (_spread_registry self) (spread_id reading) = Ok spread ->
  index (positions spread) (position_index dc) = Ok position ->
  (forall current,
     ~ path_resolves (position_tree card) (segments (rag_mapping position))
         (JDict current)) ->
  position_interpretation ci = core_essence ci /\
  position_keywords ci = core_keywords ci.
Proof.
  intros (spread' & ps & Hspread' & _ & Hps & Hcis & _)%assemble_entries
    Hdc Hci Hcard Hspread Hposition Hnone.
  rewrite Hspread in Hspread'. injection Hspread' as <-.
  rewrite Hcis, list_lookup_fmap in Hci.
  destruct (Forall2_lookup_l _ _ _ _ _ Hps Hdc) as (p & Hp & Hentry).
  rewrite Hp in Hci. injection Hci as <-.
  apply entry_of_steps in Hentry
    as (card' & position' & interp_data & qc & cm & ce & ck & Hcard' & Hposition'
        & Hinterp & _ & Hcm & Hce & Hck & Hnew).
  rewrite Hcard in Hcard'. injection Hcard' as <-.
  rewrite Hposition in Hposition'. injection Hposition' as <-.
  rewrite get_interpretation_unresolved in Hinterp by done.
  apply fallback_Ok in Hinterp as (Hraw & Hessence & Hkws).
  rewrite Hcm in Hraw. injection Hraw as ->.
  rewrite Hce in Hessence. injection Hessence as ->.
  rewrite Hck in Hkws. injection Hkws as ->.
  apply CardInterpretation_new_Ok in Hnew
    as (_ & _ & _ & _ & _ & _ & _ & Hpi & Hpk & _ & _ & Hce' & Hck').
  split; congruence.
Qed.

Lemma unresolved_position_shows_core_witness :
  exists ctx ci,
    assemble Sample.assembler Sample.reading ArgNone true = Ok ctx /\
    card_interpretations ctx !! 1%nat = Some ci /\
    position_interpretation ci = core_essence ci /\
    position_keywords ci = core_keywords ci.
Proof.
  eexists. eexists. split; [vm_compute; reflexivity|]. split; [reflexivity|].
  eapply (unresolved_position_shows_core Sample.assembler Sample.reading
            ArgNone true _ 1%nat
           (Sample.draw "the_magician" "The Magician" 1 REVERSED) _
           Sample.the_magician Sample.three_card
           (Sample.pos "Present" "temporal_positions.present")).
  - vm_compute. reflexivity.
  - reflexivity.
  - reflexivity.
  - vm_compute. reflexivity.
  - vm_compute. reflexivity.
  - vm_compute. reflexivity.
  - intros current Hres%walk_resolves. vm_compute in Hres. discriminate Hres.
Defined.

(** ** More on the relationship scan *)

(** X3. Every match of the scan relates two different cards that are
    both drawn in the reading: [card1_id] and [card1_name] are those of
    a drawn card, and [card2_name] is the [card_name] that the deck's
    card for [card2_id] holds. *)
Theorem matches_relate_drawn_cards (self : DeterministicAssembler)
    (reading : Reading) (out : list CardRelationshipMatch)
    (m : CardRelationshipMatch) :
  _find_relationships self reading = Ok out ->
  m ∈ out ->
  (exists dc, dc ∈ drawn_cards reading /\
     card_id dc = card1_id m /\ card_name dc = card1_name m) /\
  (exists dc card, dc ∈ drawn_cards reading /\ card_id dc = card2_id m /\
     get_card (_deck self) (card2_id m) = Ok card /\
     TarotCard_card_name card = Ok (JStr (card2_name m))) /\
  card1_id m <> card2_id m.
Proof.
  rewrite find_relationships_collect. intros Hout Hm.
  apply (collect_elem _ _ _ m Hout) in Hm as (dc & r1 & Hdc & Hr1 & Hm).
  rewrite scan_card_nil in Hr1.
  apply bind_Ok in Hr1 as (card & Hcard & Hr1).
  apply bind_Ok in Hr1 as (entries & _ & Hr1).
  apply (collect_elem _ _ _ m Hr1) in Hm as ([k v] & r2 & _ & Hr2 & Hm).
  rewrite scan_type_nil in Hr2. simpl in Hr2.
  destruct (RelationshipType_of k) as [t|];
    [|injection Hr2 as <-; by apply elem_of_nil in Hm].
  apply bind_Ok in Hr2 as (targets & _ & Hr2).
  apply (collect_elem _ _ _ m Hr2) in Hm as ([other rel_data] & r3 & _ & Hr3 & Hm).
  apply scan_target_Ok in Hr3
    as [-> | (oc & name & text & ks & -> & Hin & Hlt & Hoc & Hname & _)];
    [by apply elem_of_nil in Hm|].
  apply list_elem_of_singleton in Hm as ->. simpl in *.
  split_and!.
  - by exists dc.
  - unfold drawn_ids_of in Hin.
    apply elem_of_list_to_set, list_elem_of_fmap in Hin as (dc2 & -> & Hdc2).
    by exists dc2, oc.
  - by apply ltb_neq.
Qed.

Lemma matches_relate_drawn_cards_witness :
  card1_id Sample.magician_tower <> card2_id Sample.magician_tower.
Proof.
  apply (matches_relate_drawn_cards Sample.assembler Sample.reading
           [Sample.fool_magician; Sample.magician_tower]
           Sample.magician_tower).
  - vm_compute. reflexivity.
  - apply list_elem_of_further, list_elem_of_here.
Defined.

Lemma for_each_Forall2 {A B S : Type} (R : A -> B -> Prop)
    (body1 : A -> S -> result S) (body2 : B -> S -> result S)
    (xs : list A) (ys : list B) (s : S) :
  Forall2 R xs ys ->
  (forall x y s', R x y -> body1 x s' = body2 y s') ->
  for_each xs body1 s = for_each ys body2 s.
Proof.
  intros Hxy Hbody. revert s.
  induction Hxy as [|x y xs ys HR _ IH]; intros s; simpl; [done|].
  rewrite (Hbody x y s HR). destruct (body2 y s) as [s'|]; simpl; [|done].
  apply IH.
Qed.

(** X4. The relationship scan reads only the id and the name of each
    drawn card: two readings whose drawn cards agree on these, whatever
    their orientations, position indices, spread or question, get the
    same matches in the same order, or the same exception. *)
Theorem scan_reads_ids_and_names (self : DeterministicAssembler)
    (reading1 reading2 : Reading) :
  scan_view <$> drawn_cards reading1 = scan_view <$> drawn_cards reading2 ->
  _find_relationships self reading1 = _find_relationships self reading2.
Proof.
  intros Hview. unfold _find_relationships.
  assert (drawn_ids_of reading1 = drawn_ids_of reading2) as ->.
  { unfold drawn_ids_of. f_equal.
    change card_id with (fst ∘ scan_view).
    by rewrite !(list_fmap_compose scan_view fst), Hview. }
  apply (for_each_Forall2 (fun a b => scan_view a = scan_view b)).
  - apply Forall2_fmap, list_eq_Forall2. exact Hview.
  - intros a b s [= Hid Hname]. unfold scan_card. rewrite Hid.
    destruct (get_card _ _) as [card|]; simpl; [|done].
    destruct (items _) as [entries|]; simpl; [|done].
    apply for_each_ext. intros entry s' _. unfold scan_type.
    destruct (RelationshipType_of _) as [t|]; [|done].
    destruct (items _) as [targets|]; simpl; [|done].
    apply for_each_ext. intros item s'' _. unfold scan_target.
    by rewrite Hid, Hname.
Qed.

Lemma scan_reads_ids_and_names_witness :
  _find_relationships Sample.assembler Sample.reading =
  _find_relationships Sample.assembler Sample.reading_shuffled_positions.
Proof.
  apply (scan_reads_ids_and_names Sample.assembler Sample.reading
           Sample.reading_shuffled_positions).
  vm_compute. reflexivity.
Defined.

(** ** The [include_relationships] flag *)

(** X5. Turning [include_relationships] off changes nothing but the
    relationships list: when the call with the flag on returns a
    context, the call with the flag off returns the same context with
    an empty list; and an exception of the call with the flag off is
    also the exception of the call with the flag on. *)
Theorem relationships_flag_is_separate (self : DeterministicAssembler)
    (reading : Reading) (arg : question_type_arg) :
  (forall ctx,
     assemble self reading arg true = Ok ctx ->
     assemble self reading arg false = Ok (without_relationships ctx)) /\
  (forall e,
     assemble self reading arg false = Raise e ->
     assemble self reading arg true = Raise e).
Proof.
  unfold assemble.
  destruct (load_spread _ _) as [spread|]; simpl; [|done].
  destruct (normalize_question_type _ _) as [qt|]; simpl; [|done].
  destruct (for_each _ _ _) as [acc|]; simpl; [|done].
  split; [|done]. intros ctx.
  destruct (_find_relationships _ _) as [rels|]; simpl; [|done].
  by intros [= <-].
Qed.

Lemma relationships_flag_is_separate_witness :
  exists ctx,
    assemble Sample.assembler Sample.reading ArgNone true = Ok ctx /\
    relationships ctx = [Sample.fool_magician; Sample.magician_tower] /\
    assemble Sample.assembler Sample.reading ArgNone false
      = Ok (without_relationships ctx).
Proof.
  eexists. split; [vm_compute; reflexivity|]. split; [reflexivity|].
  apply (proj1 (relationships_flag_is_separate Sample.assembler Sample.reading
                  ArgNone)).
  vm_compute. reflexivity.
Defined.

(** ** Escaping for Typst *)

(** The four replacements, one character at a time. *)
Lemma escape_step (c : Ascii.ascii) (text : string) :
  let esc t :=
    replace (replace (replace (replace t backslash
      (String backslash (String backslash "")))
      dquote (String backslash (String dquote "")))
      newline (String backslash "n")) carriage_return "" in
  esc (String c text) =
  if Ascii.eqb c backslash then String backslash (String backslash (esc text))
  else if Ascii.eqb c dquote then String backslash (String dquote (esc text))
  else if Ascii.eqb c newline then String backslash (String "n" (esc text))
  else if Ascii.eqb c carriage_return then esc text
  else String c (esc text).
Proof.
  intros esc. subst esc. cbn [replace].
  destruct (Ascii.eqb_spec c backslash) as [->|Hb]; [reflexivity|].
  cbn [replace].
  destruct (Ascii.eqb_spec c dquote) as [->|Hq]; [reflexivity|].
  cbn [replace].
  destruct (Ascii.eqb_spec c newline) as [->|Hn]; [reflexivity|].
  cbn [replace].
  destruct (Ascii.eqb_spec c carriage_return) as [->|Hr]; reflexivity.
Qed.

Lemma escape_nonempty_branch (text : string) :
  _escape text =
  replace (replace (replace (replace text backslash
    (String backslash (String backslash "")))
    dquote (String backslash (String dquote "")))
    newline (String backslash "n")) carriage_return "".
Proof. unfold _escape. by destruct text. Qed.

(** X6. Text escaped for a Typst string reads back as the text without
    its carriage returns; in particular the escaped text holds no quote,
    newline or carriage return that is not escaped, and every backslash
    in it starts one of the three escapes. *)
Theorem escape_reads_back (text : string) :
  unescape (_escape text) = Some (without_cr text).
Proof.
  rewrite escape_nonempty_branch. unfold without_cr.
  induction text as [|c text IH]; [done|].
  rewrite escape_step. cbn [replace].
  destruct (Ascii.eqb_spec c backslash) as [->|Hb].
  { cbn. cbn in IH. by rewrite IH. }
  destruct (Ascii.eqb_spec c dquote) as [->|Hq].
  { cbn. cbn in IH. by rewrite IH. }
  destruct (Ascii.eqb_spec c newline) as [->|Hn].
  { cbn. cbn in IH. by rewrite IH. }
  destruct (Ascii.eqb_spec c carriage_return) as [->|Hr].
  { exact IH. }
  cbn [unescape].
  rewrite (proj2 (Ascii.eqb_neq _ _) Hb), (proj2 (Ascii.eqb_neq _ _) Hq),
    (proj2 (Ascii.eqb_neq _ _) Hn), (proj2 (Ascii.eqb_neq _ _) Hr).
  cbn [orb]. by rewrite IH.
Qed.

(** X7. [_typst_string] gives the bare word [none] exactly for [None]
    and for the empty string; any other value becomes a literal between
    two quotes whose body reads back as the value without its carriage
    returns. *)
Theorem typst_string_none_or_literal (value : option string) :
  (_typst_string value = "none" <-> value = None \/ value = Some "") /\
  (forall v, value = Some v -> v <> "" ->
     exists body,
       _typst_string value = String dquote (String.append body (String dquote ""))
       /\ unescape body = Some (without_cr v)).
Proof.
  split.
  - destruct value as [v|]; simpl; [|by split; [left|]].
    destruct (String.eqb_spec v "") as [->|Hv].
    + by split; [right|].
    + split; [discriminate|]. by intros [|[= ->]].
  - intros v -> Hv. exists (_escape v). simpl.
    rewrite (proj2 (String.eqb_neq _ _) Hv). split; [done|].
    apply escape_reads_back.
Qed.

Lemma typst_string_none_or_literal_witness :
  exists body,
    _typst_string (Some "none")
      = String dquote (String.append body (String dquote "")) /\
    unescape body = Some (without_cr "none").
Proof.
  apply (proj2 (typst_string_none_or_literal (Some "none")) "none");
    [reflexivity | discriminate].
Defined.

(** ** Rendering a context as markdown *)

Lemma card_section_outcome (self : AssembledContext) (card : CardInterpretation)
    (lines : list string) :
  if given (question_context card) && negb (bool_decide (is_Some (ac_question_type self)))
  then card_section self card lines = Raise AttributeError
  else exists lines', card_section self card lines = Ok lines'.
Proof.
  unfold card_section.
  destruct (given (question_context card)); simpl; [|by eexists].
  destruct (ac_question_type self) as [q|]; simpl; [by eexists|done].
Qed.

Lemma card_sections_outcome (self : AssembledContext)
    (cards : list CardInterpretation) (lines : list string) :
  (exists lines', for_each cards (card_section self) lines = Ok lines' /\
     forall ci, ci ∈ cards ->
       given (question_context ci) = true -> is_Some (ac_question_type self)) \/
  (for_each cards (card_section self) lines = Raise AttributeError /\
   ac_question_type self = None /\
   exists ci, ci ∈ cards /\ given (question_context ci) = true).
Proof.
  revert lines. induction cards as [|card cards IH]; intros lines; simpl.
  - left. exists lines. split; [done|]. by intros ci ?%elem_of_nil.
  - pose proof (card_section_outcome self card lines) as Hcard.
    destruct (given (question_context card)) eqn:Hgiven; simpl in Hcard.
    + destruct (ac_question_type self) as [q|] eqn:Hq; simpl in Hcard.
      * destruct Hcard as (lines' & ->). simpl.
        destruct (IH lines') as [(l & Hl & Hall) | (Hl & Hnone & _)]; [|done].
        left. exists l. split; [done|]. intros ci _ _. by exists q.
      * right. rewrite Hcard. split_and!; [done..|].
        exists card. split; [apply list_elem_of_here | done].
    + destruct Hcard as (lines' & ->). simpl.
      destruct (IH lines') as [(l & Hl & Hall) | (Hl & Hnone & ci & Hci & Hg)].
      * left. exists l. split; [done|].
        intros ci [-> | Hci]%elem_of_cons Hg; [congruence | by apply (Hall ci)].
      * right. split_and!; [done..|]. exists ci.
        split; [by apply list_elem_of_further | done].
Qed.

Lemma to_markdown_outcome (ctx : AssembledContext) :
  (exists text, to_markdown ctx = Ok text /\
     forall ci, ci ∈ card_interpretations ctx ->
       given (question_context ci) = true -> is_Some (ac_question_type ctx)) \/
  (to_markdown ctx = Raise AttributeError /\
   ac_question_type ctx = None /\
   exists ci, ci ∈ card_interpretations ctx /\
     given (question_context ci) = true).
Proof.
  unfold to_markdown, markdown_lines.
  match goal with
  | |- context [for_each _ _ ?l] =>
      destruct (card_sections_outcome ctx (card_interpretations ctx) l)
        as [(lines & -> & Hall) | (-> & Hnone & Hci)]
  end.
  - left. simpl. eexists. by split.
  - by right.
Qed.

(** X8. [to_markdown] fails in one case only: with [AttributeError],
    when the context has no question type while one of its card
    interpretations has a non-empty question context; in every other
    case it returns the text. *)
Theorem to_markdown_fails_only_without_type (ctx : AssembledContext) (e : exn) :
  to_markdown ctx = Raise e <->
  e = AttributeError /\ ac_question_type ctx = None /\
  exists ci, ci ∈ card_interpretations ctx /\
    given (question_context ci) = true.
Proof.
  destruct (to_markdown_outcome ctx)
    as [(text & Htext & Hall) | (Hfail & Hnone & Hci)].
  - rewrite Htext. split; [done|].
    intros (_ & Hnone & ci & Hci & Hgiven).
    destruct (Hall ci Hci Hgiven) as [q Hq]. congruence.
  - rewrite Hfail. split; [by intros [= <-] | by intros [-> _]].
Qed.

Lemma to_markdown_fails_only_without_type_witness :
  to_markdown Sample.context_without_type = Raise AttributeError.
Proof.
  apply (proj2 (to_markdown_fails_only_without_type
                  Sample.context_without_type AttributeError)).
  split_and!; [reflexivity..|].
  eexists. split; [apply list_elem_of_here | reflexivity].
Defined.

Lemma assembled_question_context (self : DeterministicAssembler)
    (reading : Reading) (arg : question_type_arg)
    (include_relationships : bool) (ctx : AssembledContext)
    (ci : CardInterpretation) :
  assemble self reading arg include_relationships = Ok ctx ->
  ci ∈ card_interpretations ctx ->
  is_Some (question_context ci) ->
  exists q, ac_question_type ctx = Some q /\ q <> GENERAL.
Proof.
  intros (spread & ps & _ & _ & Hps & Hcis & _)%assemble_entries Hci Hsome.
  rewrite Hcis in Hci. apply list_elem_of_fmap in Hci as (p & -> & Hp).
  apply list_elem_of_lookup in Hp as (i & Hi).
  destruct (Forall2_lookup_r _ _ _ _ _ Hps Hi) as (dc & _ & Hentry).
  apply entry_of_steps in Hentry
    as (card & ? & ? & qc & ? & ? & ? & _ & _ & _ & Hqc & _ & _ & _ & Hnew).
  destruct (ac_question_type ctx) as [q|] eqn:Hq.
  - exists q. split; [done|]. intros ->.
    rewrite question_fields_inactive in Hqc by by right.
    injection Hqc as <-.
    apply CardInterpretation_new_Ok in Hnew
      as (_ & _ & _ & _ & _ & _ & _ & _ & _ & Hc & _).
    simpl in Hc. injection Hc as Hc. rewrite <- Hc in Hsome.
    by destruct Hsome.
  - rewrite question_fields_inactive in Hqc by by left.
    injection Hqc as <-.
    apply CardInterpretation_new_Ok in Hnew
      as (_ & _ & _ & _ & _ & _ & _ & _ & _ & Hc & _).
    simpl in Hc. injection Hc as Hc. rewrite <- Hc in Hsome.
    by destruct Hsome.
Qed.

(** X9. Every context returned by [assemble] renders: [to_markdown]
    returns a text on it, since an assembled card has a question
    context only under a question type. *)
Theorem assembled_context_renders (self : DeterministicAssembler)
    (reading : Reading) (arg : question_type_arg)
    (include_relationships : bool) (ctx : AssembledContext) :
  assemble self reading arg include_relationships = Ok ctx ->
  exists text, to_markdown ctx = Ok text.
Proof.
  intros Hctx.
  destruct (to_markdown_outcome ctx)
    as [(text & Htext & _) | (_ & Hnone & ci & Hci & Hgiven)]; [by exists text|].
  destruct (assembled_question_context self reading arg include_relationships
              ctx ci Hctx Hci) as (q & Hq & _); [|congruence].
  destruct (question_context ci); [by eexists | done].
Qed.

Lemma assembled_context_renders_witness :
  exists ctx,
    assemble Sample.assembler Sample.reading (ArgStr "love") true = Ok ctx /\
    exists text, to_markdown ctx = Ok text.
Proof.
  eexists. split; [vm_compute; reflexivity|].
  apply (assembled_context_renders Sample.assembler Sample.reading
           (ArgStr "love") true).
  vm_compute. reflexivity.
Defined.

(** ** The spread registry *)

Lemma leb_ltb (a b : string) :
  String.leb a b = true -> a <> b -> String.ltb a b = true.
Proof.
  unfold String.leb, String.ltb. destruct (String.compare a b) eqn:Hc; try done.
  intros _ Hne. by apply String.compare_eq_iff in Hc.
Qed.

Lemma StronglySorted_strict (l : list string) :
  StronglySorted String.le l -> NoDup l -> StronglySorted str_lt l.
Proof.
  induction 1 as [|x l Hl IH Hx]; intros Hnd; [constructor|].
  apply NoDup_cons in Hnd as [Hxl Hnd]. constructor; [by apply IH|].
  rewrite Forall_forall in Hx |- *. intros y Hy.
  apply leb_ltb; [apply Is_true_true, (Hx y Hy)|]. by intros ->.
Qed.

(** X10. [list_spreads] lists, in strictly ascending order, exactly the
    spread ids that [load_spread] (and its alias [get]) finds, as many
    as [len] counts; on every other id [load_spread] raises
    [KeyError]. *)
Theorem list_spreads_lists_loadable (self : SpreadRegistry) :
  StronglySorted str_lt (list_spreads self) /\
  length (list_spreads self) = SpreadRegistry_len self /\
  forall spread_id,
    (spread_id ∈ list_spreads self <->
     exists spread, load_spread self spread_id = Ok spread) /\
    (spread_id ∉ list_spreads self <->
     load_spread self spread_id = Raise KeyError) /\
    SpreadRegistry_get self spread_id = load_spread self spread_id.
Proof.
  unfold list_spreads, sorted, SpreadRegistry_len.
  assert (forall spread_id,
            spread_id ∈ merge_sort String.le (map_to_list (_spreads self)).*1 <->
            is_Some (_spreads self !! spread_id)) as Hmem.
  { intros k. rewrite merge_sort_Permutation, list_elem_of_fmap. split.
    - intros ([k' v] & -> & Hkv%elem_of_map_to_list). by exists v.
    - intros [v Hv]. exists (k, v). split; [done|]. by apply elem_of_map_to_list. }
  split_and!.
  - apply StronglySorted_strict; [apply StronglySorted_merge_sort; apply _|].
    rewrite merge_sort_Permutation. apply NoDup_fst_map_to_list.
  - by rewrite merge_sort_Permutation, length_fmap, length_map_to_list.
  - intros k. unfold load_spread. rewrite Hmem. split_and!; [| |done].
    + destruct (_ !! _) as [spread|];
        [split; [by exists spread | done]
        | split; [by intros [? ?] | by intros [? ?]]].
    + destruct (_ !! _) as [spread|];
        [split; [intros Hno; destruct Hno; by exists spread | done]
        | split; [done | by intros _ [? ?]]].
Qed.

(** ** Drawing cards *)

Section Draw.

Variable self : DeckObject.
Variable lib : Library.
Variable allow_reversals : bool.

Lemma draw_card_Ok (item : nat * TarotCard) (drawn drawn' : list DrawnCard) :
  draw_card self lib allow_reversals item drawn = Ok drawn' ->
  exists dc, drawn' = drawn ++ [dc] /\
             drawn_from self lib allow_reversals item dc.
Proof.
  unfold draw_card, DrawnCard_new.
  intros (cid & Hcid & H)%bind_Ok.
  apply bind_Ok in H as (cname & Hcname & H).
  apply bind_Ok in H as (dc & Hdc & [= <-]).
  apply bind_Ok in Hdc as (cid' & ->%validate_str_Ok & Hdc).
  apply bind_Ok in Hdc as (cname' & ->%validate_str_Ok & [= <-]).
  eexists. split; [done|]. unfold drawn_from. simpl.
  split_and!; try done. by destruct allow_reversals.
Qed.

Lemma draw_loop (items : list (nat * TarotCard)) (drawn : list DrawnCard) :
  for_each items (draw_card self lib allow_reversals) [] = Ok drawn ->
  Forall2 (drawn_from self lib allow_reversals) items drawn.
Proof.
  intros Hloop.
  apply (for_each_invariant
           (fun seen acc => Forall2 (drawn_from self lib allow_reversals) seen acc)
           _ items) with (seen := []) (s := []) in Hloop; [done| |constructor].
  intros seen item s s' Hseen (dc & -> & Hdc)%draw_card_Ok.
  apply Forall2_app; [done|]. by constructor.
Qed.

Lemma draw_Ok (count : Z) (drawn : list DrawnCard) :
  draw self lib count allow_reversals = Ok drawn ->
  count <= Z.of_nat (length (_cards self)) /\
  Forall2 (drawn_from self lib allow_reversals)
    (enumerate (slice_to (shuffle lib (_cards self)) count)) drawn.
Proof.
  unfold draw. destruct (Z.ltb_spec (Z.of_nat (length (_cards self))) count);
    [done|].
  intros Hloop%draw_loop. by split.
Qed.

Lemma raises_draw_card (item : nat * TarotCard) (drawn : list DrawnCard) :
  raises_in (fun e => e = KeyError \/ e = ValidationError)
    (draw_card self lib allow_reversals item drawn).
Proof.
  unfold draw_card, DrawnCard_new, TarotCard_card_id, TarotCard_card_name.
  apply raises_bind.
  { destruct (lookup_key _ _); intros e [= <-]. by left. }
  intros cid _. apply raises_bind.
  { destruct (lookup_key _ _); intros e [= <-]. by left. }
  intros cname _. apply raises_bind; [|intros; apply raises_Ok].
  apply raises_bind.
  { destruct cid; intros e [= <-]; by right. }
  intros cid' _. apply raises_bind; [|intros; apply raises_Ok].
  destruct cname; intros e [= <-]; by right.
Qed.

End Draw.

Lemma length_slice_to {A : Type} (l : list A) (n : Z) :
  length (slice_to l n) =
  if n <? 0 then (length l - Z.to_nat (- n))%nat
  else Nat.min (Z.to_nat n) (length l).
Proof.
  unfold slice_to. destruct (n <? 0); rewrite length_take; lia.
Qed.

Lemma length_enumerate {A : Type} (l : list A) :
  length (enumerate l) = length l.
Proof. unfold enumerate. apply length_imap. Qed.

Lemma lookup_enumerate {A : Type} (l : list A) (i : nat) (item : nat * A) :
  enumerate l !! i = Some item -> fst item = i /\ l !! i = Some (snd item).
Proof.
  unfold enumerate. rewrite list_lookup_imap.
  destruct (l !! i) as [x|]; simpl; [|done]. by intros [= <-].
Qed.

Lemma snd_enumerate {A : Type} (l : list A) : snd <$> enumerate l = l.
Proof.
  apply list_eq. intros i. unfold enumerate.
  rewrite list_lookup_fmap, list_lookup_imap. by destruct (l !! i).
Qed.

Lemma slice_to_elem {A : Type} (l : list A) (n : Z) (x : A) :
  x ∈ slice_to l n -> x ∈ l.
Proof.
  unfold slice_to. destruct (n <? 0); apply subseteq_take.
Qed.

Lemma draw_length (self : DeckObject) (lib : Library)
    (n : nat) (allow_reversals : bool) (drawn : list DrawnCard) :
  rearranges lib ->
  draw self lib (Z.of_nat n) allow_reversals = Ok drawn ->
  length drawn = n.
Proof.
  intros Hperm (Hle & Hall)%draw_Ok.
  rewrite <- (Forall2_length _ _ _ Hall), length_enumerate, length_slice_to.
  destruct (Z.ltb_spec (Z.of_nat n) 0); [lia|].
  rewrite (Permutation_length (Hperm (_cards self))). lia.
Qed.

(** X11. A successful [draw] of [count >= 0] cards returns exactly
    [count] drawn cards; the i-th one has position index [i], an empty
    position name, the id and name of a card of the deck (the i-th of
    the shuffled deck), that card's image path, and is upright unless
    reversals are allowed and the i-th random number fell below 0.5. *)
Theorem draw_yields_count_cards (self : DeckObject) (lib : Library)
    (count : Z) (allow_reversals : bool) (drawn : list DrawnCard) :
  rearranges lib ->
  0 <= count ->
  draw self lib count allow_reversals = Ok drawn ->
  length drawn = Z.to_nat count /\
  forall (i : nat) (dc : DrawnCard),
    drawn !! i = Some dc ->
    exists card,
      card ∈ _cards self /\
      shuffle lib (_cards self) !! i = Some card /\
      drawn_from self lib allow_reversals (i, card) dc.
Proof.
  intros Hperm Hcount (Hle & Hall)%draw_Ok. split.
  - rewrite <- (Forall2_length _ _ _ Hall), length_enumerate, length_slice_to.
    destruct (Z.ltb_spec count 0); [lia|].
    rewrite (Permutation_length (Hperm (_cards self))). lia.
  - intros i dc Hdc.
    destruct (Forall2_lookup_r _ _ _ _ _ Hall Hdc) as ([j card] & Hitem & Hfrom).
    apply lookup_enumerate in Hitem as [Hj Hcard]. simpl in Hj, Hcard. subst j.
    exists card. split_and!; [| |done].
    + rewrite <- (Hperm (_cards self)).
      eapply slice_to_elem. by eapply list_elem_of_lookup_2.
    + unfold slice_to in Hcard. destruct (count <? 0);
        by apply lookup_take_Some in Hcard as [? _].
Qed.

Lemma draw_yields_count_cards_witness :
  exists drawn,
    draw Sample.deck_object Sample.library 2 true = Ok drawn /\
    length drawn = 2%nat /\
    exists card, card ∈ Sample.cards /\
      drawn_from Sample.deck_object Sample.library true (1%nat, card)
        {| card_id := "the_magician"; card_name := "The Magician";
           position_index := 1; position_name := "";
           orientation := UPRIGHT; image_path := Some "images/m01.jpg" |}.
Proof.
  eexists. split; [vm_compute; reflexivity|].
  destruct (draw_yields_count_cards Sample.deck_object Sample.library 2 true _
              ltac:(intros l; apply reverse_Permutation) ltac:(lia)
              ltac:(vm_compute; reflexivity)) as [Hlen Hith].
  split; [exact Hlen|].
  destruct (Hith 1%nat _ eq_refl) as (card & Hcard & _ & Hfrom).
  by exists card.
Defined.

Lemma lookup_enumerate_Some {A : Type} (l : list A) (i : nat) (x : A) :
  l !! i = Some x -> enumerate l !! i = Some (i, x).
Proof. intros Hx. unfold enumerate. by rewrite list_lookup_imap, Hx. Qed.

Section DrawFailure.

Variable self : DeckObject.
Variable lib : Library.
Variable allow_reversals : bool.

Lemma draw_card_drawable (item : nat * TarotCard) (drawn : list DrawnCard) :
  drawable (snd item) ->
  exists dc, draw_card self lib allow_reversals item drawn = Ok (drawn ++ [dc]).
Proof.
  intros (cid & cname & Hid & Hname).
  unfold draw_card, TarotCard_card_id, TarotCard_card_name.
  unfold id_entry in Hid. rewrite Hid, Hname. simpl. by eexists.
Qed.

Lemma draw_card_Raise (item : nat * TarotCard) (drawn : list DrawnCard)
    (e : exn) :
  draw_card self lib allow_reversals item drawn = Raise e <->
  stops_draw (snd item) e.
Proof.
  unfold draw_card, TarotCard_card_id, TarotCard_card_name, stops_draw, id_entry.
  destruct (lookup_key "card_id" (_data (snd item))) as [cid|]; simpl.
  2: { split; [intros [= <-]; left; split; [done | by left]|].
       intros [[-> _] | (_ & ? & ? & ? & _)]; done. }
  destruct (lookup_key "card_name" (_data (snd item))) as [cname|]; simpl.
  2: { split; [intros [= <-]; left; split; [done | by right]|].
       intros [[-> _] | (_ & ? & ? & _ & ? & _)]; done. }
  split.
  - intros Hrun. right.
    assert (e = ValidationError /\ ~ (is_str cid /\ is_str cname)) as [-> Hnot].
    { destruct cid as [| | |cid'| |]; simpl in Hrun;
        try (injection Hrun as <-; split; [done|]; by intros [[? ?] _]).
      destruct cname as [| | |cname'| |]; simpl in Hrun;
        try (injection Hrun as <-; split; [done|]; by intros [_ [? ?]]).
      done. }
    split; [done|]. by exists cid, cname.
  - intros [[_ [? | ?]] | (-> & cid' & cname' & [= <-] & [= <-] & Hnot)];
      [done..|].
    destruct cid as [| | |cid'| |]; simpl; try done.
    destruct cname as [| | |cname'| |]; simpl; try done.
    destruct Hnot. split; by eexists.
Qed.

Lemma drawable_not_stopped (card : TarotCard) (e : exn) :
  drawable card -> ~ stops_draw card e.
Proof.
  intros (cid & cname & Hid & Hname)
    [[_ [? | ?]] | (_ & cid' & cname' & Hid' & Hname' & Hnot)]; [congruence..|].
  apply Hnot. split; [exists cid | exists cname]; congruence.
Qed.

(** The loop of [draw] stops at the first card that cannot be drawn. *)
Lemma draw_loop_Raise (items : list (nat * TarotCard)) (drawn : list DrawnCard)
    (e : exn) :
  for_each items (draw_card self lib allow_reversals) drawn = Raise e <->
  exists i item,
    items !! i = Some item /\
    stops_draw (snd item) e /\
    forall j item', (j < i)%nat -> items !! j = Some item' ->
      drawable (snd item').
Proof.
  revert drawn. induction items as [|item items IH]; intros drawn; simpl.
  - split; [done|]. by intros (i & item & ? & _).
  - rewrite bind_Raise. split.
    + intros [Hstop%draw_card_Raise | (drawn' & Hstep & Hrest)].
      * exists 0%nat, item. split_and!; [done..|]. intros j item' Hj. lia.
      * apply IH in Hrest as (i & item' & Hi & Hstop & Hbefore).
        exists (S i), item'. split_and!; [done..|].
        intros [|j] item'' Hj Hitem''.
        -- injection Hitem'' as <-.
           apply draw_card_Ok in Hstep as (dc & _ & Hid & Hname & _).
           exists (card_id dc), (card_name dc).
           unfold TarotCard_card_id in Hid. unfold TarotCard_card_name in Hname.
           unfold id_entry.
           destruct (lookup_key "card_id" _); [|done].
           destruct (lookup_key "card_name" _); [|done].
           split; congruence.
        -- apply (Hbefore j); [lia | done].
    + intros ([|i] & item' & Hi & Hstop & Hbefore).
      * injection Hi as <-. left. by apply draw_card_Raise.
      * right.
        destruct (draw_card_drawable item drawn) as [dc Hdc].
        { apply (Hbefore 0%nat); [lia | done]. }
        eexists. split; [done|]. apply IH. exists i, item'.
        split_and!; [done..|]. intros j item'' Hj Hitem''.
        apply (Hbefore (S j)); [lia | done].
Qed.

End DrawFailure.

(** X12. [draw] fails in two ways only.  It raises [ValueError] itself
    when more cards are asked for than the deck holds.  Otherwise it
    stops at the first card, among those to be drawn from the shuffled
    deck, that cannot be drawn: with [KeyError] when that card has no
    id or no name, with pydantic's [ValidationError] when its id or its
    name is not a text.  As [ValidationError] derives from
    [ValueError], an exception of [draw] caught as a [ValueError] means
    an oversize count or such an id or name. *)
Theorem draw_refuses_only_oversize (self : DeckObject) (lib : Library)
    (count : Z) (allow_reversals : bool) (e : exn) :
  (draw self lib count allow_reversals = Raise e <->
   (Z.of_nat (length (_cards self)) < count /\ e = ValueError) \/
   (count <= Z.of_nat (length (_cards self)) /\
    exists i card,
      slice_to (shuffle lib (_cards self)) count !! i = Some card /\
      stops_draw card e /\
      forall j card', (j < i)%nat ->
        slice_to (shuffle lib (_cards self)) count !! j = Some card' ->
        drawable card')) /\
  (draw self lib count allow_reversals = Raise e ->
   is_instance e ValueError = true ->
   Z.of_nat (length (_cards self)) < count \/
   exists card cid cname,
     card ∈ shuffle lib (_cards self) /\
     id_entry card = Some cid /\
     lookup_key "card_name" (_data card) = Some cname /\
     ~ (is_str cid /\ is_str cname)).
Proof.
  assert (draw self lib count allow_reversals = Raise e <->
   (Z.of_nat (length (_cards self)) < count /\ e = ValueError) \/
   (count <= Z.of_nat (length (_cards self)) /\
    exists i card,
      slice_to (shuffle lib (_cards self)) count !! i = Some card /\
      stops_draw card e /\
      forall j card', (j < i)%nat ->
        slice_to (shuffle lib (_cards self)) count !! j = Some card' ->
        drawable card')) as Hiff.
  { unfold draw.
    destruct (Z.ltb_spec (Z.of_nat (length (_cards self))) count) as [Hlt|Hge].
    - split; [intros [= <-]; by left|]. intros [[_ ->] | [? _]]; [done|lia].
    - rewrite draw_loop_Raise. split.
      + intros (i & [i' card] & Hi & Hstop & Hbefore). right. split; [done|].
        apply lookup_enumerate in Hi as [_ Hi]. exists i, card.
        split_and!; [done..|]. intros j card' Hj Hcard'.
        apply (Hbefore j (j, card')); [done|]. by apply lookup_enumerate_Some.
      + intros [[? _] | (_ & i & card & Hi & Hstop & Hbefore)]; [lia|].
        exists i, (i, card). split_and!; [by apply lookup_enumerate_Some|done|].
        intros j [j' card'] Hj Hcard'.
        apply lookup_enumerate in Hcard' as [_ Hcard']. by apply (Hbefore j). }
  split; [done|]. intros Hrun Hinstance.
  apply Hiff in Hrun as [[Hlt _] | (_ & i & card & Hi & Hstop & _)]; [by left|].
  destruct Hstop as [[-> _] | (_ & cid & cname & Hid & Hname & Hnot)];
    [discriminate Hinstance|].
  right. exists card, cid, cname. split_and!; [|done..].
  eapply slice_to_elem. by eapply list_elem_of_lookup_2.
Qed.

Lemma draw_refuses_only_oversize_witness :
  draw Sample.deck_object_with_sun Sample.library 2 true
    = Raise ValidationError /\
  (Z.of_nat (length (_cards Sample.deck_object_with_sun)) < 2 \/
   exists card cid cname,
     card ∈ shuffle Sample.library (_cards Sample.deck_object_with_sun) /\
     id_entry card = Some cid /\
     lookup_key "card_name" (_data card) = Some cname /\
     ~ (is_str cid /\ is_str cname)).
Proof.
  split; [vm_compute; reflexivity|].
  apply (proj2 (draw_refuses_only_oversize Sample.deck_object_with_sun
                  Sample.library 2 true ValidationError)).
  - vm_compute. reflexivity.
  - reflexivity.
Defined.

(** X13. A negative [count] is not refused: a successful [draw] then
    returns, in order, the cards of the shuffled deck without its last
    [-count] ones, each drawn as for a count that is not negative. *)
Theorem draw_negative_count (self : DeckObject) (lib : Library)
    (count : Z) (allow_reversals : bool) (drawn : list DrawnCard) :
  rearranges lib ->
  count < 0 ->
  draw self lib count allow_reversals = Ok drawn ->
  Forall2 (drawn_from self lib allow_reversals)
    (enumerate (take (length (_cards self) - Z.to_nat (- count))
                  (shuffle lib (_cards self))))
    drawn /\
  length drawn = (length (_cards self) - Z.to_nat (- count))%nat.
Proof.
  intros Hperm Hcount (_ & Hall)%draw_Ok.
  assert (slice_to (shuffle lib (_cards self)) count =
          take (length (_cards self) - Z.to_nat (- count))
            (shuffle lib (_cards self))) as Hslice.
  { unfold slice_to. destruct (Z.ltb_spec count 0); [|lia].
    by rewrite (Permutation_length (Hperm (_cards self))). }
  rewrite Hslice in Hall. split; [done|].
  rewrite <- (Forall2_length _ _ _ Hall), length_enumerate, length_take.
  rewrite (Permutation_length (Hperm (_cards self))). lia.
Qed.

Lemma draw_negative_count_witness :
  exists drawn,
    draw Sample.deck_object Sample.library (-1) false = Ok drawn /\
    card_id <$> drawn = ["the_tower"; "the_magician"] /\
    Forall2 (drawn_from Sample.deck_object Sample.library false)
      (enumerate (take 2 (reverse Sample.cards))) drawn /\
    length drawn = 2%nat.
Proof.
  eexists. split; [vm_compute; reflexivity|]. split; [reflexivity|].
  apply (draw_negative_count Sample.deck_object Sample.library (-1) false).
  - intros l. apply reverse_Permutation.
  - lia.
  - vm_compute. reflexivity.
Defined.

Lemma drawn_ids (self : DeckObject) (lib : Library) (allow_reversals : bool)
    (items : list (nat * TarotCard)) (drawn : list DrawnCard) :
  Forall2 (drawn_from self lib allow_reversals) items drawn ->
  id_entry <$> (snd <$> items) = (fun dc => Some (JStr (card_id dc))) <$> drawn.
Proof.
  induction 1 as [|item dc items drawn Hfrom _ IH]; [done|].
  rewrite !fmap_cons, IH. f_equal.
  destruct Hfrom as (Hid & _). unfold TarotCard_card_id in Hid.
  unfold id_entry. destruct (lookup_key _ _); congruence.
Qed.

Lemma slice_ids_NoDup (lib : Library) (cards : list TarotCard) (count : Z) :
  rearranges lib ->
  ids_distinct cards ->
  NoDup (id_entry <$> slice_to (shuffle lib cards) count).
Proof.
  intros Hperm Hdistinct.
  unfold ids_distinct in Hdistinct. rewrite <- (Hperm cards) in Hdistinct.
  unfold slice_to. destruct (count <? 0);
    rewrite fmap_take; (eapply sublist_NoDup; [done|apply sublist_take]).
Qed.

Lemma card_ids_NoDup (drawn : list DrawnCard) (entries : list (option json)) :
  entries = (fun dc => Some (JStr (card_id dc))) <$> drawn ->
  NoDup entries ->
  NoDup (card_id <$> drawn).
Proof.
  intros -> Hnd.
  change (fun dc => Some (JStr (card_id dc)))
    with ((fun s => Some (JStr s)) ∘ card_id) in Hnd.
  rewrite list_fmap_compose in Hnd.
  by apply NoDup_fmap_1 in Hnd.
Qed.

(** X14. From a deck whose cards have pairwise different ids, [draw]
    never returns the same card id twice. *)
Theorem draw_without_repetition (self : DeckObject) (lib : Library)
    (count : Z) (allow_reversals : bool) (drawn : list DrawnCard) :
  rearranges lib ->
  ids_distinct (_cards self) ->
  draw self lib count allow_reversals = Ok drawn ->
  NoDup (card_id <$> drawn).
Proof.
  intros Hperm Hdistinct (_ & Hall)%draw_Ok.
  apply drawn_ids in Hall. rewrite snd_enumerate in Hall.
  apply (card_ids_NoDup _ _ Hall).
  by apply slice_ids_NoDup.
Qed.

Lemma draw_without_repetition_witness :
  exists drawn,
    draw Sample.deck_object Sample.library 3 true = Ok drawn /\
    NoDup (card_id <$> drawn).
Proof.
  eexists. split; [vm_compute; reflexivity|].
  apply (draw_without_repetition Sample.deck_object Sample.library 3 true).
  - intros l. apply reverse_Permutation.
  - unfold ids_distinct. simpl.
    repeat (apply NoDup_cons; split); [..| apply NoDup_nil_2];
      rewrite ?elem_of_cons, elem_of_nil; intros Hin;
      repeat (destruct Hin as [Hin | Hin]; [discriminate Hin|]); exact Hin.
  - vm_compute. reflexivity.
Defined.

(** ** Building the deck *)

Lemma index_cards_Init (cards : list TarotCard)
    (acc by_id : gmap string TarotCard) :
  index_cards cards acc = Init by_id ->
  (forall card, card ∈ cards ->
     exists key, id_entry card = Some key /\ hashable key = true) /\
  forall card_id,
    by_id !! card_id =
    match indexed cards card_id with
    | Some card => Some card
    | None => acc !! card_id
    end.
Proof.
  revert acc. induction cards as [|card cards IH]; intros acc; simpl.
  - intros [= <-]. split; [by intros card ?%elem_of_nil | done].
  - destruct (lookup_key "card_id" (_data card)) as [key|] eqn:Hkey; [|done].
    destruct (hashable key) eqn:Hhash; [|done].
    intros (Hall & Hlookup)%IH. split.
    + intros c [-> | Hc]%elem_of_cons; [by exists key | by apply Hall].
    + intros cid. rewrite Hlookup. unfold indexed, has_id, id_entry. simpl.
      rewrite Hkey.
      destruct key as [| | |s| |]; simpl;
        try (by destruct (last (List.filter _ cards))).
      destruct (String.eqb_spec s cid) as [->|Hne]; simpl.
      * destruct (List.filter _ cards) as [|c l] eqn:Hfilter; simpl.
        -- by rewrite lookup_insert_eq.
        -- by destruct (last (c :: l)) eqn:Hlast;
             [|apply last_None in Hlast].
      * destruct (last (List.filter _ cards)); [done|].
        by rewrite lookup_insert_ne.
Qed.

(** X15. [TarotDeck.__init__] succeeds exactly on cards that all have a
    hashable ["card_id"]; the deck then finds, under a string id, the
    last of the given cards with that id, and [get_card] raises
    [KeyError] on the ids of none.  A card without ["card_id"] ends it
    with [KeyError], a list or dict as id with [TypeError]. *)
Theorem deck_indexes_its_cards (cards : list TarotCard)
    (image_path image_format : string) :
  match TarotDeck_new cards image_path image_format with
  | Init deck =>
      _cards deck = cards /\
      (forall card, card ∈ cards ->
         exists key, id_entry card = Some key /\ hashable key = true) /\
      forall card_id,
        get_card (_index deck) card_id =
        match indexed cards card_id with
        | Some card => Ok card
        | None => Raise KeyError
        end
  | InitKeyError => exists card, card ∈ cards /\ id_entry card = None
  | InitTypeError =>
      exists card key,
        card ∈ cards /\ id_entry card = Some key /\ hashable key = false
  end.
Proof.
  unfold TarotDeck_new.
  destruct (index_cards cards ∅) as [by_id| |] eqn:Hindex.
  - apply index_cards_Init in Hindex as [Hall Hlookup].
    split_and!; [done..|]. intros cid. unfold get_card. simpl.
    rewrite Hlookup. destruct (indexed cards cid); [done|].
    by rewrite lookup_empty.
  - revert Hindex. generalize (∅ : gmap string TarotCard).
    induction cards as [|card cards IH]; intros acc; simpl; [done|].
    destruct (lookup_key "card_id" (_data card)) as [key|] eqn:Hkey.
    + destruct (hashable key); [|done].
      intros (c & Hc & Hnone)%IH. exists c.
      split; [by apply list_elem_of_further | done].
    + intros _. exists card. split; [apply list_elem_of_here | done].
  - revert Hindex. generalize (∅ : gmap string TarotCard).
    induction cards as [|card cards IH]; intros acc; simpl; [done|].
    destruct (lookup_key "card_id" (_data card)) as [key|] eqn:Hkey; [|done].
    destruct (hashable key) eqn:Hhash.
    + intros (c & k & Hc & Hk)%IH. exists c, k.
      split; [by apply list_elem_of_further | done].
    + intros _. exists card, key. split; [apply list_elem_of_here | done].
Qed.

(** ** Creating a reading *)

Lemma assign_positions_length (i : nat) (drawn : list DrawnCard)
    (positions : list SpreadPosition) :
  length (assign_positions i drawn positions) = length drawn.
Proof.
  revert i positions. induction drawn as [|dc drawn IH]; intros i [|p ps];
    simpl; [done..|]. by rewrite IH.
Qed.

Lemma assign_positions_lookup (i k : nat) (drawn : list DrawnCard)
    (positions : list SpreadPosition) (dc : DrawnCard) :
  length drawn = length positions ->
  assign_positions i drawn positions !! k = Some dc ->
  exists dc0 position,
    drawn !! k = Some dc0 /\ positions !! k = Some position /\
    card_id dc = card_id dc0 /\ card_name dc = card_name dc0 /\
    orientation dc = orientation dc0 /\ image_path dc = image_path dc0 /\
    position_index dc = Z.of_nat (i + k) /\
    position_name dc = sp_name position.
Proof.
  revert i k positions.
  induction drawn as [|dc0 drawn IH]; intros i k [|p ps] Hlen; simpl; try done.
  destruct k as [|k]; simpl.
  - intros [= <-]. exists dc0, p. simpl. rewrite Nat.add_0_r. by split_and!.
  - intros Hk. apply IH in Hk as (d & q & ? & ? & ? & ? & ? & ? & Hidx & ?);
      [|by injection Hlen].
    exists d, q. split_and!; try done. rewrite Hidx. f_equal. lia.
Qed.

Lemma create_reading_Ok (self : ReadingEngine) (lib : Library)
    (sid : string) (question : option string) (arg : question_type_arg)
    (allow_reversals : bool) (seed : option Z) (reading : Reading) :
  create_reading self lib sid question arg allow_reversals seed = Ok reading ->
  exists spread qt drawn,
    load_spread (engine_spread_registry self) sid = Ok spread /\
    engine_question_type arg = Ok qt /\
    draw (engine_deck self) lib (Z.of_nat (length (positions spread)))
      allow_reversals = Ok drawn /\
    reading = {| id := now lib; spread_id := sid; spread_name := sd_name spread;
                 question := question; question_type := qt;
                 drawn_cards := assign_positions 0 drawn (positions spread);
                 allow_reversals := allow_reversals; seed := seed |}.
Proof.
  unfold create_reading. intros (spread & Hspread & H)%bind_Ok.
  apply bind_Ok in H as (qt & Hqt & H).
  apply bind_Ok in H as (drawn & Hdrawn & [= <-]).
  by exists spread, qt, drawn.
Qed.

Lemma created_spread (self : ReadingEngine) (lib : Library)
    (sid : string) (question : option string) (arg : question_type_arg)
    (allow_reversals : bool) (seed : option Z) (reading : Reading) :
  create_reading self lib sid question arg allow_reversals seed = Ok reading ->
  exists spread,
    load_spread (engine_spread_registry self) sid = Ok spread /\
    spread_id reading = sid.
Proof.
  intros (spread & qt & drawn & Hspread & _ & _ & ->)%create_reading_Ok.
  by exists spread.
Qed.

(** X16. A reading that [create_reading] returns fits its spread: it
    records the spread's id and name, it has one drawn card per
    position, and the i-th drawn card carries position index [i] and
    the name of the i-th position. *)
Theorem created_reading_fits_spread (self : ReadingEngine) (lib : Library)
    (sid : string) (question : option string) (arg : question_type_arg)
    (allow_reversals : bool) (seed : option Z) (reading : Reading) :
  rearranges lib ->
  create_reading self lib sid question arg allow_reversals seed = Ok reading ->
  exists spread,
    load_spread (engine_spread_registry self) sid = Ok spread /\
    spread_id reading = sid /\
    spread_name reading = sd_name spread /\
    length (drawn_cards reading) = length (positions spread) /\
    forall (i : nat) (dc : DrawnCard),
      drawn_cards reading !! i = Some dc ->
      position_index dc = Z.of_nat i /\
      exists position,
        positions spread !! i = Some position /\
        position_name dc = sp_name position.
Proof.
  intros Hperm (spread & qt & drawn & Hspread & _ & Hdraw & ->)%create_reading_Ok.
  exists spread. simpl.
  pose proof (draw_length (engine_deck self) lib
                (length (positions spread)) allow_reversals drawn Hperm Hdraw)
    as Hlen.
  split_and!; [done..| by rewrite assign_positions_length |].
  intros i dc Hdc.
  apply assign_positions_lookup in Hdc
    as (dc0 & position & _ & Hposition & _ & _ & _ & _ & Hidx & Hname); [|done].
  split; [done|]. by exists position.
Qed.

Lemma created_reading_fits_spread_witness :
  exists reading,
    create_reading Sample.engine Sample.library "three_card" None
      (ArgStr "love") true (Some 7) = Ok reading /\
    length (drawn_cards reading) = 3%nat.
Proof.
  eexists. split; [vm_compute; reflexivity|].
  destruct (created_reading_fits_spread Sample.engine Sample.library
              "three_card" None (ArgStr "love") true (Some 7) _
              ltac:(intros l; apply reverse_Permutation)
              ltac:(vm_compute; reflexivity))
    as (spread & Hspread & _ & _ & Hlen & _).
  vm_compute in Hspread. injection Hspread as <-. exact Hlen.
Defined.

(** ** Assembling a created reading *)

Lemma indexed_distinct (cards : list TarotCard) (card : TarotCard)
    (cid : string) :
  ids_distinct cards ->
  card ∈ cards ->
  id_entry card = Some (JStr cid) ->
  indexed cards cid = Some card.
Proof.
  unfold ids_distinct, indexed. induction cards as [|c cards IH]; simpl.
  - by intros _ ?%elem_of_nil.
  - rewrite NoDup_cons. intros [Hc Hnd] Hin Hid.
    assert (forall c', c' ∈ cards -> has_id cid c' = true ->
                        id_entry c' = Some (JStr cid)) as Hhas.
    { intros c' _. unfold has_id. destruct (id_entry c') as [[| | |s| |]|]; try done.
      by intros ->%String.eqb_eq. }
    apply elem_of_cons in Hin as [<- | Hin].
    + unfold has_id at 1. rewrite Hid, String.eqb_refl.
      rewrite (filter_key_none (has_id cid) id_entry (Some (JStr cid)) cards);
        [done| exact Hhas | by rewrite <- Hid].
    + destruct (has_id cid c) eqn:Hcid.
      * destruct Hc. apply list_elem_of_fmap. exists card. split; [|done].
        unfold has_id in Hcid. destruct (id_entry c) as [[| | |s| |]|]; try done.
        apply String.eqb_eq in Hcid as ->. by rewrite Hid.
      * by apply IH.
Qed.

Lemma created_cards (self : ReadingEngine) (lib : Library)
    (sid : string) (question : option string) (arg : question_type_arg)
    (allow_reversals : bool) (seed : option Z) (reading : Reading)
    (dc : DrawnCard) :
  rearranges lib ->
  create_reading self lib sid question arg allow_reversals seed = Ok reading ->
  dc ∈ drawn_cards reading ->
  exists spread card,
    load_spread (engine_spread_registry self) sid = Ok spread /\
    spread_id reading = sid /\
    0 <= position_index dc < Z.of_nat (length (positions spread)) /\
    card ∈ _cards (engine_deck self) /\
    id_entry card = Some (JStr (card_id dc)) /\
    exists name, lookup_key "card_name" (_data card) = Some name.
Proof.
  intros Hperm (spread & qt & drawn & Hspread & _ & Hdraw & ->)%create_reading_Ok
    Hdc. simpl in Hdc.
  pose proof (draw_length _ _ _ _ _ Hperm Hdraw) as Hlen.
  apply list_elem_of_lookup in Hdc as (k & Hk).
  pose proof (lookup_lt_Some _ _ _ Hk) as Hbound.
  rewrite assign_positions_length in Hbound.
  apply assign_positions_lookup in Hk
    as (dc0 & position & Hdc0 & _ & Hid & _ & _ & _ & Hidx & _); [|done].
  apply draw_Ok in Hdraw as (_ & Hall).
  destruct (Forall2_lookup_r _ _ _ _ _ Hall Hdc0) as ([j card] & Hitem & Hfrom).
  apply lookup_enumerate in Hitem as [_ Hcard]. simpl in Hcard.
  destruct Hfrom as (Hcid & Hname & _). simpl in Hcid, Hname.
  exists spread, card. split_and!; try done; try lia.
  - rewrite <- (Hperm (_cards (engine_deck self))).
    eapply slice_to_elem. by eapply list_elem_of_lookup_2.
  - unfold TarotCard_card_id in Hcid. unfold id_entry. rewrite Hid.
    destruct (lookup_key _ _); congruence.
  - unfold TarotCard_card_name in Hname.
    destruct (lookup_key "card_name" _) as [name|]; [by exists name | done].
Qed.

(** X17. Readings created by the engine never make the assembly fail
    for a missing card or a position out of range: over a deck built
    from cards with pairwise different ids, [assemble] on a reading
    returned by [create_reading], with the same deck and registry,
    raises neither [KeyError] nor [IndexError]. *)
Theorem created_reading_assembles (cards : list TarotCard)
    (image_path image_format : string) (deck : DeckObject)
    (registry : SpreadRegistry) (lib : Library)
    (sid : string) (question : option string) (arg : question_type_arg)
    (allow_reversals : bool) (seed : option Z) (reading : Reading)
    (arg' : question_type_arg) (include_relationships : bool) (e : exn) :
  TarotDeck_new cards image_path image_format = Init deck ->
  ids_distinct cards ->
  rearranges lib ->
  create_reading {| engine_deck := deck; engine_spread_registry := registry |}
    lib sid question arg allow_reversals seed = Ok reading ->
  assemble {| _deck := _index deck; _spread_registry := registry |}
    reading arg' include_relationships = Raise e ->
  e <> KeyError /\ e <> IndexError.
Proof.
  intros Hnew Hdistinct Hperm Hcreate Hfail.
  apply raises_assemble in Hfail.
  unfold TarotDeck_new in Hnew.
  destruct (index_cards cards ∅) as [by_id| |] eqn:Hindex; try done.
  injection Hnew as <-.
  apply index_cards_Init in Hindex as [_ Hlookup].
  split; intros ->; simpl in Hfail.
  - destruct Hfail as [Hnone | (dc & Hdc & Hcause)].
    + apply created_spread in Hcreate
        as (spread & Hspread & Hsid).
      simpl in Hspread. unfold load_spread in Hspread. rewrite Hsid in Hnone.
      by rewrite Hnone in Hspread.
    + destruct (created_cards _ _ _ _ _ _ _ _ dc Hperm Hcreate Hdc)
        as (spread & card & _ & _ & _ & Hcard & Hid & name & Hname).
      simpl in Hcard. rewrite Hlookup in Hcause.
      rewrite (indexed_distinct cards card (card_id dc)) in Hcause by done.
      congruence.
  - destruct Hfail as (spread' & dc & Hspread' & Hdc & Hrange).
    destruct (created_cards _ _ _ _ _ _ _ _ dc Hperm Hcreate Hdc)
      as (spread & card & Hspread & Hsid & Hidx & _).
    simpl in Hspread, Hspread'. unfold load_spread in Hspread.
    rewrite Hsid in Hspread'. rewrite Hspread' in Hspread.
    injection Hspread as ->.
    apply Hrange. unfold index_in_range. lia.
Qed.

Lemma created_reading_assembles_witness :
  exists deck reading,
    TarotDeck_new Sample.cards "images" "jpg" = Init deck /\
    create_reading
      {| engine_deck := deck; engine_spread_registry := Sample.registry |}
      Sample.library "three_card" None ArgNone true (Some 7) = Ok reading /\
    assemble {| _deck := _index deck; _spread_registry := Sample.registry |}
      reading (ArgStr "money") true = Raise ValueError /\
    ValueError <> KeyError /\ ValueError <> IndexError.
Proof.
  eexists. eexists.
  split; [vm_compute; reflexivity|].
  split; [vm_compute; reflexivity|].
  split; [vm_compute; reflexivity|].
  eapply (created_reading_assembles Sample.cards "images" "jpg" _
            Sample.registry Sample.library "three_card" None ArgNone true
            (Some 7) _ (ArgStr "money") true ValueError).
  - vm_compute. reflexivity.
  - unfold ids_distinct. simpl.
    repeat (apply NoDup_cons; split); [..| apply NoDup_nil_2];
      rewrite ?elem_of_cons, elem_of_nil; intros Hin;
      repeat (destruct Hin as [Hin | Hin]; [discriminate Hin|]); exact Hin.
  - intros l. apply reverse_Permutation.
  - vm_compute. reflexivity.
  - vm_compute. reflexivity.
Defined.

Lemma assign_positions_ids (i : nat) (drawn : list DrawnCard)
    (positions : list SpreadPosition) :
  card_id <$> assign_positions i drawn positions = card_id <$> drawn.
Proof.
  revert i positions. induction drawn as [|dc drawn IH]; intros i [|p ps];
    simpl; [done..|]. by rewrite IH.
Qed.

Lemma indexed_elem (cards : list TarotCard) (cid : string) (card : TarotCard) :
  indexed cards cid = Some card -> card ∈ cards.
Proof.
  unfold indexed. intros Hlast.
  assert (card ∈ List.filter (has_id cid) cards) as Hin.
  { apply last_Some in Hlast as (l & ->). apply elem_of_app. right.
    apply list_elem_of_here. }
  apply list_elem_of_In, filter_In in Hin as [Hin _].
  by apply list_elem_of_In.
Qed.

(** X18. On readings created by the engine the scan keeps its
    invariant: over a deck built from cards with pairwise different
    ids, whose relationship trees are dicts, every unordered pair of
    cards occurs at most once per relationship type in the scan of a
    reading that [create_reading] returned. *)
Theorem created_reading_pairs_unique (cards : list TarotCard)
    (image_path image_format : string) (deck : DeckObject)
    (registry : SpreadRegistry) (lib : Library)
    (sid : string) (question : option string) (arg : question_type_arg)
    (allow_reversals : bool) (seed : option Z) (reading : Reading)
    (out : list CardRelationshipMatch) :
  TarotDeck_new cards image_path image_format = Init deck ->
  ids_distinct cards ->
  (forall card, card ∈ cards -> relationships_wf card) ->
  rearranges lib ->
  create_reading {| engine_deck := deck; engine_spread_registry := registry |}
    lib sid question arg allow_reversals seed = Ok reading ->
  _find_relationships {| _deck := _index deck; _spread_registry := registry |}
    reading = Ok out ->
  pairs_unique out.
Proof.
  intros Hnew Hdistinct Hwf Hperm Hcreate Hscan.
  unfold TarotDeck_new in Hnew.
  destruct (index_cards cards ∅) as [by_id| |] eqn:Hindex; try done.
  injection Hnew as <-.
  apply index_cards_Init in Hindex as [_ Hlookup].
  apply (NoDup_keys_pairs_unique _ _ _ Hscan).
  apply (find_relationships_NoDup _ _ _) in Hscan; [done| |].
  - apply create_reading_Ok in Hcreate
      as (spread & qt & drawn & _ & _ & Hdraw & ->). simpl.
    rewrite assign_positions_ids.
    apply draw_Ok in Hdraw as (_ & Hall).
    apply drawn_ids in Hall. rewrite snd_enumerate in Hall.
    apply (card_ids_NoDup _ _ Hall). by apply slice_ids_NoDup.
  - intros dc card _ Hcard. apply Hwf. unfold get_card in Hcard. simpl in Hcard.
    rewrite Hlookup in Hcard.
    destruct (indexed cards (card_id dc)) as [c|] eqn:Hidx;
      [|by rewrite lookup_empty in Hcard].
    injection Hcard as <-. by eapply indexed_elem.
Qed.

Lemma created_reading_pairs_unique_witness :
  exists deck reading out,
    TarotDeck_new Sample.cards "images" "jpg" = Init deck /\
    create_reading
      {| engine_deck := deck; engine_spread_registry := Sample.registry |}
      Sample.library "three_card" None ArgNone true (Some 7) = Ok reading /\
    _find_relationships
      {| _deck := _index deck; _spread_registry := Sample.registry |} reading
      = Ok out /\
    length out = 2%nat /\ pairs_unique out.
Proof.
  eexists. eexists. eexists.
  split; [vm_compute; reflexivity|].
  split; [vm_compute; reflexivity|].
  split; [vm_compute; reflexivity|].
  split; [reflexivity|].
  eapply (created_reading_pairs_unique Sample.cards "images" "jpg" _
            Sample.registry Sample.library "three_card" None ArgNone true
            (Some 7)).
  - vm_compute. reflexivity.
  - unfold ids_distinct. simpl.
    repeat (apply NoDup_cons; split); [..| apply NoDup_nil_2];
      rewrite ?elem_of_cons, elem_of_nil; intros Hin;
      repeat (destruct Hin as [Hin | Hin]; [discriminate Hin|]); exact Hin.
  - intros card Hcard.
    repeat (apply elem_of_cons in Hcard as [-> | Hcard]);
      [..| by apply elem_of_nil in Hcard];
      unfold relationships_wf, unique_keys; simpl;
      repeat split; repeat constructor; try by_evaluation.
  - intros l. apply reverse_Permutation.
  - vm_compute. reflexivity.
  - vm_compute. reflexivity.
Defined.

(** ** When the resolver fails *)

Lemma fallback_Raise (card : TarotCard) (reversed : bool) (e : exn) :
  _get_core_meaning_fallback card reversed = Raise e <->
  e = AttributeError /\
  forall meaning, get_core_meaning card reversed <> Ok (JDict meaning).
Proof.
  unfold _get_core_meaning_fallback, get_core_meaning.
  destruct (dict_get (_data card) "core_meanings" (JDict [])) as [| | | | |core];
    simpl;
    try (split; [by intros [= <-]|by intros [-> _]]).
  destruct (dict_get core (orientation_key reversed) (JDict []))
    as [| | | | |meaning]; simpl;
    try (split; [by intros [= <-]|by intros [-> _]]).
  split; [done|]. intros [_ Hnone]. by destruct (Hnone meaning).
Qed.

(** X19. [get_interpretation] raises in one situation only, and then
    [AttributeError]: the RAG mapping does not lead to a mapping, and
    the card's core meaning for the orientation is not a mapping either
    (or cannot be read because [core_meanings] is not one). *)
Theorem get_interpretation_fails_iff (card : TarotCard) (rag_mapping : string)
    (reversed : bool) (e : exn) :
  get_interpretation card rag_mapping reversed = Raise e <->
  e = AttributeError /\
  (forall current,
     ~ path_resolves (position_tree card) (segments rag_mapping)
         (JDict current)) /\
  (forall meaning, get_core_meaning card reversed <> Ok (JDict meaning)).
Proof.
  split.
  - intros Hraise.
    assert (forall current,
              ~ path_resolves (position_tree card) (segments rag_mapping)
                  (JDict current)) as Hnone.
    { intros current Hres%walk_resolves.
      rewrite get_interpretation_walk, Hres in Hraise. done. }
    rewrite (get_interpretation_unresolved _ _ _ Hnone) in Hraise.
    apply fallback_Raise in Hraise as [-> Hcore]. done.
  - intros (-> & Hnone & Hcore).
    rewrite (get_interpretation_unresolved _ _ _ Hnone).
    by apply fallback_Raise.
Qed.

(** ** The default registry *)

(** X20. Once [get_spread_registry] has returned a registry, the global
    holds it, and every later call without [reload] returns that same
    registry and leaves the global as it is, whatever [config_path] and
    [system] it is given and whatever the configuration files now hold;
    the module-level [load_spread] then loads from that registry. *)
Theorem default_registry_is_kept (E : Type)
    (from_config : option string -> string -> E + SpreadRegistry)
    (global : option SpreadRegistry) (config_path : option string)
    (reload : bool) (system : string)
    (registry : SpreadRegistry) (global' : option SpreadRegistry) :
  get_spread_registry E from_config global config_path reload system
    = (inr registry, global') ->
  global' = Some registry /\
  (forall from_config' config_path' system',
     get_spread_registry E from_config' global' config_path' false system'
       = (inr registry, global')) /\
  (forall from_config' spread_id,
     default_load_spread E from_config' global' spread_id
       = (inr (load_spread registry spread_id), global')).
Proof.
  unfold default_load_spread, get_spread_registry. intros Hcall.
  assert (global' = Some registry) as ->; [|done].
  destruct global as [cached|], reload;
    repeat match type of Hcall with
           | context [from_config ?c ?s] => destruct (from_config c s)
           end;
    by simplify_eq.
Qed.

Lemma default_registry_is_kept_witness :
  get_spread_registry unit (fun _ _ => inr Sample.registry) None None false
    "tarot" = (inr Sample.registry, Some Sample.registry) /\
  get_spread_registry unit (fun _ _ => inl tt) (Some Sample.registry)
    (Some "other.json") false "lenormand"
    = (inr Sample.registry, Some Sample.registry).
Proof.
  split; [reflexivity|].
  apply (default_registry_is_kept unit (fun _ _ => inr Sample.registry)
           None None false "tarot" Sample.registry (Some Sample.registry)).
  reflexivity.
Defined.
